(** * kafka/client.py: the broker-aware request router and its metadata cache

    A shallow embedding of [KafkaClient] (src/kafka/client.py) and the
    properties of its routing, refresh and error handling.

    The client is Python 2 code: [str] is a byte string, integers are
    unbounded, and the iteration order of a [dict] is not the insertion
    order.  Dictionaries that the client only looks up are finite maps;
    dictionaries that it iterates are association lists read through an
    arbitrary but fixed permutation ([DictOrder]).  The connection pools
    are external: a call on a pool is answered by the environment as a
    function of everything the client did before, and every call is
    recorded, with its outcome, in the client's history. *)

From stdpp Require Import gmap strings list fin_maps.
From Stdlib Require Import ZArith.

Abbreviation bytes := string (only parsing).
Abbreviation key := (string * Z)%type (only parsing).

(** ** Data model *)

(** kafka.common.TopicAndPartition is a namedtuple, hence equal to (and
    hashed as) the plain tuple. *)
Definition TopicAndPartition (topic : string) (partition : Z) : key :=
  (topic, partition).

(** kafka.common.BrokerMetadata(nodeId, host, port). *)
Record BrokerMetadata := mkBrokerMetadata {
  nodeId : Z;
  host : string;
  port : Z
}.

(** kafka.common.PartitionMetadata; the client reads [leader] only. *)
Record PartitionMetadata := mkPartitionMetadata {
  pm_topic : string;
  pm_partition : Z;
  leader : Z;
  replicas : list Z;
  isr : list Z
}.

(** KafkaConnectionPool(pool_size, host=, port=, buffer_size=). *)
Record KafkaConnectionPool := mkKafkaConnectionPool {
  kcp_pool_size : Z;
  kcp_host : string;
  kcp_port : Z;
  kcp_buffer_size : Z
}.

(** A request unit: an object with [topic] and [partition] attributes and
    kind-specific fields, kept opaque. *)
Record Payload := mkPayload {
  payload_topic : string;
  payload_partition : Z;
  payload_body : bytes
}.

(** A decoded response: [topic], [partition], [error] and kind-specific
    fields, kept opaque. *)
Record Response := mkResponse {
  resp_topic : string;
  resp_partition : Z;
  error : Z;
  resp_body : bytes
}.

#[global] Instance BrokerMetadata_eq_dec : EqDecision BrokerMetadata.
Proof. solve_decision. Defined.
#[global] Instance PartitionMetadata_eq_dec : EqDecision PartitionMetadata.
Proof. solve_decision. Defined.
#[global] Instance KafkaConnectionPool_eq_dec : EqDecision KafkaConnectionPool.
Proof. solve_decision. Defined.
#[global] Instance Payload_eq_dec : EqDecision Payload.
Proof. solve_decision. Defined.
#[global] Instance Response_eq_dec : EqDecision Response.
Proof. solve_decision. Defined.

Definition payload_key (p : Payload) : key :=
  (payload_topic p, payload_partition p).
Definition resp_key (r : Response) : key :=
  (resp_topic r, resp_partition r).

(** ** The environment *)

(** What a call on a pool can raise: [ConnectionError], the one kind the
    router catches, or anything else. *)
Inductive transport_exn := ConnectionError | OtherTransportError.

#[global] Instance transport_exn_eq_dec : EqDecision transport_exn.
Proof. solve_decision. Defined.

(** The observable actions of the client, each with its outcome. *)
Inductive event :=
| EvRequest (conn : KafkaConnectionPool) (request_id : Z) (request : bytes)
            (result : bytes + transport_exn)
| EvPush (conn : KafkaConnectionPool) (request_id : Z) (request : bytes)
         (result : unit + transport_exn)
| EvSleep (seconds : Z).

#[global] Instance event_eq_dec : EqDecision event.
Proof. solve_decision. Defined.

(** Modelled from the spec: kafka.connection.KafkaConnectionPool is not
    part of the sources; its contract is [request(id, bytes) -> bytes] and
    [push(id, bytes) -> void], both of which may raise.  The answer is a
    function of the history of the client's earlier actions. *)
Class Transport := {
  conn_request :
    list event -> KafkaConnectionPool -> Z -> bytes -> bytes + transport_exn;
  conn_push :
    list event -> KafkaConnectionPool -> Z -> bytes -> unit + transport_exn
}.

(** The classes found in [KafkaProtocol.ERROR_CODE_MAPPING], and the
    default [UnknownException]. *)
Inductive exception_cls :=
| UnknownException
| MappedException (name : string).

#[global] Instance exception_cls_eq_dec : EqDecision exception_cls.
Proof. solve_decision. Defined.

(** Modelled from the spec: kafka.protocol.KafkaProtocol is not part of
    the sources; the codec is a family of pure functions and the error
    table a finite map.  A decoded metadata response is the pair
    (brokers, topics): [brokers] is only looked up, [topics] and the
    partitions of each topic are iterated, so these are given in their
    iteration order. *)
Class KafkaProtocol := {
  encode_metadata_request : string -> Z -> list string -> bytes;
  decode_metadata_response :
    bytes ->
    gmap Z BrokerMetadata * list (string * list (Z * PartitionMetadata));
  encode_produce_request : string -> Z -> list Payload -> Z -> Z -> bytes;
  decode_produce_response : bytes -> list Response;
  encode_fetch_request : string -> Z -> list Payload -> Z -> Z -> bytes;
  decode_fetch_response : bytes -> list Response;
  encode_offset_request : string -> Z -> list Payload -> bytes;
  decode_offset_response : bytes -> list Response;
  encode_offset_commit_request :
    string -> Z -> list Payload -> string -> bytes;
  decode_offset_commit_response : bytes -> list Response;
  encode_offset_fetch_request :
    string -> Z -> list Payload -> string -> bytes;
  decode_offset_fetch_response : bytes -> list Response;
  ERROR_CODE_MAPPING : gmap Z exception_cls
}.

(** The order in which a dictionary built by the client is iterated: some
    permutation of its entries. *)
Class DictOrder := {
  dict_items : forall {K V : Type}, list (K * V) -> list (K * V);
  dict_items_perm :
    forall (K V : Type) (d : list (K * V)), dict_items d ≡ₚ d
}.

(** ** Dictionaries that are iterated *)

Section assoc.
Context {K V : Type} `{EqDecision K}.

(** [d.get(k)] *)
Fixpoint assoc_lookup (k : K) (d : list (K * V)) : option V :=
  match d with
  | [] => None
  | (k', v) :: d' => if decide (k = k') then Some v else assoc_lookup k d'
  end.

(** [d[k] = v] for a key that is not in [d] *)
Definition assoc_add (k : K) (v : V) (d : list (K * V)) : list (K * V) :=
  d ++ [(k, v)].
End assoc.

(** [d[k].append(x)] on a [defaultdict(list)] *)
Fixpoint defaultdict_append {K V : Type} `{EqDecision K}
    (k : K) (x : V) (d : list (K * list V)) : list (K * list V) :=
  match d with
  | [] => [(k, [x])]
  | (k', xs) :: d' =>
      if decide (k = k') then (k', xs ++ [x]) :: d'
      else (k', xs) :: defaultdict_append k x d'
  end.

(** ** Exceptions and outcomes *)

Inductive exn :=
| PartitionDoesNotExist (k : key)
    (* Exception("Partition does not exist: %s" % str(key)) *)
| AllServersFailed
    (* Exception("All servers failed to process request") *)
| KeyError_brokers (leader_id : Z)
    (* brokers[meta.leader] *)
| KeyError_acc (k : key)
    (* acc[k] *)
| FailedPayloadsException (failed_payloads : list Payload)
| Propagated (e : transport_exn)
    (* an exception of a pool that no handler of the client catches *)
| RequestFailed (cls : exception_cls) (message : string)
                (tp : option key) (code : Z).
    (* exception_cls(message % (tp, code)) or exception_cls(message, code) *)

Inductive Res (A : Type) :=
| Ok (a : A)
| Raise (e : exn)
| OutOfFuel.
Arguments Ok {A} a.
Arguments Raise {A} e.
Arguments OutOfFuel {A}.

(** ** The client *)

(** The attributes of a [KafkaClient], the class-level counter [ID_GEN]
    and the history of the actions performed so far. *)
Record State := mkState {
  buffer_size : Z;
  client_id : string;
  pool_size : Z;
  conns : list ((string * Z) * KafkaConnectionPool);
  brokers : gmap Z BrokerMetadata;
  topics_to_brokers : gmap (string * Z) BrokerMetadata;
  topic_partitions : gmap string (list Z);
  ID_GEN : Z;
  history : list event
}.

Definition set_conns (f : list ((string * Z) * KafkaConnectionPool) ->
                          list ((string * Z) * KafkaConnectionPool))
    (s : State) : State :=
  mkState (buffer_size s) (client_id s) (pool_size s) (f (conns s))
          (brokers s) (topics_to_brokers s) (topic_partitions s)
          (ID_GEN s) (history s).
Definition set_brokers (b : gmap Z BrokerMetadata) (s : State) : State :=
  mkState (buffer_size s) (client_id s) (pool_size s) (conns s)
          b (topics_to_brokers s) (topic_partitions s)
          (ID_GEN s) (history s).
Definition set_topics_to_brokers
    (f : gmap (string * Z) BrokerMetadata -> gmap (string * Z) BrokerMetadata)
    (s : State) : State :=
  mkState (buffer_size s) (client_id s) (pool_size s) (conns s)
          (brokers s) (f (topics_to_brokers s)) (topic_partitions s)
          (ID_GEN s) (history s).
Definition set_topic_partitions
    (f : gmap string (list Z) -> gmap string (list Z))
    (s : State) : State :=
  mkState (buffer_size s) (client_id s) (pool_size s) (conns s)
          (brokers s) (topics_to_brokers s) (f (topic_partitions s))
          (ID_GEN s) (history s).
Definition set_ID_GEN (f : Z -> Z) (s : State) : State :=
  mkState (buffer_size s) (client_id s) (pool_size s) (conns s)
          (brokers s) (topics_to_brokers s) (topic_partitions s)
          (f (ID_GEN s)) (history s).
Definition log_event (ev : event) (s : State) : State :=
  mkState (buffer_size s) (client_id s) (pool_size s) (conns s)
          (brokers s) (topics_to_brokers s) (topic_partitions s)
          (ID_GEN s) (history s ++ [ev]).

(** Computations of the client: the state survives an exception. *)
Definition M (A : Type) : Type := State -> Res A * State.

#[global] Instance M_ret : MRet M := fun A a s => (Ok a, s).
#[global] Instance M_bind : MBind M := fun A B f m s =>
  match m s with
  | (Ok a, s') => f a s'
  | (Raise e, s') => (Raise e, s')
  | (OutOfFuel, s') => (OutOfFuel, s')
  end.

Definition raise {A : Type} (e : exn) : M A := fun s => (Raise e, s).
Definition out_of_fuel {A : Type} : M A := fun s => (OutOfFuel, s).
Definition gets {A : Type} (f : State -> A) : M A := fun s => (Ok (f s), s).
Definition modify (f : State -> State) : M unit := fun s => (Ok tt, f s).

(** [for resp in resps] over what [_send_broker_aware_request] returns:
    the generator [(acc[k] for k in original_keys)], or the empty tuple. *)
Inductive Responses :=
| GenExpr (acc : gmap (string * Z) Response) (original_keys : list (string * Z))
| EmptyTuple.

(** [list(resps)]: the generator raises at the first key missing from
    [acc]. *)
Fixpoint gen_list (acc : gmap (string * Z) Response) (ks : list (string * Z))
    : Res (list Response) :=
  match ks with
  | [] => Ok []
  | k :: ks' =>
      match acc !! k with
      | None => Raise (KeyError_acc k)
      | Some resp =>
          match gen_list acc ks' with
          | Ok rs => Ok (resp :: rs)
          | Raise e => Raise e
          | OutOfFuel => OutOfFuel
          end
      end
  end.

Definition list_of (resps : Responses) : Res (list Response) :=
  match resps with
  | GenExpr acc original_keys => gen_list acc original_keys
  | EmptyTuple => Ok []
  end.

Section client.
Context `{Transport} `{KafkaProtocol} `{DictOrder}.

(** [KafkaClient.ID_GEN.next()] *)
Definition _next_id : M Z := fun s =>
  (Ok (ID_GEN s), set_ID_GEN (fun n => n + 1)%Z s).

(** [conn.request(request_id, request)] and [conn.push(request_id,
    request)]: the answer of the environment, recorded. *)
Definition pool_request (conn : KafkaConnectionPool) (request_id : Z)
    (request : bytes) (s : State) : (bytes + transport_exn) * State :=
  let r := conn_request (history s) conn request_id request in
  (r, log_event (EvRequest conn request_id request r) s).

Definition pool_push (conn : KafkaConnectionPool) (request_id : Z)
    (request : bytes) (s : State) : (unit + transport_exn) * State :=
  let r := conn_push (history s) conn request_id request in
  (r, log_event (EvPush conn request_id request r) s).

(** [time.sleep(1)] *)
Definition sleep (seconds : Z) : M unit :=
  modify (log_event (EvSleep seconds)).

(** Get or create a connection to a broker.  The new pool is stored
    under [(broker.host, broker.port)] and is the one returned. *)
Definition _get_conn_for_broker (broker : BrokerMetadata)
    : M KafkaConnectionPool := fun s =>
  match assoc_lookup (host broker, port broker) (conns s) with
  | Some conn => (Ok conn, s)
  | None =>
      let conn := mkKafkaConnectionPool (pool_size s) (host broker)
                                        (port broker) (buffer_size s) in
      (Ok conn, set_conns (assoc_add (host broker, port broker) conn) s)
  end.

(** The loop of [_send_broker_unaware_request]: [except BaseException]
    catches whatever the pool raises. *)
Fixpoint unaware_loop (cs : list KafkaConnectionPool) (request_id : Z)
    (request : bytes) (s : State) : option bytes * State :=
  match cs with
  | [] => (None, s)
  | conn :: cs' =>
      match pool_request conn request_id request s with
      | (inl response, s') => (Some response, s')
      | (inr _, s') => unaware_loop cs' request_id request s'
      end
  end.

Definition _send_broker_unaware_request (request_id : Z) (request : bytes)
    : M (option bytes) := fun s =>
  let '(r, s') :=
    unaware_loop (snd <$> dict_items (conns s)) request_id request s in
  (Ok r, s').

(** [for partition, meta in partitions.items()] *)
Fixpoint load_partitions (retry : M unit)
    (brokers : gmap Z BrokerMetadata) (topic : string)
    (partitions : list (Z * PartitionMetadata)) : M unit :=
  match partitions with
  | [] => mret tt
  | (partition, meta) :: rest =>
      (if decide (leader meta = (-1)%Z) then
         sleep 1 ≫= fun _ => retry
       else
         match brokers !! leader meta with
         | None => raise (KeyError_brokers (leader meta))
         | Some b =>
             let topic_part := TopicAndPartition topic partition in
             modify (set_topics_to_brokers <[topic_part := b]>) ≫= fun _ =>
             modify (set_topic_partitions (fun tp =>
               <[topic := default [] (tp !! topic) ++ [partition]]> tp))
         end) ≫= fun _ =>
      load_partitions retry brokers topic rest
  end.

(** [for topic, partitions in topics.items()]; the [break] leaves the
    loop after the retry for a topic without partitions. *)
Fixpoint load_topics (retry : string -> M unit)
    (brokers : gmap Z BrokerMetadata)
    (topics : list (string * list (Z * PartitionMetadata))) : M unit :=
  match topics with
  | [] => mret tt
  | (topic, partitions) :: rest =>
      modify (set_topic_partitions (delete topic)) ≫= fun _ =>
      match partitions with
      | [] => sleep 1 ≫= fun _ => retry topic
      | _ :: _ =>
          load_partitions (retry topic) brokers topic partitions ≫= fun _ =>
          load_topics retry brokers rest
      end
  end.

(** Discover brokers and metadata for a set of topics.  The recursion
    of the source is not bounded; [fuel] bounds its depth here. *)
Fixpoint _load_metadata_for_topics (fuel : nat) (topics : list string)
    : M unit :=
  match fuel with
  | O => out_of_fuel
  | S fuel' =>
      request_id ← _next_id;
      cid ← gets client_id;
      let request := encode_metadata_request cid request_id topics in
      response ← _send_broker_unaware_request request_id request;
      match response with
      | None => raise AllServersFailed
      | Some response =>
          let '(brokers, topics) := decode_metadata_response response in
          modify (set_brokers brokers) ≫= fun _ =>
          modify (set_topics_to_brokers (fun _ => ∅)) ≫= fun _ =>
          load_topics (fun topic => _load_metadata_for_topics fuel' [topic])
                      brokers topics
      end
  end.

Definition _get_leader_for_partition (fuel : nat) (topic : string)
    (partition : Z) : M BrokerMetadata := fun s =>
  let k := TopicAndPartition topic partition in
  let '(r, s1) :=
    if decide (is_Some (topics_to_brokers s !! k)) then (Ok tt, s)
    else _load_metadata_for_topics fuel [topic] s in
  match r with
  | Ok _ =>
      match topics_to_brokers s1 !! k with
      | None => (Raise (PartitionDoesNotExist k), s1)
      | Some b => (Ok b, s1)
      end
  | Raise e => (Raise e, s1)
  | OutOfFuel => (OutOfFuel, s1)
  end.

(** The constructor: one pool for the bootstrap address, empty caches,
    then a refresh for all topics.  It starts from the process-wide
    counter and the history so far. *)
Definition new_client (host : string) (port : Z) (buffer_size : Z)
    (client_id : string) (pool_size : Z) (id_gen : Z) (h : list event)
    : State :=
  mkState buffer_size client_id pool_size
          [((host, port),
            mkKafkaConnectionPool pool_size host port buffer_size)]
          ∅ ∅ ∅ id_gen h.

Definition __init__ (fuel : nat) (host : string) (port : Z)
    (buffer_size : Z) (client_id : string) (pool_size : Z)
    (id_gen : Z) (h : list event) : Res unit * State :=
  _load_metadata_for_topics fuel []
    (new_client host port buffer_size client_id pool_size id_gen h).

(** [_group_request]: the loop over the payloads. *)
Fixpoint group_loop (fuel : nat) (payloads : list Payload)
    (original_keys : list (string * Z))
    (payloads_by_broker : list (BrokerMetadata * list Payload))
    : M (list (string * Z) * list (BrokerMetadata * list Payload)) :=
  match payloads with
  | [] => mret (original_keys, payloads_by_broker)
  | payload :: rest =>
      leader ← _get_leader_for_partition fuel (payload_topic payload)
                                         (payload_partition payload);
      group_loop fuel rest
        (original_keys ++ [(payload_topic payload, payload_partition payload)])
        (defaultdict_append leader payload payloads_by_broker)
  end.

Definition _group_request (fuel : nat) (payloads : list Payload)
    : M (list (string * Z) * list (BrokerMetadata * list Payload)) :=
  group_loop fuel payloads [] [].

(** The [try] block of [_send_broker_aware_request]: push or request. *)
Definition push_or_request (decoder_fn : option (bytes -> list Response))
    (conn : KafkaConnectionPool) (request_id : Z) (request : bytes)
    (s : State) : (option bytes + transport_exn) * State :=
  match decoder_fn with
  | None =>
      match pool_push conn request_id request s with
      | (inl _, s') => (inl None, s')
      | (inr e, s') => (inr e, s')
      end
  | Some _ =>
      match pool_request conn request_id request s with
      | (inl response, s') => (inl (Some response), s')
      | (inr e, s') => (inr e, s')
      end
  end.

(** [for response in decoder_fn(response): acc[...] = response] *)
Definition accumulate (acc : gmap (string * Z) Response)
    (responses : list Response) : gmap (string * Z) Response :=
  foldl (fun acc response =>
           <[(resp_topic response, resp_partition response) := response]> acc)
        acc responses.

(** [for broker, payloads in payloads_by_broker.items()] *)
Fixpoint dispatch (encoder_fn : string -> Z -> list Payload -> bytes)
    (decoder_fn : option (bytes -> list Response))
    (groups : list (BrokerMetadata * list Payload))
    (acc : gmap (string * Z) Response) (failed_payloads : list Payload)
    : M (gmap (string * Z) Response * list Payload) :=
  match groups with
  | [] => mret (acc, failed_payloads)
  | (broker, payloads) :: rest =>
      conn ← _get_conn_for_broker broker;
      request_id ← _next_id;
      cid ← gets client_id;
      let request := encoder_fn cid request_id payloads in
      (fun s =>
        match push_or_request decoder_fn conn request_id request s with
        | (inr ConnectionError, s') =>
            dispatch encoder_fn decoder_fn rest acc
                     (failed_payloads ++ payloads)
                     (set_topics_to_brokers (fun _ => ∅) s')
        | (inr e, s') => (Raise (Propagated e), s')
        | (inl response, s') =>
            let acc' :=
              match decoder_fn, response with
              | Some decode, Some response =>
                  accumulate acc (decode response)
              | _, _ => acc
              end in
            dispatch encoder_fn decoder_fn rest acc' failed_payloads s'
        end) : M (gmap (string * Z) Response * list Payload)
  end.

Definition _send_broker_aware_request (fuel : nat)
    (payloads : list Payload)
    (encoder_fn : string -> Z -> list Payload -> bytes)
    (decoder_fn : option (bytes -> list Response)) : M Responses :=
  '(original_keys, payloads_by_broker) ← _group_request fuel payloads;
  '(acc, failed_payloads) ←
    dispatch encoder_fn decoder_fn (dict_items payloads_by_broker) ∅ [];
  match failed_payloads with
  | _ :: _ => raise (FailedPayloadsException failed_payloads)
  | [] =>
      mret (if decide (acc = ∅) then EmptyTuple
            else GenExpr acc original_keys)
  end.

(** The loop of every facade function over the generator:
    [for resp in resps: if fail_on_error is True and resp.error != 0:
    raise ...; out.append(resp)].  The next item of the generator is
    [acc[k]], which raises for a missing key. *)
Fixpoint check_loop (mk_exn : exception_cls -> Response -> exn)
    (fail_on_error : bool) (acc : gmap (string * Z) Response)
    (ks : list (string * Z)) (out : list Response) : Res (list Response) :=
  match ks with
  | [] => Ok out
  | k :: ks' =>
      match acc !! k with
      | None => Raise (KeyError_acc k)
      | Some resp =>
          if fail_on_error && bool_decide (error resp ≠ 0%Z) then
            Raise (mk_exn (default UnknownException
                                   (ERROR_CODE_MAPPING !! error resp)) resp)
          else check_loop mk_exn fail_on_error acc ks' (out ++ [resp])
      end
  end.

Definition check_responses (mk_exn : exception_cls -> Response -> exn)
    (fail_on_error : bool) (resps : Responses) : M (list Response) :=
  fun s =>
    (match resps with
     | GenExpr acc original_keys =>
         check_loop mk_exn fail_on_error acc original_keys []
     | EmptyTuple => Ok []
     end, s).

Definition send_produce_request (fuel : nat) (payloads : list Payload)
    (acks timeout : Z) (fail_on_error : bool) : M (list Response) :=
  let encoder := fun cid correlation_id payloads =>
    encode_produce_request cid correlation_id payloads acks timeout in
  let decoder :=
    if decide (acks = 0%Z) then None else Some decode_produce_response in
  resps ← _send_broker_aware_request fuel payloads encoder decoder;
  check_responses
    (fun exception_cls resp =>
       RequestFailed exception_cls
         "ProduceRequest for %s failed with errorcode=%d"
         (Some (TopicAndPartition (resp_topic resp) (resp_partition resp)))
         (error resp))
    fail_on_error resps.

Definition send_fetch_request (fuel : nat) (payloads : list Payload)
    (fail_on_error : bool) (max_wait_time min_bytes : Z)
    : M (list Response) :=
  let encoder := fun cid correlation_id payloads =>
    encode_fetch_request cid correlation_id payloads
                         max_wait_time min_bytes in
  resps ← _send_broker_aware_request fuel payloads encoder
                                     (Some decode_fetch_response);
  check_responses
    (fun exception_cls resp =>
       RequestFailed exception_cls
         "FetchRequest for %s failed with errorcode=%d"
         (Some (TopicAndPartition (resp_topic resp) (resp_partition resp)))
         (error resp))
    fail_on_error resps.

Definition send_offset_request (fuel : nat) (payloads : list Payload)
    (fail_on_error : bool) : M (list Response) :=
  resps ← _send_broker_aware_request fuel payloads encode_offset_request
                                     (Some decode_offset_response);
  check_responses
    (fun exception_cls resp =>
       RequestFailed exception_cls
         "OffsetRequest failed with errorcode=%s" None (error resp))
    fail_on_error resps.

Definition send_offset_commit_request (fuel : nat) (group : string)
    (payloads : list Payload) (fail_on_error : bool)
    : M (list Response) :=
  let encoder := fun cid correlation_id payloads =>
    encode_offset_commit_request cid correlation_id payloads group in
  let decoder := decode_offset_commit_response in
  resps ← _send_broker_aware_request fuel payloads encoder (Some decoder);
  check_responses
    (fun exception_cls resp =>
       RequestFailed exception_cls
         "OffsetCommitRequest failed with errorcode=%s" None (error resp))
    fail_on_error resps.

Definition send_offset_fetch_request (fuel : nat) (group : string)
    (payloads : list Payload) (fail_on_error : bool)
    : M (list Response) :=
  let encoder := fun cid correlation_id payloads =>
    encode_offset_fetch_request cid correlation_id payloads group in
  let decoder := decode_offset_fetch_response in
  resps ← _send_broker_aware_request fuel payloads encoder (Some decoder);
  check_responses
    (fun exception_cls resp =>
       RequestFailed exception_cls
         "OffsetCommitRequest failed with errorcode=%s" None (error resp))
    fail_on_error resps.
End client.

(** ** The cluster-view invariant *)

(** Every key of the leader map has its partition in the partition list
    of its topic, the broker it maps to is known to the broker map under
    its id, and that id is not the leader-absent sentinel. *)
Definition cluster_view_invariant (s : State) : Prop :=
  forall (topic : string) (partition : Z) (b : BrokerMetadata),
    topics_to_brokers s !! (topic, partition) = Some b ->
    partition ∈ default [] (topic_partitions s !! topic) /\
    brokers s !! nodeId b = Some b /\
    nodeId b ≠ (-1)%Z.

(** ** What the history says about a call *)

(** A call on a pool, as opposed to a sleep. *)
Definition is_call (ev : event) : bool :=
  match ev with
  | EvRequest _ _ _ _ | EvPush _ _ _ _ => true
  | EvSleep _ => false
  end.

(** The call raised [ConnectionError]. *)
Definition event_result_failed (ev : event) : bool :=
  match ev with
  | EvRequest _ _ _ (inr ConnectionError)
  | EvPush _ _ _ (inr ConnectionError) => true
  | _ => false
  end.

(** The call raised something else, which the router does not catch. *)
Definition event_propagated (ev : event) : bool :=
  match ev with
  | EvRequest _ _ _ (inr OtherTransportError)
  | EvPush _ _ _ (inr OtherTransportError) => true
  | _ => false
  end.

(** The raw responses received, in order. *)
Definition replies (evs : list event) : list bytes :=
  omap (fun ev => match ev with
                  | EvRequest _ _ _ (inl r) => Some r
                  | _ => None
                  end) evs.

(** What the client did between two states. *)
Definition events_since (s s' : State) : list event :=
  drop (length (history s)) (history s').

(** The attempts of a broker-unaware request on the pools [cs], each of
    which raised. *)
Definition failed_attempts (cs : list KafkaConnectionPool)
    (es : list transport_exn) (request_id : Z) (request : bytes)
    : list event :=
  zip_with (fun c e => EvRequest c request_id request (inr e)) cs es.

(** Every pool of [cs], asked in this order after the history [h], raises. *)
Fixpoint every_pool_fails `{Transport} (h : list event)
    (cs : list KafkaConnectionPool) (request_id : Z) (request : bytes)
    : Prop :=
  match cs with
  | [] => True
  | c :: cs' =>
      exists e, conn_request h c request_id request = inr e /\
        every_pool_fails (h ++ [EvRequest c request_id request (inr e)])
                         cs' request_id request
  end.

(** The cached cluster view is the same in two states. *)
Definition same_cache (s s' : State) : Prop :=
  brokers s' = brokers s /\
  topics_to_brokers s' = topics_to_brokers s /\
  topic_partitions s' = topic_partitions s.

(** The pool that [_get_conn_for_broker] hands out for a broker. *)
Definition conn_for (s : State) (broker : BrokerMetadata)
    : KafkaConnectionPool :=
  default (mkKafkaConnectionPool (pool_size s) (host broker) (port broker)
                                 (buffer_size s))
          (assoc_lookup (host broker, port broker) (conns s)).

(** [ev] is the call by which the group [g] is sent: the encoding of the
    payloads of the group, under the correlation id of the call, pushed or
    requested on the pool of the broker of the group. *)
Definition sent_to (encoder_fn : string -> Z -> list Payload -> bytes)
    (decoder_fn : option (bytes -> list Response)) (s : State)
    (g : BrokerMetadata * list Payload) (ev : event) : Prop :=
  match ev with
  | EvRequest conn request_id request _ =>
      is_Some decoder_fn /\ conn = conn_for s g.1 /\
      request = encoder_fn (client_id s) request_id g.2
  | EvPush conn request_id request _ =>
      decoder_fn = None /\ conn = conn_for s g.1 /\
      request = encoder_fn (client_id s) request_id g.2
  | EvSleep _ => False
  end.

(** The groups whose call raised [ConnectionError]. *)
Definition failed_groups (groups : list (BrokerMetadata * list Payload))
    (evs : list event) : list (BrokerMetadata * list Payload) :=
  fst <$> filter (fun x => event_result_failed x.2) (zip groups evs).

(** The responses decoded from the calls. *)
Definition decoded (decoder_fn : option (bytes -> list Response))
    (evs : list event) : list Response :=
  match decoder_fn with
  | Some decode => replies evs ≫= decode
  | None => []
  end.

(** ** Frame conditions of a refresh *)

(** No leader is cached for a partition of the topic [u]. *)
Definition leaders_clear (u : string) (s : State) : Prop :=
  forall partition, topics_to_brokers s !! (u, partition) = None.

(** A computation that leaves the partition list of [u] alone and caches
    no leader for [u]. *)
Definition frames (u : string) (m : M unit) : Prop :=
  forall s r s',
    m s = (r, s') ->
    topic_partitions s' !! u = topic_partitions s !! u /\
    (leaders_clear u s -> leaders_clear u s').


(** ** Metadata responses that need no retry *)

(** The broker map is keyed by the id of its entries. *)
Definition keyed_by_id (bs : gmap Z BrokerMetadata) : Prop :=
  forall i b, bs !! i = Some b -> nodeId b = i.

(** Every partition has a leader, one of the brokers of the response. *)
Definition assigned (bs : gmap Z BrokerMetadata)
    (partitions : list (Z * PartitionMetadata)) : Prop :=
  Forall (fun pm : Z * PartitionMetadata =>
            leader pm.2 ≠ (-1)%Z /\ is_Some (bs !! leader pm.2)) partitions.

(** The topics of a response in which every topic has partitions, each
    under its own number and with an assigned leader. *)
Definition all_assigned (bs : gmap Z BrokerMetadata)
    (topics : list (string * list (Z * PartitionMetadata))) : Prop :=
  Forall (fun tp : string * list (Z * PartitionMetadata) =>
            tp.2 ≠ [] /\ NoDup tp.2.*1 /\ assigned bs tp.2) topics.

(** A decoded metadata response (two dictionaries) that needs no retry. *)
Definition settled
    (metadata : gmap Z BrokerMetadata *
                list (string * list (Z * PartitionMetadata))) : Prop :=
  keyed_by_id metadata.1 /\ NoDup metadata.2.*1 /\
  all_assigned metadata.1 metadata.2.

(** What the loops of the refresh do to the cache when they do not retry:
    a partition is committed, a topic is cleared and its partitions are
    committed. *)
Definition commit_partition (bs : gmap Z BrokerMetadata) (topic : string)
    (s : State) (pm : Z * PartitionMetadata) : State :=
  match bs !! leader pm.2 with
  | Some b =>
      set_topic_partitions
        (fun tp => <[topic := default [] (tp !! topic) ++ [pm.1]]> tp)
        (set_topics_to_brokers <[(topic, pm.1) := b]> s)
  | None => s
  end.

Definition commit_topic (bs : gmap Z BrokerMetadata) (s : State)
    (tp : string * list (Z * PartitionMetadata)) : State :=
  foldl (commit_partition bs tp.1) (set_topic_partitions (delete tp.1) s) tp.2.

Definition commit_topics (bs : gmap Z BrokerMetadata)
    (topics : list (string * list (Z * PartitionMetadata))) (s : State)
    : State :=
  foldl (commit_topic bs) s topics.

(** The number of times the client has slept. *)
Definition sleeps (h : list event) : nat :=
  length (filter (fun ev => negb (is_call ev)) h).

(** Two states differ in the leader map and the partition lists only. *)
Definition same_session (s s' : State) : Prop :=
  conns s' = conns s /\ client_id s' = client_id s /\
  history s' = history s /\ brokers s' = brokers s /\ ID_GEN s' = ID_GEN s.

(** A state reached from [s] after at least one more action, with the
    same registry of pools. *)
Definition later_than (s x : State) : Prop :=
  conns x = conns s /\
  exists evs, evs ≠ [] /\ history x = history s ++ evs.

(** What one retry for the topic [t], answered by the brokers [bs2] and
    the partitions [partitions2], leaves of the state [x]. *)
Definition retried (s : State) (t : string) (bs2 : gmap Z BrokerMetadata)
    (partitions2 : list (Z * PartitionMetadata)) (x y : State) : Prop :=
  later_than s y /\
  sleeps (history y) = S (sleeps (history x)) /\
  topic_partitions y !! t = Some partitions2.*1 /\
  (forall u, u ≠ t -> topic_partitions y !! u = topic_partitions x !! u) /\
  (forall p m, (p, m) ∈ partitions2 ->
               topics_to_brokers y !! (t, p) = bs2 !! leader m).

(** ** Stub brokers *)

(** Dictionaries iterated in insertion order. *)
Definition insertion_order : DictOrder :=
  {| dict_items := fun K V d => d;
     dict_items_perm := fun K V d => reflexivity d |}.

(** The number of calls made on pools so far. *)
Definition calls (h : list event) : nat := length (filter is_call h).

(** A stub cluster: the answer to a call depends on how many calls came
    before it, on the pool and on the request. *)
Definition stub_transport
    (answer : nat -> KafkaConnectionPool -> bytes -> bytes + transport_exn)
    : Transport :=
  {| conn_request := fun h conn _ request => answer (calls h) conn request;
     conn_push := fun h conn _ request =>
       match answer (calls h) conn request with
       | inl _ => inl tt
       | inr e => inr e
       end |}.

(** A stub codec: requests are encoded by their kind, responses are
    decoded by table. *)
Definition stub_protocol
    (metadata : list (string * (gmap Z BrokerMetadata *
                                list (string * list (Z * PartitionMetadata)))))
    (responses : list (string * list Response)) : KafkaProtocol :=
  {| encode_metadata_request := fun _ _ topics => String.concat "," topics;
     decode_metadata_response := fun r =>
       default (∅, []) (assoc_lookup r metadata);
     encode_produce_request := fun _ _ _ _ _ => "produce";
     decode_produce_response := fun r => default [] (assoc_lookup r responses);
     encode_fetch_request := fun _ _ _ _ _ => "fetch";
     decode_fetch_response := fun r => default [] (assoc_lookup r responses);
     encode_offset_request := fun _ _ _ => "offset";
     decode_offset_response := fun r => default [] (assoc_lookup r responses);
     encode_offset_commit_request := fun _ _ _ _ => "offset_commit";
     decode_offset_commit_response := fun r =>
       default [] (assoc_lookup r responses);
     encode_offset_fetch_request := fun _ _ _ _ => "offset_fetch";
     decode_offset_fetch_response := fun r =>
       default [] (assoc_lookup r responses);
     ERROR_CODE_MAPPING :=
       {[ 3%Z := MappedException "UnknownTopicOrPartitionError" ]} |}.

Definition broker1 : BrokerMetadata := mkBrokerMetadata 1 "kafka1" 9092.
Definition broker2 : BrokerMetadata := mkBrokerMetadata 2 "kafka2" 9092.

Definition led_by (topic : string) (partition leader : Z)
    : Z * PartitionMetadata :=
  (partition, mkPartitionMetadata topic partition leader [] []).

(** The metadata responses of the stub cluster. *)
Definition stub_metadata
    : list (string * (gmap Z BrokerMetadata *
                      list (string * list (Z * PartitionMetadata)))) :=
  [ ("t on 1",
     ({[ 1%Z := broker1 ]}, [("t", [led_by "t" 0 1; led_by "t" 1 1])]));
    ("t and u",
     ({[ 1%Z := broker1; 2%Z := broker2 ]},
      [("t", [led_by "t" 0 1]); ("u", [led_by "u" 0 2])]));
    ("t only",
     ({[ 1%Z := broker1; 2%Z := broker2 ]}, [("t", [led_by "t" 0 1])]));
    ("t unassigned",
     ({[ 1%Z := broker1 ]}, [("t", [led_by "t" 0 (-1)])]));
    ("t empty, u on 1",
     ({[ 1%Z := broker1 ]}, [("t", []); ("u", [led_by "u" 0 1])]));
    ("t electing",
     ({[ 1%Z := broker1 ]}, [("t", [led_by "t" 0 (-1); led_by "t" 1 1])]));
    ("t on 2",
     ({[ 2%Z := broker2 ]}, [("t", [led_by "t" 0 2; led_by "t" 1 2])])) ].

(** The responses of the stub brokers to partition-addressed requests. *)
Definition stub_responses : list (string * list Response) :=
  [ ("nothing", []);
    ("t0", [mkResponse "t" 0 0 "a"]);
    ("t0 t1", [mkResponse "t" 0 0 "a"; mkResponse "t" 1 0 "b"]);
    ("u0", [mkResponse "u" 0 0 "c"]);
    ("t0 failed", [mkResponse "t" 0 3 ""]) ].

Definition stub_codec : KafkaProtocol :=
  stub_protocol stub_metadata stub_responses.

(** The n-th call is answered by the n-th entry of a script, whatever the
    pool; calls beyond the script raise [ConnectionError]. *)
Definition scripted (script : list (bytes + transport_exn)) : Transport :=
  stub_transport (fun n _ _ => nth n script (inr ConnectionError)).

(** A client constructed with the defaults of [__init__]. *)
Definition stub_client `{Transport} (fuel : nat) : Res unit * State :=
  @__init__ _ stub_codec insertion_order fuel "kafka0" 9092 4096
            "kafka-python" 50 0 [].

Definition cluster_up : Transport := scripted [inl "t on 1"; inl "t0 t1"].
Definition cluster_down : Transport := scripted [].

(** A cluster in which broker 2 is unreachable: the bootstrap broker
    reports topic t on broker 1 and topic u on broker 2. *)
Definition half_down : Transport :=
  stub_transport (fun n conn _ =>
    if decide (kcp_host conn = "kafka2") then inr ConnectionError
    else if decide (n = 0%nat) then inl "t and u" else inl "t0").

(** A cluster whose broker answers without any response. *)
Definition silent : Transport := scripted [inl "t on 1"; inl "nothing"].

(** A cluster whose broker answers for partition 0 of t only. *)
Definition partial : Transport := scripted [inl "t on 1"; inl "t0"].

Definition payload_t0 : Payload := mkPayload "t" 0 "m0".
Definition payload_t1 : Payload := mkPayload "t" 1 "m1".
Definition payload_u0 : Payload := mkPayload "u" 0 "m2".
Definition payload_t0' : Payload := mkPayload "t" 0 "m3".

Definition stub_encoder (cid : string) (correlation_id : Z)
    (payloads : list Payload) : bytes := "request".

(** A cluster that first reports t and u, then t only. *)
Definition narrowing : Transport := scripted [inl "t and u"; inl "t only"].

(** A cluster that always reports t only. *)
Definition steady : Transport := stub_transport (fun _ _ _ => inl "t only").

(** A cluster that reports t without partitions and u on broker 1, and t
    on broker 1 when asked again. *)
Definition creating : Transport :=
  scripted [inl "t empty, u on 1"; inl "t only"].

(** A cluster in which partition 0 of t has no leader at first, and
    which is led by broker 2 alone when asked again. *)
Definition electing : Transport := scripted [inl "t electing"; inl "t on 2"].

(** A cluster in which t has no leader at first and is on broker 1 when
    asked again. *)
Definition assigning : Transport :=
  scripted [inl "t unassigned"; inl "t on 1"].

(** A cluster whose broker answers an error code for partition 0 of t. *)
Definition refusing : Transport := scripted [inl "t on 1"; inl "t0 failed"].

(** The scenarios played on the stub clusters: a client constructed on a
    cluster, and a batch of payloads grouped and sent by it. *)
Definition stub_decoder : bytes -> list Response :=
  @decode_produce_response stub_codec.

Definition client_on (T : Transport) (fuel : nat) : State :=
  snd (@stub_client T fuel).

Definition grouping_on (T : Transport) (payloads : list Payload)
    : Res (list (string * Z) * list (BrokerMetadata * list Payload)) * State :=
  @_group_request T stub_codec insertion_order 1 payloads (client_on T 1).

Definition sending_on (T : Transport) (payloads : list Payload)
    : Res Responses * State :=
  @_send_broker_aware_request T stub_codec insertion_order 1 payloads
    stub_encoder (Some stub_decoder) (client_on T 1).

Definition response_a : Response := mkResponse "t" 0 0 "a".
Definition response_b : Response := mkResponse "t" 1 0 "b".

(** A cluster in which t has no leader when first asked, and is on broker
    1 whenever asked again. *)
Definition once_unassigned : Transport :=
  {| conn_request := fun h _ _ _ =>
       match h with [] => inl "t unassigned" | _ :: _ => inl "t on 1" end;
     conn_push := fun _ _ _ _ => inl tt |}.


(** ** Further observations *)

(** What a metadata refresh of the client [cid] does with the pools
    [cs]: it sends a metadata request to one of them, or it sleeps one
    second; it never pushes. *)
Definition refresh_event `{KafkaProtocol} (cid : string)
    (cs : list KafkaConnectionPool) (ev : event) : Prop :=
  match ev with
  | EvRequest conn request_id request _ =>
      conn ∈ cs /\
      exists topics, request = encode_metadata_request cid request_id topics
  | EvPush _ _ _ _ => False
  | EvSleep seconds => seconds = 1%Z
  end.

(** The correlation id of a call. *)
Definition event_id (ev : event) : option Z :=
  match ev with
  | EvRequest _ request_id _ _ | EvPush _ request_id _ _ => Some request_id
  | EvSleep _ => None
  end.

(** The correlation id of the call, if it is one, lies in [lo, hi). *)
Definition id_within (lo hi : Z) (ev : event) : Prop :=
  forall i, event_id ev = Some i -> (lo <= i < hi)%Z.

(** The correlation ids of the calls are below [hi]. *)
Definition ids_below (hi : Z) (evs : list event) : Prop :=
  Forall (fun ev => forall i, event_id ev = Some i -> (i < hi)%Z) evs.

(** The exceptions of a metadata refresh. *)
Definition refresh_exn (e : exn) : Prop :=
  e = AllServersFailed \/ exists leader_id, e = KeyError_brokers leader_id.

(** A computation that leaves the registry and the client id alone and
    acts on the cluster as a refresh does, with correlation ids taken
    from the counter, raising exceptions of the class [raises] only. *)
Definition refreshes `{KafkaProtocol} {A : Type} (raises : exn -> Prop)
    (m : M A) : Prop :=
  forall s r s',
    m s = (r, s') ->
    conns s' = conns s /\ client_id s' = client_id s /\
    (ID_GEN s <= ID_GEN s')%Z /\
    (forall e, r = Raise e -> raises e) /\
    exists evs, history s' = history s ++ evs /\
                Forall (refresh_event (client_id s) (conns s).*2) evs /\
                Forall (id_within (ID_GEN s) (ID_GEN s')) evs.

(** The exceptions of the grouping of [payloads]: those of a refresh, and
    the one for a payload whose partition no refresh reports. *)
Definition grouping_exn (payloads : list Payload) (e : exn) : Prop :=
  refresh_exn e \/
  exists p, p ∈ payloads /\ e = PartitionDoesNotExist (payload_key p).

(** No metadata response among the replies of [evs] reports the topic
    [u]. *)
Definition unreported `{KafkaProtocol} (u : string) (evs : list event)
    : Prop :=
  Forall (fun response => u ∉ (decode_metadata_response response).2.*1)
         (replies evs).

(** A computation that, when [P] holds and no response it receives
    reports [u], leaves the partition list of [u] alone and caches no
    leader for [u]. *)
Definition frames_during `{KafkaProtocol} (u : string) (P : Prop)
    (m : M unit) : Prop :=
  forall s r s',
    m s = (r, s') ->
    exists evs,
      history s' = history s ++ evs /\
      (P -> unreported u evs ->
       topic_partitions s' !! u = topic_partitions s !! u /\
       (leaders_clear u s -> leaders_clear u s')).

(** The call does not wait for a response. *)
Definition is_push (ev : event) : bool :=
  match ev with
  | EvPush _ _ _ _ => true
  | _ => false
  end.

(** The pools of the registry of [s] are those of [s'] as well. *)
Definition registry_grows (s s' : State) : Prop :=
  forall address conn,
    assoc_lookup address (conns s) = Some conn ->
    assoc_lookup address (conns s') = Some conn.

(** The first topic of a response has no partitions, or its first
    partition has no leader: the refresh retries for it at once. *)
Definition starts_unassigned
    (topics : list (string * list (Z * PartitionMetadata))) : Prop :=
  match topics with
  | [] => False
  | (_, []) :: _ => True
  | (_, (_, meta) :: _) :: _ => leader meta = (-1)%Z
  end.

(** The five functions of the public API. *)
Inductive api :=
| Produce (acks timeout : Z)
| Fetch (max_wait_time min_bytes : Z)
| Offset
| OffsetCommit (group : string)
| OffsetFetch (group : string).

Definition call `{Transport} `{KafkaProtocol} `{DictOrder} (a : api)
    (fuel : nat) (payloads : list Payload) (fail_on_error : bool)
    : M (list Response) :=
  match a with
  | Produce acks timeout =>
      send_produce_request fuel payloads acks timeout fail_on_error
  | Fetch max_wait_time min_bytes =>
      send_fetch_request fuel payloads fail_on_error max_wait_time min_bytes
  | Offset => send_offset_request fuel payloads fail_on_error
  | OffsetCommit group =>
      send_offset_commit_request fuel group payloads fail_on_error
  | OffsetFetch group =>
      send_offset_fetch_request fuel group payloads fail_on_error
  end.

(** The encoder and the decoder that a function of the API hands to
    [_send_broker_aware_request]. *)
Definition encoder_of `{KafkaProtocol} (a : api)
    : string -> Z -> list Payload -> bytes :=
  fun cid correlation_id payloads =>
    match a with
    | Produce acks timeout =>
        encode_produce_request cid correlation_id payloads acks timeout
    | Fetch max_wait_time min_bytes =>
        encode_fetch_request cid correlation_id payloads
                             max_wait_time min_bytes
    | Offset => encode_offset_request cid correlation_id payloads
    | OffsetCommit group =>
        encode_offset_commit_request cid correlation_id payloads group
    | OffsetFetch group =>
        encode_offset_fetch_request cid correlation_id payloads group
    end.

Definition decoder_of `{KafkaProtocol} (a : api)
    : option (bytes -> list Response) :=
  match a with
  | Produce acks _ =>
      if decide (acks = 0%Z) then None else Some decode_produce_response
  | Fetch _ _ => Some decode_fetch_response
  | Offset => Some decode_offset_response
  | OffsetCommit _ => Some decode_offset_commit_response
  | OffsetFetch _ => Some decode_offset_fetch_response
  end.

(** A cluster in which t never gets a leader. *)
Definition unassigned : Transport :=
  stub_transport (fun _ _ _ => inl "t unassigned").

(** A cluster whose metadata names, for partition 1 of t, a broker that
    is not in its broker map. *)
Definition lost_leader_codec : KafkaProtocol :=
  stub_protocol
    [ ("t lost",
       ({[ 1%Z := broker1 ]},
        [("u", [led_by "u" 0 1]);
         ("t", [led_by "t" 0 1; led_by "t" 1 7]);
         ("v", [led_by "v" 0 1])])) ]
    stub_responses.

Definition losing : Transport := scripted [inl "t lost"].

(** A cluster in which the pool of broker 1 raises a connection error
    and the pool of broker 2 an error of another kind; the bootstrap
    broker reports topic t on broker 1 and topic u on broker 2. *)
Definition breaking : Transport :=
  stub_transport (fun _ conn _ =>
    if decide (kcp_host conn = "kafka1") then inr ConnectionError
    else if decide (kcp_host conn = "kafka2") then inr OtherTransportError
    else inl "t and u").

(** A cluster in which the pool of broker 1 raises an error that is not
    a connection error, and broker 2 answers. *)
Definition aborting : Transport :=
  stub_transport (fun n conn _ =>
    if decide (kcp_host conn = "kafka1") then inr OtherTransportError
    else if decide (n = 0%nat) then inl "t and u" else inl "u0").

(** A cluster that reports partition 0 of t on broker 1, and both
    partitions of t on broker 2 when asked again. *)
Definition moving : Transport := scripted [inl "t only"; inl "t on 2"].

(** The host of the pool of a call. *)
Definition event_host (ev : event) : string :=
  match ev with
  | EvRequest conn _ _ _ | EvPush conn _ _ _ => kcp_host conn
  | EvSleep _ => ""
  end.
(** ** Properties *)

Ltac unfold_M :=
  unfold mbind, M_bind, mret, M_ret, raise, out_of_fuel, gets, modify, sleep
    in *.

Section properties.
Context `{Transport} `{KafkaProtocol} `{DictOrder}.

Lemma unaware_loop_some cs request_id request s response s' :
  unaware_loop cs request_id request s = (Some response, s') ->
  exists failed es c rest,
    cs = failed ++ c :: rest /\ length es = length failed /\
    history s' =
      history s ++ failed_attempts failed es request_id request
                ++ [EvRequest c request_id request (inl response)] /\
    same_cache s s' /\ conns s' = conns s /\ ID_GEN s' = ID_GEN s /\
    client_id s' = client_id s /\
    exists h, conn_request h c request_id request = inl response.
Proof.
  revert s. induction cs as [|c cs IH]; intros s Hrun; simpl in Hrun.
  - discriminate.
  - unfold pool_request in Hrun.
    destruct (conn_request (history s) c request_id request) as [r|e] eqn:E.
    + inversion Hrun; subst. exists [], [], c, cs. simpl.
      repeat split; try reflexivity. eauto.
    + apply IH in Hrun
        as (failed & es & c' & rest & -> & Hlen & Hh & Hc & Hcs & Hid
            & Hcl & Hanswer).
      exists (c :: failed), (e :: es), c', rest.
      unfold same_cache in *. simpl in *.
      destruct Hc as (? & ? & ?).
      repeat split; try congruence.
      rewrite Hh, <- !app_assoc. reflexivity.
Qed.

Lemma unaware_loop_none cs request_id request s s' :
  unaware_loop cs request_id request s = (None, s') ->
  exists es,
    length es = length cs /\
    history s' = history s ++ failed_attempts cs es request_id request /\
    same_cache s s' /\ conns s' = conns s /\ ID_GEN s' = ID_GEN s /\
    client_id s' = client_id s.
Proof.
  revert s. induction cs as [|c cs IH]; intros s Hrun; simpl in Hrun.
  - inversion Hrun; subst. exists []. simpl. rewrite app_nil_r.
    repeat split; reflexivity.
  - unfold pool_request in Hrun.
    destruct (conn_request (history s) c request_id request) as [r|e] eqn:E.
    + discriminate.
    + apply IH in Hrun as (es & Hlen & Hh & Hc & Hcs & Hid & Hcl).
      exists (e :: es). unfold same_cache in *. simpl in *.
      destruct Hc as (? & ? & ?).
      repeat split; try congruence.
      rewrite Hh, <- app_assoc. reflexivity.
Qed.

Lemma every_pool_fails_loop cs request_id request s :
  every_pool_fails (history s) cs request_id request ->
  exists s', unaware_loop cs request_id request s = (None, s').
Proof.
  revert s. induction cs as [|c cs IH]; intros s Hf; simpl in *.
  - eauto.
  - destruct Hf as (e & He & Hf). unfold pool_request. rewrite He.
    apply (IH (log_event _ s)). exact Hf.
Qed.

Lemma events_since_app s s' evs :
  history s' = history s ++ evs -> events_since s s' = evs.
Proof.
  intros E. unfold events_since. rewrite E. apply drop_app_length.
Qed.

(** C7: the broker-unaware send asks the pools in the iteration order of
    the registry and goes on to the next one whenever a pool raises; it
    returns the first response obtained, or [None] after every pool has
    raised.  When every pool raises, the metadata refresh fails with
    "All servers failed to process request" and the broker map, the
    leader map and the partition lists are what they were before. *)
Theorem unaware_send_order_and_unreachable (s : State) :
  let pools := snd <$> dict_items (conns s) in
  (forall request_id request,
     exists r s',
       _send_broker_unaware_request request_id request s = (Ok r, s') /\
       match r with
       | Some response =>
           exists failed es c rest,
             pools = failed ++ c :: rest /\ length es = length failed /\
             events_since s s' =
               failed_attempts failed es request_id request
               ++ [EvRequest c request_id request (inl response)]
       | None =>
           exists es,
             length es = length pools /\
             events_since s s' =
               failed_attempts pools es request_id request
       end) /\
  (forall fuel topics,
     every_pool_fails (history s) pools (ID_GEN s)
       (encode_metadata_request (client_id s) (ID_GEN s) topics) ->
     exists s',
       _load_metadata_for_topics (S fuel) topics s
         = (Raise AllServersFailed, s') /\
       same_cache s s').
Proof.
  intros pools. split.
  - intros request_id request. unfold _send_broker_unaware_request.
    fold pools.
    destruct (unaware_loop pools request_id request s) as [[response|] s']
      eqn:Hrun; eexists _, s'; (split; [reflexivity|]).
    + apply unaware_loop_some in Hrun
        as (failed & es & c & rest & Hp & Hlen & Hh & _).
      exists failed, es, c, rest. repeat split; try assumption.
      apply events_since_app. rewrite Hh, app_assoc. reflexivity.
    + apply unaware_loop_none in Hrun as (es & Hlen & Hh & _).
      exists es. split; [assumption|]. apply events_since_app, Hh.
  - intros fuel topics Hfail.
    pose (s0 := set_ID_GEN (fun n => n + 1)%Z s).
    destruct (every_pool_fails_loop pools (ID_GEN s)
                (encode_metadata_request (client_id s) (ID_GEN s) topics)
                s0 Hfail) as (s' & Hrun).
    exists s'. split.
    + simpl. unfold_M. unfold _next_id, _send_broker_unaware_request.
      simpl. fold s0. change (conns s0) with (conns s). fold pools.
      rewrite Hrun. reflexivity.
    + apply unaware_loop_none in Hrun as (_ & _ & _ & Hc & _). exact Hc.
Qed.

(** C3: the leader lookup returns the cached leader, without any refresh
    and without any other change of state, when the key is in the leader
    map.  When the key is missing it performs one call of the metadata
    refresh for that topic and looks the key up again in the state that
    this refresh leaves: the leader now cached is returned, a key still
    missing raises "Partition does not exist", and a failure of the
    refresh is passed on. *)
Theorem leader_lookup_hit_or_single_refresh
    (fuel : nat) (topic : string) (partition : Z) (s : State) :
  (forall b,
     topics_to_brokers s !! (topic, partition) = Some b ->
     _get_leader_for_partition fuel topic partition s = (Ok b, s)) /\
  (topics_to_brokers s !! (topic, partition) = None ->
   forall r s',
     _load_metadata_for_topics fuel [topic] s = (r, s') ->
     _get_leader_for_partition fuel topic partition s =
       (match r with
        | Ok _ =>
            match topics_to_brokers s' !! (topic, partition) with
            | Some b => Ok b
            | None => Raise (PartitionDoesNotExist (topic, partition))
            end
        | Raise e => Raise e
        | OutOfFuel => OutOfFuel
        end, s')).
Proof.
  unfold _get_leader_for_partition, TopicAndPartition. split.
  - intros b Hb. rewrite Hb. rewrite decide_True by eauto.
    rewrite Hb. reflexivity.
  - intros Hmiss r s' Hload. rewrite Hmiss.
    rewrite decide_False by (intros [? ?]; discriminate).
    rewrite Hload. destruct r; try reflexivity.
    destruct (topics_to_brokers s' !! (topic, partition)); reflexivity.
Qed.
Lemma assoc_lookup_add {K V} `{EqDecision K} (k k' : K) (v : V) d :
  assoc_lookup k' (assoc_add k v d) =
    match assoc_lookup k' d with
    | Some v' => Some v'
    | None => if decide (k' = k) then Some v else None
    end.
Proof.
  unfold assoc_add. induction d as [|[k0 v0] d IH]; simpl.
  - reflexivity.
  - destruct (decide (k' = k0)); [reflexivity | exact IH].
Qed.

Lemma get_conn_spec broker s :
  exists s1,
    _get_conn_for_broker broker s = (Ok (conn_for s broker), s1) /\
    (forall b, conn_for s1 b = conn_for s b) /\
    client_id s1 = client_id s /\ history s1 = history s /\
    ID_GEN s1 = ID_GEN s /\ same_cache s s1.
Proof.
  unfold _get_conn_for_broker, conn_for.
  destruct (assoc_lookup (host broker, port broker) (conns s)) as [c|] eqn:E.
  - exists s. simpl. repeat split; reflexivity.
  - eexists. split; [reflexivity|]. simpl.
    split; [|repeat split; reflexivity].
    intros b. rewrite assoc_lookup_add.
    destruct (assoc_lookup (host b, port b) (conns s)); [reflexivity|].
    destruct (decide _) as [Heq|]; [|reflexivity].
    simpl. inversion Heq. reflexivity.
Qed.

Lemma accumulate_app acc l1 l2 :
  accumulate acc (l1 ++ l2) = accumulate (accumulate acc l1) l2.
Proof. unfold accumulate. apply foldl_app. Qed.

(** The induction step of [dispatch_spec]: the groups that remain are
    dispatched after the event [ev] of the first group. *)
Ltac dispatch_rest IH Hrun ev :=
  let evs := fresh "evs" in
  let Hh := fresh "Hh" in
  let Hb := fresh "Hb" in
  let Hp := fresh "Hp" in
  let Hr := fresh "Hr" in
  apply IH in Hrun as (evs & Hh & Hb & Hp & Hr);
    [|intros ?; simpl; etransitivity; [|eauto]; eauto|simpl; congruence];
  exists (ev :: evs); simpl in Hh, Hb, Hp;
  split; [rewrite Hh; etransitivity;
            [apply (f_equal (fun h => (h ++ _) ++ evs)); eassumption
            |rewrite <- app_assoc; reflexivity]|];
  split; [congruence|]; split; [congruence|];
  match goal with
  | |- match ?r with _ => _ end =>
      destruct r as [[? ?]|[]|]; try exact Hr;
        [destruct Hr as (? & ? & ? & ? & Hleader);
         split; [constructor; assumption|];
         split; [constructor; [reflexivity|assumption]|];
         split; [subst; simpl; rewrite ?accumulate_app; reflexivity|];
         split; [subst; unfold failed_groups; simpl;
                 rewrite <- ?app_assoc; reflexivity|];
         rewrite Hleader; subst ev; simpl;
         destruct (forallb _ evs); simpl; congruence
        |subst ev; apply Exists_cons_tl; exact Hr]
  end.

(** The call of the first group raised something that is not caught. *)
Ltac dispatch_stops Hrun ev :=
  inversion Hrun; subst; exists [ev]; simpl;
  split; [f_equal; assumption|];
  split; [congruence|]; split; [congruence|];
  subst ev; apply Exists_cons_hd; reflexivity.

Lemma dispatch_spec encoder_fn decoder_fn s0 groups :
  forall acc failed s r s',
  (forall b, conn_for s b = conn_for s0 b) ->
  client_id s = client_id s0 ->
  dispatch encoder_fn decoder_fn groups acc failed s = (r, s') ->
  exists evs,
    history s' = history s ++ evs /\
    brokers s' = brokers s /\ topic_partitions s' = topic_partitions s /\
    match r with
    | Ok (acc', failed') =>
        Forall2 (sent_to encoder_fn decoder_fn s0) groups evs /\
        Forall (fun ev => event_propagated ev = false) evs /\
        acc' = accumulate acc (decoded decoder_fn evs) /\
        failed' = failed ++ mjoin (snd <$> failed_groups groups evs) /\
        topics_to_brokers s' =
          (if forallb (fun ev => negb (event_result_failed ev)) evs
           then topics_to_brokers s else ∅)
    | Raise (Propagated _) =>
        Exists (fun ev => event_propagated ev = true) evs
    | _ => False
    end.
Proof.
  induction groups as [|[broker payloads] groups IH];
    intros acc failed s r s' Hconn Hcid Hrun.
  - simpl in Hrun. unfold_M. inversion Hrun; subst. exists [].
    rewrite app_nil_r. repeat split; try constructor.
    + destruct decoder_fn; reflexivity.
    + simpl. rewrite app_nil_r. reflexivity.
  - simpl in Hrun. unfold_M.
    destruct (get_conn_spec broker s)
      as (s1 & Hget & Hconn1 & Hcid1 & Hh1 & Hid1 & Hb1 & Ht1 & Hp1).
    rewrite Hget in Hrun. unfold _next_id in Hrun. simpl in Hrun.
    set (request_id := ID_GEN s1) in *.
    set (request := encoder_fn (client_id s1) request_id payloads) in *.
    set (s2 := set_ID_GEN (fun n => (n + 1)%Z) s1) in *.
    assert (Hsent : forall res,
               (match decoder_fn with
                | Some _ => sent_to encoder_fn decoder_fn s0
                              (broker, payloads)
                              (EvRequest (conn_for s broker) request_id
                                         request res)
                | None => True end)).
    { intros res. destruct decoder_fn; [|exact I]. simpl.
      split; [eauto|]. split; [apply Hconn|].
      unfold request. congruence. }
    assert (Hpushed : forall res,
               decoder_fn = None ->
               sent_to encoder_fn decoder_fn s0 (broker, payloads)
                 (EvPush (conn_for s broker) request_id request res)).
    { intros res Hd. simpl. split; [exact Hd|]. split; [apply Hconn|].
      unfold request. congruence. }
    unfold push_or_request, pool_push, pool_request in Hrun.
    destruct decoder_fn as [decode|].
    + (* request *)
      set (res := conn_request (history s2) (conn_for s broker)
                               request_id request) in *.
      set (ev := EvRequest (conn_for s broker) request_id request res) in *.
      specialize (Hsent res). fold ev in Hsent.
      destruct res as [response|[|]] eqn:Eres;
        [dispatch_rest IH Hrun ev| dispatch_rest IH Hrun ev
        |dispatch_stops Hrun ev].
    + (* push *)
      set (res := conn_push (history s2) (conn_for s broker)
                            request_id request) in *.
      set (ev := EvPush (conn_for s broker) request_id request res) in *.
      specialize (Hpushed res eq_refl). fold ev in Hpushed.
      destruct res as [[]|[|]] eqn:Eres;
        [dispatch_rest IH Hrun ev| dispatch_rest IH Hrun ev
        |dispatch_stops Hrun ev].
Qed.

Lemma group_loop_spec fuel payloads :
  forall keys0 groups0 s keys groups s1,
  group_loop fuel payloads keys0 groups0 s = (Ok (keys, groups), s1) ->
  Forall (fun g : BrokerMetadata * list Payload => g.2 ≠ []) groups0 ->
  keys = keys0 ++ (payload_key <$> payloads) /\
  Forall (fun g : BrokerMetadata * list Payload => g.2 ≠ []) groups.
Proof.
  induction payloads as [|p payloads IH];
    intros keys0 groups0 s keys groups s1 Hrun Hne; simpl in Hrun.
  - unfold_M. inversion Hrun; subst. rewrite app_nil_r. auto.
  - unfold_M.
    destruct (_get_leader_for_partition fuel (payload_topic p)
                (payload_partition p) s) as [[b| |] s0]; try discriminate.
    apply IH in Hrun as [-> Hne'].
    + split; [|exact Hne']. rewrite <- app_assoc. reflexivity.
    + clear -Hne. induction groups0 as [|[b' ps] groups0 IHg]; simpl.
      * repeat constructor. discriminate.
      * inversion Hne; subst. destruct (decide (b = b')).
        -- constructor; [|assumption]. simpl. intros E.
           apply app_eq_nil in E as [_ ?]. discriminate.
        -- constructor; auto.
Qed.

Lemma send_unfold fuel payloads encoder_fn decoder_fn s :
  _send_broker_aware_request fuel payloads encoder_fn decoder_fn s =
    match _group_request fuel payloads s with
    | (Ok (original_keys, payloads_by_broker), s1) =>
        match dispatch encoder_fn decoder_fn (dict_items payloads_by_broker)
                       ∅ [] s1 with
        | (Ok (acc, []), s2) =>
            (Ok (if decide (acc = ∅) then EmptyTuple
                 else GenExpr acc original_keys), s2)
        | (Ok (acc, p :: failed), s2) =>
            (Raise (FailedPayloadsException (p :: failed)), s2)
        | (Raise e, s2) => (Raise e, s2)
        | (OutOfFuel, s2) => (OutOfFuel, s2)
        end
    | (Raise e, s1) => (Raise e, s1)
    | (OutOfFuel, s1) => (OutOfFuel, s1)
    end.
Proof.
  unfold _send_broker_aware_request. unfold_M.
  destruct (_group_request fuel payloads s) as [[[ks gs]| |] s1];
    try reflexivity.
  destruct (dispatch _ _ _ _ _ s1) as [[[acc [|p failed]]| |] s2];
    reflexivity.
Qed.

(** What a broker-aware send that got past the grouping did. *)
Lemma send_spec fuel payloads encoder_fn decoder_fn s keys groups s1 r s' :
  _group_request fuel payloads s = (Ok (keys, groups), s1) ->
  _send_broker_aware_request fuel payloads encoder_fn decoder_fn s
    = (r, s') ->
  let evs := events_since s1 s' in
  keys = payload_key <$> payloads /\
  Forall (fun g : BrokerMetadata * list Payload => g.2 ≠ [])
         (dict_items groups) /\
  brokers s' = brokers s1 /\ topic_partitions s' = topic_partitions s1 /\
  match r with
  | Ok resps =>
      Forall2 (sent_to encoder_fn decoder_fn s1) (dict_items groups) evs /\
      Forall (fun ev => event_propagated ev = false) evs /\
      Forall (fun ev => event_result_failed ev = false) evs /\
      resps = (let acc := accumulate ∅ (decoded decoder_fn evs) in
               if decide (acc = ∅) then EmptyTuple else GenExpr acc keys)
  | Raise (FailedPayloadsException fp) =>
      Forall2 (sent_to encoder_fn decoder_fn s1) (dict_items groups) evs /\
      Forall (fun ev => event_propagated ev = false) evs /\
      fp ≠ [] /\
      fp = mjoin (snd <$> failed_groups (dict_items groups) evs) /\
      topics_to_brokers s' = ∅
  | Raise (Propagated _) =>
      Exists (fun ev => event_propagated ev = true) evs
  | _ => False
  end.
Proof.
  intros Hgroup Hsend evs. rewrite send_unfold, Hgroup in Hsend.
  apply group_loop_spec in Hgroup as [Hkeys Hne]; [|constructor].
  simpl in Hkeys.
  assert (Hne' : Forall (fun g : BrokerMetadata * list Payload => g.2 ≠ [])
                        (dict_items groups)).
  { rewrite Forall_forall in *. intros g Hg. apply Hne.
    rewrite <- (dict_items_perm _ _ groups). exact Hg. }
  destruct (dispatch encoder_fn decoder_fn (dict_items groups) ∅ [] s1)
    as [r0 s2] eqn:Hd.
  apply (dispatch_spec _ _ s1) in Hd as (evs' & Hh & Hb & Hp & Hr);
    [|reflexivity|reflexivity].
  assert (Hevs : evs = evs').
  { destruct r0 as [[acc [|p failed]]| |]; inversion Hsend; subst s';
      apply events_since_app; exact Hh. }
  subst evs'.
  assert (Hs : s' = s2).
  { destruct r0 as [[acc [|p failed]]| |]; inversion Hsend; reflexivity. }
  subst s2.
  split; [exact Hkeys|]. split; [exact Hne'|].
  split; [exact Hb|]. split; [exact Hp|].
  destruct r0 as [[acc [|p failed]]|e|].
  - inversion Hsend; subst r.
    destruct Hr as (Hf2 & Hnp & Hacc & Hfailed & Hleader).
    split; [exact Hf2|]. split; [exact Hnp|].
    split; [|subst acc; reflexivity].
    (* no group failed: a failed group would have left its payloads *)
    simpl in Hfailed. clear -Hf2 Hfailed Hne'.
    revert Hfailed Hne'. unfold failed_groups.
    induction Hf2 as [|g ev gs evs0 Hsent Hf2 IH]; intros Hfailed Hne';
      [constructor|].
    inversion Hne'; subst. simpl in Hfailed.
    destruct (event_result_failed ev) eqn:Ef.
    + rewrite filter_cons_True in Hfailed by (simpl; rewrite Ef; exact I).
      simpl in Hfailed. symmetry in Hfailed.
      apply app_eq_nil in Hfailed as [? _]. contradiction.
    + rewrite filter_cons_False in Hfailed
        by (simpl; rewrite Ef; intros []).
      constructor; [exact Ef|]. apply IH; assumption.
  - inversion Hsend; subst r.
    destruct Hr as (Hf2 & Hnp & Hacc & Hfailed & Hleader).
    split; [exact Hf2|]. split; [exact Hnp|].
    split; [discriminate|]. split; [exact Hfailed|].
    rewrite Hleader.
    destruct (forallb _ evs) eqn:Eall; [|reflexivity].
    exfalso. simpl in Hfailed.
    assert (Hnone : failed_groups (dict_items groups) evs = []).
    { clear -Hf2 Eall. unfold failed_groups.
      induction Hf2 as [|g ev gs evs0 Hsent Hf2 IH]; [reflexivity|].
      simpl in Eall. apply andb_true_iff in Eall as [E1 E2].
      simpl. rewrite filter_cons_False.
      - apply IH, E2.
      - simpl. destruct (event_result_failed ev);
          [discriminate|intros []]. }
    rewrite Hnone in Hfailed. discriminate.
  - inversion Hsend; subst r. destruct e; try contradiction. exact Hr.
  - contradiction.
Qed.

(** The call by which a group is sent, whatever its outcome. *)
Lemma push_or_request_sent encoder_fn decoder_fn s0 g request_id s res s' :
  push_or_request decoder_fn (conn_for s0 g.1) request_id
    (encoder_fn (client_id s0) request_id g.2) s = (res, s') ->
  exists ev,
    s' = log_event ev s /\
    sent_to encoder_fn decoder_fn s0 g ev /\
    event_propagated ev =
      match res with inr OtherTransportError => true | _ => false end.
Proof.
  unfold push_or_request, pool_push, pool_request.
  destruct decoder_fn as [decode|].
  - destruct (conn_request _ _ _ _) as [response|[|]]; intros E;
      inversion E; subst; eexists; (split; [reflexivity|]);
      (split; [|reflexivity]); simpl; eauto.
  - destruct (conn_push _ _ _ _) as [[]|[|]]; intros E;
      inversion E; subst; eexists; (split; [reflexivity|]);
      (split; [|reflexivity]); simpl; eauto.
Qed.

(** The calls of the loop over the groups are those of the first groups,
    in their order; the loop ends before the last group only with the
    call that raises what is not caught. *)
Lemma dispatch_prefix encoder_fn decoder_fn s0 groups :
  forall acc failed s r s',
  (forall b, conn_for s b = conn_for s0 b) ->
  client_id s = client_id s0 ->
  dispatch encoder_fn decoder_fn groups acc failed s = (r, s') ->
  exists evs,
    history s' = history s ++ evs /\
    Forall2 (sent_to encoder_fn decoder_fn s0)
            (take (length evs) groups) evs /\
    match r with
    | Raise (Propagated te) =>
        te ≠ ConnectionError /\
        (length evs <= length groups)%nat /\
        exists sent ev,
          evs = sent ++ [ev] /\ event_propagated ev = true /\
          Forall (fun ev => event_propagated ev = false) sent
    | _ => length evs = length groups
    end.
Proof.
  induction groups as [|[broker payloads] groups IH];
    intros acc failed s r s' Hconn Hcid Hrun; simpl in Hrun; unfold_M.
  - inversion Hrun; subst. exists []. rewrite app_nil_r. simpl.
    repeat split; constructor.
  - destruct (get_conn_spec broker s)
      as (s1 & Hget & Hconn1 & Hcid1 & Hh1 & _).
    rewrite Hget in Hrun. unfold _next_id in Hrun. simpl in Hrun.
    rewrite (Hconn broker), Hcid1, Hcid in Hrun.
    match type of Hrun with
    | context [push_or_request ?d ?c ?i ?q ?x] =>
        destruct (push_or_request d c i q x) as [res s2] eqn:Ecall
    end.
    apply (push_or_request_sent encoder_fn decoder_fn s0 (broker, payloads))
      in Ecall as (ev & -> & Hsent & Hprop).
    assert (Hstep : forall acc1 failed1 s3,
      (forall b, conn_for s3 b = conn_for s1 b) ->
      client_id s3 = client_id s1 ->
      history s3 = history s1 ++ [ev] ->
      event_propagated ev = false ->
      dispatch encoder_fn decoder_fn groups acc1 failed1 s3 = (r, s') ->
      exists evs,
        history s' = history s ++ evs /\
        Forall2 (sent_to encoder_fn decoder_fn s0)
                (take (length evs) ((broker, payloads) :: groups)) evs /\
        match r with
        | Raise (Propagated te) =>
            te ≠ ConnectionError /\
            (length evs <= length ((broker, payloads) :: groups))%nat /\
            exists sent ev,
              evs = sent ++ [ev] /\ event_propagated ev = true /\
              Forall (fun ev => event_propagated ev = false) sent
        | _ => length evs = length ((broker, payloads) :: groups)
        end).
    { intros acc1 failed1 s3 Hconn3 Hcid3 Hh3 Hcaught Hrest.
      apply IH in Hrest as (evs & Hh & Hf2 & Hr);
        [|intros b; rewrite Hconn3, Hconn1; apply Hconn|congruence].
      exists (ev :: evs).
      split; [rewrite Hh, Hh3, Hh1, <- app_assoc; reflexivity|].
      split; [simpl; constructor; assumption|].
      destruct r as [x|e|]; [simpl; congruence| |simpl; congruence].
      destruct e; try (simpl; congruence).
      destruct Hr as (Hte & Hle & sent & ev' & -> & Hp & Hnp).
      split; [exact Hte|]. split; [simpl; lia|].
      exists (ev :: sent), ev'. split; [reflexivity|]. split; [exact Hp|].
      constructor; assumption. }
    destruct res as [response|[|]].
    + eapply Hstep in Hrun; try reflexivity; [exact Hrun|exact Hprop].
    + eapply Hstep in Hrun; try reflexivity; [exact Hrun|exact Hprop].
    + inversion Hrun; subst. exists [ev].
      split; [simpl; rewrite Hh1; reflexivity|].
      split; [simpl; repeat constructor; exact Hsent|].
      split; [discriminate|]. split; [simpl; lia|].
      exists [], ev. split; [reflexivity|]. split; [exact Hprop|].
      constructor.
Qed.

(** The calls of a send after the grouping. *)
Lemma send_prefix fuel payloads encoder_fn decoder_fn s keys groups s1 r s' :
  _group_request fuel payloads s = (Ok (keys, groups), s1) ->
  _send_broker_aware_request fuel payloads encoder_fn decoder_fn s
    = (r, s') ->
  let evs := events_since s1 s' in
  history s' = history s1 ++ evs /\
  Forall2 (sent_to encoder_fn decoder_fn s1)
          (take (length evs) (dict_items groups)) evs /\
  match r with
  | Raise (Propagated te) =>
      te ≠ ConnectionError /\
      (length evs <= length (dict_items groups))%nat /\
      exists sent ev,
        evs = sent ++ [ev] /\ event_propagated ev = true /\
        Forall (fun ev => event_propagated ev = false) sent
  | _ => length evs = length (dict_items groups)
  end.
Proof.
  intros Hgroup Hsend evs. rewrite send_unfold, Hgroup in Hsend.
  destruct (dispatch encoder_fn decoder_fn (dict_items groups) ∅ [] s1)
    as [r0 s2] eqn:Hd.
  apply (dispatch_prefix _ _ s1) in Hd as (evs' & Hh & Hf2 & Hr);
    [|reflexivity|reflexivity].
  assert (Hs : s' = s2).
  { destruct r0 as [[acc [|p failed]]| |]; inversion Hsend; reflexivity. }
  subst s2.
  assert (Hevs : evs = evs') by (apply events_since_app; exact Hh).
  subst evs'. split; [exact Hh|]. split; [exact Hf2|].
  destruct r0 as [[acc [|p failed]]|e|]; inversion Hsend; subst r;
    exact Hr.
Qed.

Lemma accumulate_lookup l : forall acc k r,
  accumulate acc l !! k = Some r ->
  (r ∈ l /\ resp_key r = k) \/ acc !! k = Some r.
Proof.
  induction l as [|x l IH]; intros acc k r Hk; simpl in Hk.
  - right. exact Hk.
  - apply IH in Hk as [[Hin Hkey]|Hk].
    + left. split; [right; exact Hin|exact Hkey].
    + destruct (decide ((resp_topic x, resp_partition x) = k)) as [<-|Hne].
      * rewrite lookup_insert_eq in Hk. inversion Hk; subst.
        left. split; [left|reflexivity].
      * rewrite lookup_insert_ne in Hk by exact Hne. right. exact Hk.
Qed.

Lemma accumulate_is_Some l : forall acc k,
  is_Some (accumulate acc l !! k) <->
  k ∈ resp_key <$> l \/ is_Some (acc !! k).
Proof.
  induction l as [|x l IH]; intros acc k; simpl.
  - split; [auto|]. intros [Hin|?]; [|assumption].
    apply elem_of_nil in Hin as [].
  - rewrite IH. rewrite elem_of_cons. unfold resp_key at 2.
    destruct (decide ((resp_topic x, resp_partition x) = k)) as [<-|Hne].
    + rewrite lookup_insert_eq. split; [|eauto]. intros _. left. left.
      reflexivity.
    + rewrite lookup_insert_ne by exact Hne. split.
      * intros [?|?]; auto.
      * intros [[?|?]|?]; auto. congruence.
Qed.

Lemma accumulate_empty l : accumulate ∅ l = ∅ <-> l = [].
Proof.
  split; [|intros ->; reflexivity].
  destruct l as [|x l]; [reflexivity|]. intros E. exfalso.
  assert (Hs : is_Some (accumulate ∅ (x :: l) !! resp_key x)).
  { apply accumulate_is_Some. left. rewrite fmap_cons. left. }
  rewrite E, lookup_empty in Hs. destruct Hs; discriminate.
Qed.

Lemma gen_list_ok acc ks : forall rs,
  gen_list acc ks = Ok rs ->
  Forall2 (fun k r => acc !! k = Some r) ks rs.
Proof.
  induction ks as [|k ks IH]; intros rs Hrs; simpl in Hrs.
  - inversion Hrs. constructor.
  - destruct (acc !! k) as [r|] eqn:Ek; [|discriminate].
    destruct (gen_list acc ks) as [rs'| |]; inversion Hrs; subst.
    constructor; auto.
Qed.

Lemma gen_list_missing acc ks k :
  k ∈ ks -> acc !! k = None ->
  exists k', gen_list acc ks = Raise (KeyError_acc k') /\
             k' ∈ ks /\ acc !! k' = None.
Proof.
  induction ks as [|k0 ks IH]; intros Hin Hk.
  - apply elem_of_nil in Hin as [].
  - simpl. destruct (acc !! k0) as [r|] eqn:Ek0.
    + apply elem_of_cons in Hin as [->|Hin]; [congruence|].
      destruct (IH Hin Hk) as (k' & -> & Hin' & Hk').
      exists k'. split; [reflexivity|]. split; [right; exact Hin'|exact Hk'].
    + exists k0. split; [reflexivity|]. split; [left|exact Ek0].
Qed.

Lemma send_ok_grouped fuel payloads encoder_fn decoder_fn s resps s' :
  _send_broker_aware_request fuel payloads encoder_fn decoder_fn s
    = (Ok resps, s') ->
  exists keys groups s1,
    _group_request fuel payloads s = (Ok (keys, groups), s1).
Proof.
  rewrite send_unfold.
  destruct (_group_request fuel payloads s) as [[[ks gs]| |] s1];
    [eauto|discriminate|discriminate].
Qed.

(** C1 (amended): when a broker-aware send with a decoder completes
    without a transport failure and returns the generator, that is, when
    at least one response was decoded, and the generator can be consumed
    to its end, the list obtained is as long as the input list, and its
    i-th element is the accumulated response for the (topic, partition)
    key of the i-th payload, a response that itself carries this key: a
    key that occurs twice is answered at both positions.  The
    accumulator holds the responses decoded from all the leaders
    contacted. *)
Theorem aware_send_in_input_order
    (fuel : nat) (payloads : list Payload)
    (encoder_fn : string -> Z -> list Payload -> bytes)
    (decode : bytes -> list Response)
    (s s' : State) (resps : Responses) (rs : list Response) :
  _send_broker_aware_request fuel payloads encoder_fn (Some decode) s
    = (Ok resps, s') ->
  list_of resps = Ok rs ->
  resps ≠ EmptyTuple ->
  length rs = length payloads /\
  exists acc keys groups s1,
    _group_request fuel payloads s = (Ok (keys, groups), s1) /\
    acc = accumulate ∅ (decoded (Some decode) (events_since s1 s')) /\
    resps = GenExpr acc (payload_key <$> payloads) /\
    forall i p,
      payloads !! i = Some p ->
      exists r, rs !! i = Some r /\ acc !! payload_key p = Some r /\
                resp_key r = payload_key p.
Proof.
  intros Hsend Hlist Hgen.
  destruct (send_ok_grouped _ _ _ _ _ _ _ Hsend)
    as (keys & groups & s1 & Hgroup).
  destruct (send_spec _ _ _ _ _ _ _ _ _ _ Hgroup Hsend)
    as (Hkeys & _ & _ & _ & _ & _ & _ & Hresps).
  simpl in Hresps.
  set (acc := accumulate ∅ (replies (events_since s1 s') ≫= decode)) in *.
  destruct (decide (acc = ∅)); [congruence|]. subst resps keys.
  simpl in Hlist. apply gen_list_ok in Hlist.
  split.
  - apply Forall2_length in Hlist. rewrite length_fmap in Hlist.
    symmetry. exact Hlist.
  - exists acc, (payload_key <$> payloads), groups, s1.
    repeat split; try reflexivity; try assumption.
    intros i p Hp.
    assert (Hk : (payload_key <$> payloads) !! i = Some (payload_key p))
      by (rewrite list_lookup_fmap, Hp; reflexivity).
    destruct (Forall2_lookup_l _ _ _ _ _ Hlist Hk) as (r & Hr & Hacc).
    exists r. repeat split; try assumption.
    apply accumulate_lookup in Hacc as [[_ ?]|Hacc]; [assumption|].
    rewrite lookup_empty in Hacc. discriminate.
Qed.

(** C10: in a broker-aware send with a decoder and without transport
    failure, when the responses decoded from all the leader groups are
    not empty but none of them is for some key of the input, consuming
    the returned generator raises [KeyError] for such a key; when
    nothing was decoded at all the call returns the empty tuple, which
    is consumed without error. *)
Theorem aware_send_missing_or_empty
    (fuel : nat) (payloads : list Payload)
    (encoder_fn : string -> Z -> list Payload -> bytes)
    (decode : bytes -> list Response)
    (s s1 s' : State) (keys : list (string * Z))
    (groups : list (BrokerMetadata * list Payload)) (resps : Responses) :
  _group_request fuel payloads s = (Ok (keys, groups), s1) ->
  _send_broker_aware_request fuel payloads encoder_fn (Some decode) s
    = (Ok resps, s') ->
  let responses := decoded (Some decode) (events_since s1 s') in
  Forall (fun ev => event_result_failed ev = false) (events_since s1 s') /\
  (responses = [] -> resps = EmptyTuple /\ list_of resps = Ok []) /\
  (responses ≠ [] ->
   (exists p, p ∈ payloads /\ payload_key p ∉ resp_key <$> responses) ->
   exists k, list_of resps = Raise (KeyError_acc k) /\
             k ∈ payload_key <$> payloads /\
             k ∉ resp_key <$> responses).
Proof.
  intros Hgroup Hsend responses.
  destruct (send_spec _ _ _ _ _ _ _ _ _ _ Hgroup Hsend)
    as (Hkeys & _ & _ & _ & _ & _ & Hnf & Hresps).
  fold responses in Hresps. simpl in Hresps.
  split; [exact Hnf|]. split.
  - intros E. rewrite E in Hresps. simpl in Hresps. subst resps.
    split; reflexivity.
  - intros Hne (p & Hp & Hmiss).
    destruct (decide (accumulate ∅ responses = ∅)) as [E|_].
    { apply accumulate_empty in E. contradiction. }
    subst resps keys. simpl.
    assert (Hnone : forall k, k ∉ resp_key <$> responses ->
                              accumulate ∅ responses !! k = None).
    { intros k Hk. apply eq_None_not_Some. rewrite accumulate_is_Some.
      intros [?|[? Hs]]; [contradiction|].
      rewrite lookup_empty in Hs. discriminate. }
    destruct (gen_list_missing (accumulate ∅ responses)
                (payload_key <$> payloads) (payload_key p))
      as (k & Hraise & Hin & Hk).
    + apply list_elem_of_fmap. eauto.
    + apply Hnone, Hmiss.
    + exists k. repeat split; try assumption.
      intros Hin'.
      assert (Hs : is_Some (accumulate ∅ responses !! k))
        by (apply accumulate_is_Some; left; exact Hin').
      rewrite Hk in Hs. destruct Hs; discriminate.
Qed.

Lemma failed_groups_elem (gs : list (BrokerMetadata * list Payload)) :
  forall (evs : list event) (p : Payload),
  p ∈ mjoin (snd <$> failed_groups gs evs) <->
  exists i g ev, gs !! i = Some g /\ evs !! i = Some ev /\
                 event_result_failed ev = true /\ p ∈ g.2.
Proof.
  unfold failed_groups.
  induction gs as [|g gs IH]; intros [|ev evs] p; simpl.
  - split; [intros Hin; apply elem_of_nil in Hin as []|].
    intros (i & g & ev & Hg & _). rewrite lookup_nil in Hg. discriminate.
  - split; [intros Hin; apply elem_of_nil in Hin as []|].
    intros (i & g & ev' & Hg & _). rewrite lookup_nil in Hg. discriminate.
  - split; [intros Hin; apply elem_of_nil in Hin as []|].
    intros (i & g' & ev & _ & Hev & _). rewrite lookup_nil in Hev.
    discriminate.
  - destruct (event_result_failed ev) eqn:Ef.
    + rewrite filter_cons_True by (simpl; rewrite Ef; exact I). simpl.
      rewrite elem_of_app, IH. split.
      * intros [Hp|(i & g' & ev' & Hg & Hev & Hf & Hp)].
        -- exists 0%nat, g, ev. repeat split; assumption.
        -- exists (S i), g', ev'. repeat split; assumption.
      * intros ([|i] & g' & ev' & Hg & Hev & Hf & Hp); simpl in *.
        -- inversion Hg; subst. left. exact Hp.
        -- right. exists i, g', ev'. repeat split; assumption.
    + rewrite filter_cons_False by (simpl; rewrite Ef; intros []).
      rewrite IH. split.
      * intros (i & g' & ev' & Hg & Hev & Hf & Hp).
        exists (S i), g', ev'. repeat split; assumption.
      * intros ([|i] & g' & ev' & Hg & Hev & Hf & Hp); simpl in *.
        -- inversion Hev; subst. congruence.
        -- exists i, g', ev'. repeat split; assumption.
Qed.

(** C2 (amended): in a broker-aware send in which the call of at least
    one leader group raises [ConnectionError], when no call raises
    anything else, every group has been sent, and the send raises
    [FailedPayloadsException] with the payloads of the groups whose call
    raised: a payload is among them exactly when it belongs to such a
    group; no response is returned.  When a call raises something else,
    which the send does not catch, the send raises that, and no
    [FailedPayloadsException]. *)
Theorem partial_failure_is_exact
    (fuel : nat) (payloads : list Payload)
    (encoder_fn : string -> Z -> list Payload -> bytes)
    (decoder_fn : option (bytes -> list Response))
    (s s1 s' : State) (keys : list (string * Z))
    (groups : list (BrokerMetadata * list Payload)) (r : Res Responses) :
  _group_request fuel payloads s = (Ok (keys, groups), s1) ->
  _send_broker_aware_request fuel payloads encoder_fn decoder_fn s
    = (r, s') ->
  let evs := events_since s1 s' in
  Exists (fun ev => event_result_failed ev = true) evs ->
  (Forall (fun ev => event_propagated ev = false) evs ->
   Forall2 (sent_to encoder_fn decoder_fn s1) (dict_items groups) evs /\
   exists fp,
     r = Raise (FailedPayloadsException fp) /\
     fp = mjoin (snd <$> failed_groups (dict_items groups) evs) /\
     forall p,
       p ∈ fp <->
       exists i g ev,
         dict_items groups !! i = Some g /\ evs !! i = Some ev /\
         event_result_failed ev = true /\ p ∈ g.2) /\
  (Exists (fun ev => event_propagated ev = true) evs ->
   exists te, r = Raise (Propagated te) /\ te ≠ ConnectionError).
Proof.
  intros Hgroup Hsend evs Hfailed.
  pose proof (send_spec _ _ _ _ _ _ _ _ _ _ Hgroup Hsend) as Hspec.
  pose proof (send_prefix _ _ _ _ _ _ _ _ _ _ Hgroup Hsend) as Hprefix.
  fold evs in Hspec, Hprefix. destruct Hspec as (_ & _ & _ & _ & Hr).
  destruct Hprefix as (_ & _ & Hstop).
  split.
  - intros Hnp. destruct r as [resps|e|]; [| |contradiction].
    + exfalso. destruct Hr as (_ & _ & Hnf & _).
      apply Exists_exists in Hfailed as (ev & Hin & Hf).
      rewrite Forall_forall in Hnf. rewrite (Hnf ev Hin) in Hf.
      discriminate.
    + destruct e; try contradiction.
      * destruct Hr as (Hsent & _ & _ & Hfp & _).
        split; [exact Hsent|]. exists failed_payloads.
        split; [reflexivity|]. split; [exact Hfp|].
        intros p. rewrite Hfp. apply failed_groups_elem.
      * exfalso. apply Exists_exists in Hr as (ev & Hin & Hp).
        rewrite Forall_forall in Hnp. rewrite (Hnp ev Hin) in Hp.
        discriminate.
  - intros Hraised. apply Exists_exists in Hraised as (ev & Hin & Hp).
    destruct r as [resps|e|]; [| |contradiction].
    + exfalso. destruct Hr as (_ & Hnp & _).
      rewrite Forall_forall in Hnp. rewrite (Hnp ev Hin) in Hp.
      discriminate.
    + destruct e; try contradiction.
      * exfalso. destruct Hr as (_ & Hnp & _).
        rewrite Forall_forall in Hnp. rewrite (Hnp ev Hin) in Hp.
        discriminate.
      * exists e. split; [reflexivity|]. apply Hstop.
Qed.

(** C4 (amended): in a broker-aware send in which no call raises anything
    but [ConnectionError], every leader group is sent, one call for each
    group in the order of the groups, also the groups that come after
    one whose call raised; and when the call of a group raised, the
    leader map is empty afterwards, whatever the topics it held, and all
    the payloads of that group are among the failed payloads that the
    send raises.  A call that raises something else ends the loop: it is
    the last call, the calls made are those of the first groups, the
    groups after them are not sent, and the send raises what the call
    raised. *)
Theorem transport_failure_does_not_abort
    (fuel : nat) (payloads : list Payload)
    (encoder_fn : string -> Z -> list Payload -> bytes)
    (decoder_fn : option (bytes -> list Response))
    (s s1 s' : State) (keys : list (string * Z))
    (groups : list (BrokerMetadata * list Payload)) (r : Res Responses) :
  _group_request fuel payloads s = (Ok (keys, groups), s1) ->
  _send_broker_aware_request fuel payloads encoder_fn decoder_fn s
    = (r, s') ->
  let evs := events_since s1 s' in
  (Forall (fun ev => event_propagated ev = false) evs ->
   Forall2 (sent_to encoder_fn decoder_fn s1) (dict_items groups) evs /\
   forall i g ev,
     dict_items groups !! i = Some g -> evs !! i = Some ev ->
     event_result_failed ev = true ->
     topics_to_brokers s' = ∅ /\
     exists fp,
       r = Raise (FailedPayloadsException fp) /\
       forall p, p ∈ g.2 -> p ∈ fp) /\
  (Exists (fun ev => event_propagated ev = true) evs ->
   exists te sent ev,
     r = Raise (Propagated te) /\ te ≠ ConnectionError /\
     evs = sent ++ [ev] /\ event_propagated ev = true /\
     Forall (fun ev => event_propagated ev = false) sent /\
     Forall2 (sent_to encoder_fn decoder_fn s1)
             (take (length evs) (dict_items groups)) evs /\
     (length evs <= length (dict_items groups))%nat).
Proof.
  intros Hgroup Hsend evs.
  pose proof (send_spec _ _ _ _ _ _ _ _ _ _ Hgroup Hsend) as Hspec.
  pose proof (send_prefix _ _ _ _ _ _ _ _ _ _ Hgroup Hsend) as Hprefix.
  fold evs in Hspec, Hprefix. destruct Hspec as (_ & _ & _ & _ & Hr).
  destruct Hprefix as (_ & Hcalls & Hstop).
  split.
  - intros Hnp. destruct r as [resps|e|]; [| |contradiction].
    + destruct Hr as (Hsent & _ & Hnf & _). split; [exact Hsent|].
      intros i g ev _ Hev Hf. exfalso.
      rewrite Forall_forall in Hnf.
      rewrite (Hnf ev) in Hf by (eapply list_elem_of_lookup_2; exact Hev).
      discriminate.
    + destruct e; try contradiction.
      * destruct Hr as (Hsent & _ & _ & Hfp & Hleader).
        split; [exact Hsent|]. intros i g ev Hg Hev Hf.
        split; [exact Hleader|]. exists failed_payloads.
        split; [reflexivity|]. intros p Hp. rewrite Hfp.
        apply failed_groups_elem. exists i, g, ev. auto.
      * exfalso. apply Exists_exists in Hr as (ev & Hin & Hp).
        rewrite Forall_forall in Hnp. rewrite (Hnp ev Hin) in Hp.
        discriminate.
  - intros Hraised. apply Exists_exists in Hraised as (ev & Hin & Hp).
    destruct r as [resps|e|]; [| |contradiction].
    + exfalso. destruct Hr as (_ & Hnp & _).
      rewrite Forall_forall in Hnp. rewrite (Hnp ev Hin) in Hp.
      discriminate.
    + destruct e; try contradiction.
      * exfalso. destruct Hr as (_ & Hnp & _).
        rewrite Forall_forall in Hnp. rewrite (Hnp ev Hin) in Hp.
        discriminate.
      * destruct Hstop as (Hte & Hle & sent & ev' & Hevs & Hp' & Hnp).
        exists e, sent, ev'. split; [reflexivity|].
        split; [exact Hte|]. split; [exact Hevs|]. split; [exact Hp'|].
        split; [exact Hnp|]. split; [exact Hcalls|exact Hle].
Qed.

(** The cache after the first steps of a refresh that got a response. *)
Lemma load_unfold fuel topics s :
  _load_metadata_for_topics (S fuel) topics s =
    let request_id := ID_GEN s in
    let request :=
      encode_metadata_request (client_id s) request_id topics in
    match unaware_loop (snd <$> dict_items (conns s)) request_id request
                       (set_ID_GEN (fun n => (n + 1)%Z) s) with
    | (None, s0) => (Raise AllServersFailed, s0)
    | (Some response, s0) =>
        load_topics (fun topic => _load_metadata_for_topics fuel [topic])
          (decode_metadata_response response).1
          (decode_metadata_response response).2
          (set_topics_to_brokers (fun _ => ∅)
             (set_brokers (decode_metadata_response response).1 s0))
    end.
Proof.
  simpl. unfold_M. unfold _next_id, _send_broker_unaware_request. simpl.
  destruct (unaware_loop _ _ _ _) as [[response|] s0]; [|reflexivity].
  destruct (decode_metadata_response response) as [bs ts]. reflexivity.
Qed.

Section frame.
Variable u : string.

Lemma load_partitions_frames retry bs topic partitions :
  topic ≠ u -> frames u retry ->
  frames u (load_partitions retry bs topic partitions).
Proof.
  intros Hne Hretry.
  induction partitions as [|[partition meta] partitions IH];
    intros s r s' Hrun; simpl in Hrun; unfold_M; simpl in Hrun.
  - inversion Hrun; subst. auto.
  - destruct (decide (leader meta = (-1)%Z)); simpl in Hrun.
    + destruct (retry (log_event (EvSleep 1) s)) as [[[]| |] s0] eqn:Er;
        apply Hretry in Er as [Hp Hl]; simpl in Hp.
      * apply IH in Hrun as [Hp' Hl']. split; [congruence|].
        intros Hc. apply Hl', Hl. exact Hc.
      * inversion Hrun; subst. auto.
      * inversion Hrun; subst. auto.
    + destruct (bs !! leader meta) as [b|]; simpl in Hrun.
      * apply IH in Hrun as [Hp' Hl']. simpl in Hp'.
        rewrite lookup_insert_ne in Hp' by exact Hne.
        split; [exact Hp'|]. intros Hc. apply Hl'.
        intros p. simpl. unfold TopicAndPartition.
        rewrite lookup_insert_ne by congruence. apply Hc.
      * inversion Hrun; subst. auto.
Qed.

Lemma load_topics_frames retry bs topics :
  u ∉ topics.*1 -> (forall topic, frames u (retry topic)) ->
  frames u (load_topics retry bs topics).
Proof.
  intros Hnot Hretry.
  induction topics as [|[topic partitions] topics IH];
    intros s r s' Hrun; simpl in Hrun; unfold_M; simpl in Hrun.
  - inversion Hrun; subst. auto.
  - rewrite fmap_cons, not_elem_of_cons in Hnot. simpl in Hnot.
    destruct Hnot as [Hne Hnot].
    destruct partitions as [|pm partitions].
    + apply Hretry in Hrun as [Hp Hl]. simpl in Hp.
      rewrite lookup_delete_ne in Hp by congruence. auto.
    + destruct (load_partitions (retry topic) bs topic (pm :: partitions)
                  (set_topic_partitions (delete topic) s))
        as [[[]| |] s0] eqn:Ep;
        apply load_partitions_frames in Ep as [Hp Hl];
        try (congruence || apply Hretry); simpl in Hp;
        rewrite lookup_delete_ne in Hp by congruence.
      * apply IH in Hrun as [Hp' Hl']; [|exact Hnot].
        split; [congruence|]. intros Hc. apply Hl', Hl. exact Hc.
      * inversion Hrun; subst. auto.
      * inversion Hrun; subst. auto.
Qed.

Hypothesis never_reported :
  forall h conn request_id request response,
    conn_request h conn request_id request = inl response ->
    u ∉ (decode_metadata_response response).2.*1.

Lemma load_frames fuel : forall topics s r s',
  _load_metadata_for_topics fuel topics s = (r, s') ->
  topic_partitions s' !! u = topic_partitions s !! u /\
  (leaders_clear u s -> leaders_clear u s') /\
  (r = Ok tt -> leaders_clear u s').
Proof.
  induction fuel as [|fuel IH]; intros topics s r s' Hrun.
  - simpl in Hrun. inversion Hrun; subst. repeat split; auto.
    discriminate.
  - rewrite load_unfold in Hrun. cbv zeta in Hrun.
    destruct (unaware_loop _ _ _ _) as [[response|] s0] eqn:Eu.
    + apply unaware_loop_some in Eu
        as (_ & _ & c & _ & _ & _ & _ & (Hb & Hl & Hp) & _ & _ & _
            & h & Hanswer).
      apply never_reported in Hanswer.
      apply load_topics_frames in Hrun as [Hp' Hl']; [|exact Hanswer|].
      * simpl in Hp', Hp. split; [congruence|].
        assert (Hc : leaders_clear u s').
        { apply Hl'. intros p. simpl. apply lookup_empty. }
        auto.
      * intros topic s1 r1 s1' Hr1.
        apply IH in Hr1 as (? & ? & _). auto.
    + inversion Hrun; subst.
      apply unaware_loop_none in Eu as (_ & _ & _ & (Hb & Hl & Hp) & _).
      simpl in *. split; [congruence|]. split; [|discriminate].
      intros Hc p. rewrite Hl. apply Hc.
Qed.
End frame.

Section frame_during.
Variable u : string.

Lemma unreported_app evs1 evs2 :
  unreported u (evs1 ++ evs2) <-> unreported u evs1 /\ unreported u evs2.
Proof.
  unfold unreported, replies. rewrite omap_app. apply Forall_app.
Qed.

Lemma unreported_failed_attempts cs es request_id request :
  unreported u (failed_attempts cs es request_id request).
Proof.
  unfold unreported, replies, failed_attempts. revert es.
  induction cs as [|c cs IH]; intros [|e0 es]; simpl; try constructor.
  apply IH.
Qed.

Lemma frames_during_weaken (P Q : Prop) m :
  (Q -> P) -> frames_during u P m -> frames_during u Q m.
Proof.
  intros HQP Hm s r s' Hrun. destruct (Hm s r s' Hrun) as (evs & Hh & H').
  exists evs. split; [exact Hh|]. intros HQ. apply H', HQP, HQ.
Qed.

Lemma frames_during_nothing (P : Prop) (m : M unit) :
  (forall s, exists r, m s = (r, s)) -> frames_during u P m.
Proof.
  intros Hm s r s' Hrun. destruct (Hm s) as [r0 E]. rewrite E in Hrun.
  inversion Hrun; subst. exists []. rewrite app_nil_r. auto.
Qed.

Lemma frames_during_bind (P : Prop) (m k : M unit) :
  frames_during u P m -> frames_during u P k ->
  frames_during u P (m ≫= fun _ => k).
Proof.
  intros Hm Hk s r s' Hrun. unfold_M.
  destruct (m s) as [r1 s1] eqn:E1.
  destruct (Hm _ _ _ E1) as (evs1 & Hh1 & H1').
  destruct r1 as [[]| |].
  - destruct (Hk _ _ _ Hrun) as (evs2 & Hh2 & H2').
    exists (evs1 ++ evs2).
    split; [rewrite Hh2, Hh1, app_assoc; reflexivity|].
    intros HP Hun. apply unreported_app in Hun as [Hun1 Hun2].
    destruct (H1' HP Hun1) as [Hp1 Hl1].
    destruct (H2' HP Hun2) as [Hp2 Hl2].
    split; [congruence|]. intros Hc. apply Hl2, Hl1, Hc.
  - inversion Hrun; subst. eauto.
  - inversion Hrun; subst. eauto.
Qed.

Lemma frames_during_silent (P : Prop) (f : State -> State) :
  (forall s, history (f s) = history s) ->
  (P -> forall s,
     topic_partitions (f s) !! u = topic_partitions s !! u /\
     (leaders_clear u s -> leaders_clear u (f s))) ->
  frames_during u P (modify f).
Proof.
  intros Hh Hf s r s' Hrun. unfold modify in Hrun. inversion Hrun; subst.
  exists []. rewrite app_nil_r. split; [apply Hh|].
  intros HP _. apply Hf, HP.
Qed.

Lemma frames_during_sleep (P : Prop) : frames_during u P (sleep 1).
Proof.
  intros s r s' Hrun. unfold sleep, modify in Hrun. inversion Hrun; subst.
  exists [EvSleep 1]. split; [reflexivity|]. auto.
Qed.

Lemma load_partitions_frames_during retry bs topic partitions :
  frames_during u True retry ->
  frames_during u (topic ≠ u) (load_partitions retry bs topic partitions).
Proof.
  intros Hretry.
  induction partitions as [|[partition meta] partitions IH]; simpl.
  - apply frames_during_nothing. intros s. eexists. reflexivity.
  - apply frames_during_bind; [|exact IH].
    destruct (decide (leader meta = (-1)%Z)).
    + apply frames_during_bind; [apply frames_during_sleep|].
      eapply frames_during_weaken; [|exact Hretry]. auto.
    + destruct (bs !! leader meta) as [b|].
      * apply frames_during_bind; apply frames_during_silent;
          try (intros s; reflexivity); intros Hne s; simpl.
        -- split; [reflexivity|]. intros Hc p. simpl.
           unfold TopicAndPartition.
           rewrite lookup_insert_ne by congruence. apply Hc.
        -- split; [|auto]. rewrite lookup_insert_ne by exact Hne.
           reflexivity.
      * apply frames_during_nothing. intros s. eexists. reflexivity.
Qed.

Lemma load_topics_frames_during retry bs topics :
  (forall topic, frames_during u True (retry topic)) ->
  frames_during u (u ∉ topics.*1) (load_topics retry bs topics).
Proof.
  intros Hretry. induction topics as [|[topic partitions] topics IH]; simpl.
  - apply frames_during_nothing. intros s. eexists. reflexivity.
  - apply frames_during_bind.
    + apply frames_during_silent; [intros s; reflexivity|].
      intros Hnot s. apply not_elem_of_cons in Hnot as [Hne _]. simpl.
      split; [|auto]. rewrite lookup_delete_ne by congruence. reflexivity.
    + destruct partitions as [|pm partitions].
      * apply frames_during_bind; [apply frames_during_sleep|].
        eapply frames_during_weaken; [|apply Hretry]. auto.
      * apply frames_during_bind.
        -- eapply frames_during_weaken;
             [|apply load_partitions_frames_during, Hretry].
           intros Hnot. apply not_elem_of_cons in Hnot as [Hne _].
           congruence.
        -- eapply frames_during_weaken; [|exact IH].
           intros Hnot. apply not_elem_of_cons in Hnot as [_ Hnot].
           exact Hnot.
Qed.

Lemma load_frames_during fuel : forall topics s r s',
  _load_metadata_for_topics fuel topics s = (r, s') ->
  exists evs,
    history s' = history s ++ evs /\
    (unreported u evs ->
     topic_partitions s' !! u = topic_partitions s !! u /\
     (leaders_clear u s -> leaders_clear u s') /\
     (r = Ok tt -> leaders_clear u s')).
Proof.
  induction fuel as [|fuel IH]; intros topics s r s' Hrun.
  - simpl in Hrun. inversion Hrun; subst. exists [].
    rewrite app_nil_r. split; [reflexivity|]. intros _.
    repeat split; auto. discriminate.
  - rewrite load_unfold in Hrun. cbv zeta in Hrun.
    destruct (unaware_loop _ _ _ _) as [[response|] s0] eqn:Eu.
    + apply unaware_loop_some in Eu
        as (failed & es & c & rest & _ & _ & Hh & (Hb & Hl & Hp) & _).
      apply load_topics_frames_during in Hrun as (evs & Hh' & Hframe).
      * simpl in Hh', Hh, Hp.
        eexists. split; [rewrite Hh', Hh, <- !app_assoc; reflexivity|].
        intros Hun. apply unreported_app in Hun as [_ Hun].
        apply (unreported_app [_]) in Hun as [Hfirst Hun].
        unfold unreported in Hfirst. simpl in Hfirst.
        apply Forall_cons in Hfirst as [Hfirst _].
        destruct (Hframe Hfirst Hun) as [Hp' Hl']. simpl in Hp'.
        assert (Hc : leaders_clear u s').
        { apply Hl'. intros p. simpl. apply lookup_empty. }
        split; [congruence|]. auto.
      * intros topic s1 r1 s1' Hr1.
        apply IH in Hr1 as (evs1 & Hh1 & Hframe1).
        exists evs1. split; [exact Hh1|]. intros _ Hun.
        destruct (Hframe1 Hun) as (? & ? & _). auto.
    + inversion Hrun; subst.
      apply unaware_loop_none in Eu as (es & _ & Hh & (Hb & Hl & Hp) & _).
      simpl in Hh, Hl, Hp. eexists. split; [exact Hh|]. intros _.
      split; [congruence|]. split; [|discriminate].
      intros Hc p. rewrite Hl. apply Hc.
Qed.
End frame_during.

(** C5 (amended): a metadata refresh leaves the partition list of every
    topic that no metadata response of the refresh reports as it was.
    The leader map is not kept per topic: it is emptied as a whole and
    filled from the responses, so after a refresh that succeeds it has
    no entry for such a topic, whether or not the topic was named in the
    request. *)
Theorem refresh_frame
    (fuel : nat) (topics : list string) (s s' : State) (r : Res unit)
    (u : string) :
  _load_metadata_for_topics fuel topics s = (r, s') ->
  Forall (fun response => u ∉ (decode_metadata_response response).2.*1)
         (replies (events_since s s')) ->
  topic_partitions s' !! u = topic_partitions s !! u /\
  (r = Ok tt ->
   forall partition, topics_to_brokers s' !! (u, partition) = None).
Proof.
  intros Hrun Hunreported.
  destruct (load_frames_during u fuel topics s r s' Hrun)
    as (evs & Hh & Hframe).
  rewrite (events_since_app s s' evs Hh) in Hunreported.
  destruct (Hframe Hunreported) as (Hp & _ & Hl).
  split; [exact Hp|exact Hl].
Qed.

(** *** The invariant on a cluster whose metadata is settled *)

Lemma dispatch_keeps_cache encoder_fn decoder_fn groups :
  forall acc failed s r s',
    dispatch encoder_fn decoder_fn groups acc failed s = (r, s') ->
    brokers s' = brokers s /\ topic_partitions s' = topic_partitions s /\
    (topics_to_brokers s' = topics_to_brokers s \/ topics_to_brokers s' = ∅).
Proof.
  induction groups as [|[broker payloads] groups IH];
    intros acc failed s r s' Hrun; simpl in Hrun; unfold_M.
  - inversion Hrun; subst. auto.
  - destruct (get_conn_spec broker s)
      as (s1 & Hget & _ & _ & _ & _ & Hb1 & Hl1 & Hp1).
    rewrite Hget in Hrun. unfold _next_id in Hrun. simpl in Hrun.
    unfold push_or_request, pool_push, pool_request in Hrun.
    destruct decoder_fn as [decode|].
    + destruct (conn_request _ _ _ _) as [response|[|]].
      * apply IH in Hrun as (Hb & Hp & Hl). simpl in *.
        rewrite Hb, Hp. repeat split; try assumption.
        destruct Hl as [-> | ->]; auto.
      * apply IH in Hrun as (Hb & Hp & Hl). simpl in *.
        rewrite Hb, Hp. repeat split; try assumption.
        destruct Hl as [-> | ->]; auto.
      * inversion Hrun; subst. simpl. auto.
    + destruct (conn_push _ _ _ _) as [[]|[|]].
      * apply IH in Hrun as (Hb & Hp & Hl). simpl in *.
        rewrite Hb, Hp. repeat split; try assumption.
        destruct Hl as [-> | ->]; auto.
      * apply IH in Hrun as (Hb & Hp & Hl). simpl in *.
        rewrite Hb, Hp. repeat split; try assumption.
        destruct Hl as [-> | ->]; auto.
      * inversion Hrun; subst. simpl. auto.
Qed.

Lemma invariant_same_cache s s' :
  same_cache s s' -> cluster_view_invariant s -> cluster_view_invariant s'.
Proof.
  intros (Hb & Hl & Hp) Hinv topic partition b.
  rewrite Hb, Hl, Hp. apply Hinv.
Qed.

Lemma invariant_no_leaders s :
  topics_to_brokers s = ∅ -> cluster_view_invariant s.
Proof.
  intros E topic partition b. rewrite E, lookup_empty. discriminate.
Qed.

Lemma load_partitions_assigned retry bs topic partitions :
  keyed_by_id bs -> assigned bs partitions ->
  forall s,
    brokers s = bs -> cluster_view_invariant s ->
    exists s',
      load_partitions retry bs topic partitions s = (Ok tt, s') /\
      brokers s' = bs /\ history s' = history s /\
      cluster_view_invariant s' /\
      forall t p, is_Some (topics_to_brokers s' !! (t, p)) ->
                  t = topic \/ is_Some (topics_to_brokers s !! (t, p)).
Proof.
  intros Hkeyed Hassigned.
  induction Hassigned as [|[partition meta] partitions [Hl [b Hb]] _ IH];
    intros s Hbs Hinv; simpl.
  - exists s. unfold_M. split; [reflexivity|]. split; [exact Hbs|].
    split; [reflexivity|]. split; [exact Hinv|]. auto.
  - simpl in Hl, Hb. unfold_M. rewrite decide_False by exact Hl.
    rewrite Hb. simpl.
    set (s1 := set_topic_partitions _ (set_topics_to_brokers _ s)).
    destruct (IH s1) as (s' & Hrun & Hbs' & Hh & Hinv' & Hkeys).
    + exact Hbs.
    + intros t p b'. unfold s1, TopicAndPartition. simpl.
      destruct (decide ((topic, partition) = (t, p))) as [E|Hne].
      * inversion E; subst t p. rewrite !lookup_insert_eq.
        intros Eb; inversion Eb; subst b'. simpl.
        split; [apply elem_of_app; right; left|].
        rewrite Hbs. rewrite (Hkeyed _ _ Hb). auto.
      * rewrite lookup_insert_ne by exact Hne. intros Hb'.
        destruct (Hinv t p b' Hb') as (Hin & Hknown & Hid).
        split; [|auto].
        destruct (decide (topic = t)) as [->|Hnt].
        -- rewrite lookup_insert_eq. simpl. apply elem_of_app. left.
           exact Hin.
        -- rewrite lookup_insert_ne by exact Hnt. exact Hin.
    + exists s'. split; [exact Hrun|]. split; [exact Hbs'|].
      split; [rewrite Hh; reflexivity|]. split; [exact Hinv'|].
      intros t p Hs. destruct (Hkeys t p Hs) as [?|Hs1]; [auto|].
      unfold s1, TopicAndPartition in Hs1. simpl in Hs1.
      destruct (decide ((topic, partition) = (t, p))) as [E|Hne].
      * inversion E. auto.
      * rewrite lookup_insert_ne in Hs1 by exact Hne. auto.
Qed.

Lemma load_topics_settled retry bs topics :
  keyed_by_id bs -> NoDup topics.*1 -> all_assigned bs topics ->
  forall s,
    brokers s = bs -> cluster_view_invariant s ->
    (forall t p, is_Some (topics_to_brokers s !! (t, p)) -> t ∉ topics.*1) ->
    exists s',
      load_topics retry bs topics s = (Ok tt, s') /\
      history s' = history s /\ cluster_view_invariant s'.
Proof.
  intros Hkeyed Hnodup Hsettled. revert Hnodup.
  induction Hsettled as [|[topic partitions] topics (Hne & _ & Hassigned) _ IH];
    intros Hnodup s Hbs Hinv Hfresh; simpl.
  - exists s. unfold_M. auto.
  - simpl in Hne, Hassigned. rewrite fmap_cons in Hnodup.
    apply NoDup_cons in Hnodup as [Hnotin Hnodup]. simpl in Hnotin.
    unfold_M. simpl.
    set (s1 := set_topic_partitions (delete topic) s).
    assert (Hinv1 : cluster_view_invariant s1).
    { intros t p b Hb. unfold s1 in *. simpl in *.
      destruct (Hinv t p b Hb) as (Hin & Hrest). split; [|exact Hrest].
      rewrite lookup_delete_ne; [exact Hin|].
      intros ->. apply (Hfresh t p); [eauto|]. left. }
    destruct (load_partitions_assigned (retry topic) bs topic partitions
                Hkeyed Hassigned s1 Hbs Hinv1)
      as (s2 & Hrun & Hbs2 & Hh2 & Hinv2 & Hkeys).
    destruct partitions as [|pm partitions]; [congruence|].
    rewrite Hrun.
    destruct (IH Hnodup s2 Hbs2 Hinv2) as (s' & Hrun' & Hh & Hinv').
    + intros t p Hs. destruct (Hkeys t p Hs) as [->|Hs1]; [exact Hnotin|].
      specialize (Hfresh t p Hs1).
      apply not_elem_of_cons in Hfresh as [_ ?]. assumption.
    + exists s'. split; [exact Hrun'|]. split; [|exact Hinv'].
      rewrite Hh, Hh2. reflexivity.
Qed.

Section settled_cluster.
Hypothesis always_settled :
  forall h conn request_id request response,
    conn_request h conn request_id request = inl response ->
    settled (decode_metadata_response response).

(** On such a cluster a refresh never retries: one unit of fuel is
    enough for it to return, and it keeps the invariant. *)
Lemma load_settled fuel topics s :
  exists r s',
    _load_metadata_for_topics (S fuel) topics s = (r, s') /\
    (r = Ok tt \/ r = Raise AllServersFailed) /\
    (cluster_view_invariant s -> cluster_view_invariant s').
Proof.
  rewrite load_unfold. cbv zeta.
  destruct (unaware_loop _ _ _ _) as [[response|] s0] eqn:Eu.
  - apply unaware_loop_some in Eu
      as (_ & _ & c & _ & _ & _ & _ & _ & _ & _ & _ & h & Hanswer).
    apply always_settled in Hanswer as (Hkeyed & Hnodup & Hsettled).
    destruct (load_topics_settled
                (fun topic => _load_metadata_for_topics fuel [topic])
                _ _ Hkeyed Hnodup Hsettled
                (set_topics_to_brokers (fun _ => ∅)
                   (set_brokers (decode_metadata_response response).1 s0)))
      as (s' & Hrun & _ & Hinv).
    + reflexivity.
    + apply invariant_no_leaders. reflexivity.
    + intros t p [b Hb]. simpl in Hb. rewrite lookup_empty in Hb.
      discriminate.
    + exists (Ok tt), s'. auto.
  - exists (Raise AllServersFailed), s0. split; [reflexivity|].
    split; [auto|].
    apply unaware_loop_none in Eu as (_ & _ & _ & Hc & _).
    apply invariant_same_cache. exact Hc.
Qed.

Lemma load_keeps_invariant fuel topics s r s' :
  _load_metadata_for_topics fuel topics s = (r, s') ->
  cluster_view_invariant s -> cluster_view_invariant s'.
Proof.
  destruct fuel as [|fuel].
  - simpl. intros E; inversion E; subst. auto.
  - destruct (load_settled fuel topics s) as (r0 & s0 & Hrun & _ & Hinv).
    rewrite Hrun. intros E; inversion E; subst. exact Hinv.
Qed.

Lemma get_leader_keeps_invariant fuel topic partition s r s' :
  _get_leader_for_partition fuel topic partition s = (r, s') ->
  cluster_view_invariant s -> cluster_view_invariant s'.
Proof.
  unfold _get_leader_for_partition.
  destruct (decide (is_Some _)).
  - destruct (topics_to_brokers s !! _); intros E; inversion E; subst; auto.
  - destruct (_load_metadata_for_topics fuel [topic] s) as [r0 s0] eqn:Hrun.
    intros E Hinv.
    assert (Hs : s' = s0).
    { destruct r0; [destruct (topics_to_brokers s0 !! _)| |];
        inversion E; reflexivity. }
    subst s0. eapply load_keeps_invariant; eauto.
Qed.

Lemma group_loop_keeps_invariant fuel payloads :
  forall keys0 groups0 s r s',
    group_loop fuel payloads keys0 groups0 s = (r, s') ->
    cluster_view_invariant s -> cluster_view_invariant s'.
Proof.
  induction payloads as [|p payloads IH]; intros keys0 groups0 s r s' Hrun;
    simpl in Hrun; unfold_M.
  - inversion Hrun; subst. auto.
  - destruct (_get_leader_for_partition fuel (payload_topic p)
                (payload_partition p) s) as [r0 s0] eqn:Hget.
    intros Hinv.
    apply get_leader_keeps_invariant in Hget; [|exact Hinv].
    destruct r0; [eapply IH; eauto| |]; inversion Hrun; subst; exact Hget.
Qed.

(** X15: a client constructed on a cluster whose metadata is always settled
    satisfies the cluster-view invariant, and a broker-aware send keeps
    it, with or without transport failures. *)
Theorem settled_cluster_keeps_invariant :
  (forall fuel host port buffer_size client_id pool_size id_gen h r s,
     __init__ fuel host port buffer_size client_id pool_size id_gen h
       = (r, s) ->
     cluster_view_invariant s) /\
  (forall fuel payloads encoder_fn decoder_fn s r s',
     _send_broker_aware_request fuel payloads encoder_fn decoder_fn s
       = (r, s') ->
     cluster_view_invariant s -> cluster_view_invariant s').
Proof.
  split.
  - intros fuel host port buffer_size client_id pool_size id_gen h r s Hrun.
    unfold __init__ in Hrun.
    eapply load_keeps_invariant; [exact Hrun|].
    apply invariant_no_leaders. reflexivity.
  - intros fuel payloads encoder_fn decoder_fn s r s' Hsend Hinv.
    rewrite send_unfold in Hsend.
    destruct (_group_request fuel payloads s) as [r1 s1] eqn:Hgroup.
    apply group_loop_keeps_invariant in Hgroup; [|exact Hinv].
    destruct r1 as [[keys groups]| |];
      [|inversion Hsend; subst; exact Hgroup
       |inversion Hsend; subst; exact Hgroup].
    destruct (dispatch encoder_fn decoder_fn (dict_items groups) ∅ [] s1)
      as [r2 s2] eqn:Hd.
    apply dispatch_keeps_cache in Hd as (Hb & Hp & Hl).
    assert (Hs : s' = s2).
    { destruct r2 as [[acc [|p failed]]| |]; inversion Hsend; reflexivity. }
    subst s2. intros topic partition b Hlookup.
    destruct Hl as [Hl|Hl]; rewrite Hl in Hlookup.
    + rewrite Hb, Hp. apply Hgroup. exact Hlookup.
    + rewrite lookup_empty in Hlookup. discriminate.
Qed.
End settled_cluster.

(** *** A refresh that does not retry commits the response *)

Lemma load_partitions_commits retry bs topic partitions :
  assigned bs partitions ->
  forall s,
    load_partitions retry bs topic partitions s
    = (Ok tt, foldl (commit_partition bs topic) s partitions).
Proof.
  intros Hassigned.
  induction Hassigned as [|[partition meta] partitions [Hl [b Hb]] _ IH];
    intros s; simpl.
  - reflexivity.
  - simpl in Hl, Hb. unfold_M. rewrite decide_False by exact Hl.
    rewrite Hb. simpl. rewrite IH. unfold commit_partition. simpl.
    rewrite Hb. reflexivity.
Qed.

Lemma load_topics_commits retry bs before rest :
  all_assigned bs before ->
  forall s,
    load_topics retry bs (before ++ rest) s
    = load_topics retry bs rest (commit_topics bs before s).
Proof.
  intros Hall.
  induction Hall as [|[topic partitions] before (Hne & _ & Hassigned) _ IH];
    intros s; simpl.
  - reflexivity.
  - simpl in Hne, Hassigned. unfold_M. simpl.
    destruct partitions as [|pm partitions]; [congruence|].
    rewrite (load_partitions_commits _ _ _ _ Hassigned). rewrite IH.
    reflexivity.
Qed.

Lemma load_topics_commits_all retry bs topics :
  all_assigned bs topics ->
  forall s,
    load_topics retry bs topics s = (Ok tt, commit_topics bs topics s).
Proof.
  intros Hall s. rewrite <- (app_nil_r topics) at 1.
  rewrite (load_topics_commits _ _ _ _ Hall). reflexivity.
Qed.

Lemma commit_partitions_session bs topic partitions :
  forall s, same_session s (foldl (commit_partition bs topic) s partitions).
Proof.
  induction partitions as [|pm partitions IH]; intros s; simpl.
  - repeat split.
  - destruct (IH (commit_partition bs topic s pm)) as (? & ? & ? & ? & ?).
    unfold commit_partition in *.
    destruct (bs !! leader pm.2); simpl in *; repeat split; assumption.
Qed.

Lemma commit_partitions_leader_other bs topic partitions u p :
  u ≠ topic \/ p ∉ partitions.*1 ->
  forall s,
    topics_to_brokers (foldl (commit_partition bs topic) s partitions)
      !! (u, p)
    = topics_to_brokers s !! (u, p).
Proof.
  induction partitions as [|pm partitions IH]; intros Hother s; simpl.
  - reflexivity.
  - rewrite IH.
    + unfold commit_partition. destruct (bs !! leader pm.2); [|reflexivity].
      simpl. apply lookup_insert_ne. intros E; inversion E; subst.
      destruct Hother as [?|Hp]; [congruence|]. apply Hp. left.
    + destruct Hother as [?|Hp]; [auto|]. right. intros Hin. apply Hp.
      right. exact Hin.
Qed.

Lemma commit_partitions_leader bs topic partitions :
  assigned bs partitions -> NoDup partitions.*1 ->
  forall s p m,
    (p, m) ∈ partitions ->
    topics_to_brokers (foldl (commit_partition bs topic) s partitions)
      !! (topic, p)
    = bs !! leader m.
Proof.
  intros Hassigned.
  induction Hassigned as [|[p0 m0] partitions [Hl [b Hb]] _ IH];
    intros Hnodup s p m Hin.
  - apply elem_of_nil in Hin as [].
  - rewrite fmap_cons in Hnodup. apply NoDup_cons in Hnodup as [Hfresh Hnodup].
    simpl in *. apply elem_of_cons in Hin as [E|Hin].
    + inversion E; subst p0 m0.
      rewrite commit_partitions_leader_other by (right; exact Hfresh).
      unfold commit_partition. simpl. rewrite Hb. simpl.
      apply lookup_insert_eq.
    + apply IH; assumption.
Qed.

Lemma commit_partitions_list_other bs topic partitions u :
  u ≠ topic ->
  forall s,
    topic_partitions (foldl (commit_partition bs topic) s partitions) !! u
    = topic_partitions s !! u.
Proof.
  intros Hne. induction partitions as [|pm partitions IH]; intros s; simpl.
  - reflexivity.
  - rewrite IH. unfold commit_partition.
    destruct (bs !! leader pm.2); [|reflexivity].
    simpl. apply lookup_insert_ne. congruence.
Qed.

Lemma commit_partitions_list bs topic partitions :
  assigned bs partitions -> partitions ≠ [] ->
  forall s,
    topic_partitions (foldl (commit_partition bs topic) s partitions) !! topic
    = Some (default [] (topic_partitions s !! topic) ++ partitions.*1).
Proof.
  intros Hassigned.
  induction Hassigned as [|[p0 m0] partitions [Hl [b Hb]] Hrest IH];
    intros Hne s; [congruence|].
  simpl in *. destruct partitions as [|pm partitions].
  - simpl. unfold commit_partition. simpl. rewrite Hb. simpl.
    apply lookup_insert_eq.
  - rewrite IH by discriminate.
    unfold commit_partition at 1. simpl. rewrite Hb. simpl.
    rewrite lookup_insert_eq. simpl. rewrite <- app_assoc. reflexivity.
Qed.

(** The cache after a run of the topic loop that did not retry. *)
Lemma commit_topics_spec bs topics :
  all_assigned bs topics -> NoDup topics.*1 ->
  forall s,
    let s' := commit_topics bs topics s in
    same_session s s' /\
    (forall u, u ∉ topics.*1 ->
       topic_partitions s' !! u = topic_partitions s !! u /\
       forall p, topics_to_brokers s' !! (u, p)
                 = topics_to_brokers s !! (u, p)) /\
    (forall u partitions,
       (u, partitions) ∈ topics ->
       topic_partitions s' !! u = Some partitions.*1 /\
       forall p m, (p, m) ∈ partitions ->
                   topics_to_brokers s' !! (u, p) = bs !! leader m).
Proof.
  intros Hall.
  induction Hall as [|[topic partitions] topics (Hne & Hnd & Hassigned) _ IH];
    intros Hnodup s; simpl.
  - split; [repeat split|]. split; [auto|].
    intros u partitions Hin. apply elem_of_nil in Hin as [].
  - rewrite fmap_cons in Hnodup. apply NoDup_cons in Hnodup as [Hfresh Hnodup].
    simpl in *.
    set (s1 := commit_topic bs s (topic, partitions)).
    assert (Hsession : same_session s s1).
    { destruct (commit_partitions_session bs topic partitions
                  (set_topic_partitions (delete topic) s))
        as (? & ? & ? & ? & ?). repeat split; assumption. }
    assert (Hlist : topic_partitions s1 !! topic = Some partitions.*1).
    { unfold s1, commit_topic. simpl.
      rewrite commit_partitions_list by assumption. simpl.
      rewrite lookup_delete_eq. reflexivity. }
    assert (Hleaders : forall p m, (p, m) ∈ partitions ->
              topics_to_brokers s1 !! (topic, p) = bs !! leader m).
    { intros p m Hin. unfold s1, commit_topic. simpl.
      apply commit_partitions_leader; assumption. }
    assert (Hother : forall u, u ≠ topic ->
              topic_partitions s1 !! u = topic_partitions s !! u /\
              forall p, topics_to_brokers s1 !! (u, p)
                        = topics_to_brokers s !! (u, p)).
    { intros u Hu. unfold s1, commit_topic. simpl. split.
      - rewrite commit_partitions_list_other by exact Hu. simpl.
        apply lookup_delete_ne. congruence.
      - intros p. rewrite commit_partitions_leader_other by (left; exact Hu).
        reflexivity. }
    destruct (IH Hnodup s1) as (Hs & Hrest & Hin).
    split.
    { destruct Hs as (? & ? & ? & ? & ?), Hsession as (? & ? & ? & ? & ?).
      repeat split; congruence. }
    split.
    + intros u Hu. apply not_elem_of_cons in Hu as [Hu Hu'].
      destruct (Hrest u Hu') as [E1 E2], (Hother u Hu) as [E3 E4].
      split; [congruence|]. intros p. rewrite E2. apply E4.
    + intros u parts Hu. apply elem_of_cons in Hu as [E|Hu].
      * inversion E; subst u parts. destruct (Hrest topic Hfresh) as [E1 E2].
        split; [congruence|]. intros p m Hpm. rewrite E2. auto.
      * apply Hin. exact Hu.
Qed.

(** *** A refresh that meets a topic without leader, once *)

Lemma sleeps_app h evs : sleeps (h ++ evs) = (sleeps h + sleeps evs)%nat.
Proof. unfold sleeps. rewrite filter_app, length_app. reflexivity. Qed.

Lemma unaware_first_answers x request_id request response :
  conns x ≠ [] ->
  (forall conn,
     conn_request (history x) conn request_id request = inl response) ->
  exists c,
    unaware_loop (snd <$> dict_items (conns x)) request_id request x
    = (Some response,
       log_event (EvRequest c request_id request (inl response)) x).
Proof.
  intros Hpools Hanswer.
  destruct (dict_items (conns x)) as [|[a c] rest] eqn:E.
  - exfalso. apply Hpools. apply Permutation_nil_r.
    rewrite <- (dict_items_perm _ _ (conns x)), E. reflexivity.
  - exists c. simpl. unfold pool_request. rewrite Hanswer. reflexivity.
Qed.

Lemma get_leader_hit fuel topic partition s b :
  topics_to_brokers s !! (topic, partition) = Some b ->
  _get_leader_for_partition fuel topic partition s = (Ok b, s).
Proof.
  intros Hb. unfold _get_leader_for_partition, TopicAndPartition.
  rewrite Hb. rewrite decide_True by eauto. rewrite Hb. reflexivity.
Qed.

Lemma load_partitions_absent retry bs topic p m rest x :
  leader m = (-1)%Z ->
  load_partitions retry bs topic ((p, m) :: rest) x =
    match (sleep 1 ≫= fun _ => retry) x with
    | (Ok _, y) => load_partitions retry bs topic rest y
    | (Raise e, y) => (Raise e, y)
    | (OutOfFuel, y) => (OutOfFuel, y)
    end.
Proof.
  intros Hl. simpl. rewrite decide_True by exact Hl. reflexivity.
Qed.

Lemma load_topics_cons retry bs topic partitions rest x :
  partitions ≠ [] ->
  load_topics retry bs ((topic, partitions) :: rest) x =
    match load_partitions (retry topic) bs topic partitions
                          (set_topic_partitions (delete topic) x) with
    | (Ok _, y) => load_topics retry bs rest y
    | (Raise e, y) => (Raise e, y)
    | (OutOfFuel, y) => (OutOfFuel, y)
    end.
Proof.
  intros Hne. destruct partitions as [|pm partitions]; [congruence|].
  reflexivity.
Qed.

Section retry_once.
Variables (s : State) (response1 response2 : bytes) (t : string).
Variables (bs1 bs2 : gmap Z BrokerMetadata).
Variables (before after : list (string * list (Z * PartitionMetadata))).
Variables (partitions1 partitions2 : list (Z * PartitionMetadata)).

Hypothesis pools : conns s ≠ [].
Hypothesis first_answer :
  forall conn request_id request,
    conn_request (history s) conn request_id request = inl response1.
Hypothesis later_answers :
  forall evs conn request_id request,
    evs ≠ [] ->
    conn_request (history s ++ evs) conn request_id request = inl response2.
Hypothesis decode1 :
  decode_metadata_response response1
  = (bs1, before ++ (t, partitions1) :: after).
Hypothesis decode2 :
  decode_metadata_response response2 = (bs2, [(t, partitions2)]).
Hypothesis topics1 : NoDup (before ++ (t, partitions1) :: after).*1.
Hypothesis assigned_before : all_assigned bs1 before.
Hypothesis assigned_after : all_assigned bs1 after.
Hypothesis some_partition : partitions1 ≠ [].
Hypothesis no_leader :
  Forall (fun pm : Z * PartitionMetadata => leader pm.2 = (-1)%Z) partitions1.
Hypothesis settled2 : settled (bs2, [(t, partitions2)]).

Lemma retry_settles fuel x :
  later_than s x ->
  exists y,
    (sleep 1 ≫= fun _ => _load_metadata_for_topics (S fuel) [t]) x
    = (Ok tt, y) /\ retried s t bs2 partitions2 x y.
Proof.
  intros (Hconns & evs & Hevs & Hh).
  set (x1 := log_event (EvSleep 1) x).
  change ((sleep 1 ≫= fun _ => _load_metadata_for_topics (S fuel) [t]) x)
    with (_load_metadata_for_topics (S fuel) [t] x1).
  rewrite load_unfold. cbv zeta.
  assert (Hh1 : history x1 = history s ++ (evs ++ [EvSleep 1])).
  { unfold x1. simpl. rewrite Hh, <- app_assoc. reflexivity. }
  destruct (unaware_first_answers
              (set_ID_GEN (fun n => (n + 1)%Z) x1) (ID_GEN x1)
              (encode_metadata_request (client_id x1) (ID_GEN x1) [t])
              response2) as (c & Hsend).
  { simpl. rewrite Hconns. exact pools. }
  { intros conn. simpl history. rewrite Hh, <- app_assoc.
    apply later_answers. intros E. apply app_eq_nil in E as [_ ?].
    discriminate. }
  change (conns x1) with (conns (set_ID_GEN (fun n => (n + 1)%Z) x1)).
  rewrite Hsend. rewrite decode2. simpl fst. simpl snd.
  destruct settled2 as (_ & Hnodup & Hall). simpl in Hnodup, Hall.
  rewrite (load_topics_commits_all _ _ _ Hall).
  eexists. split; [reflexivity|].
  match goal with |- retried _ _ _ _ _ (commit_topics _ _ ?x2) =>
    pose proof (commit_topics_spec bs2 [(t, partitions2)] Hall Hnodup x2)
      as Hspec
  end.
  cbv zeta in Hspec.
  match type of Hspec with same_session _ ?y0 /\ _ => set (y := y0) in * end.
  destruct Hspec as ((Hc & _ & Hhist & _ & _) & Hother & Hin).
  simpl in Hc, Hhist.
  split; [|split; [|split; [|split]]].
  - split; [rewrite Hc; exact Hconns|].
    eexists. split; [|rewrite Hhist, Hh, <- !app_assoc; reflexivity].
    intros E. apply app_eq_nil in E as [? _]. contradiction.
  - rewrite Hhist, !sleeps_app. unfold sleeps. simpl. lia.
  - apply (Hin t partitions2). left.
  - intros u Hu. destruct (Hother u) as [E _]; [|exact E].
    intros Hmem. apply list_elem_of_singleton in Hmem. contradiction.
  - intros p m Hpm. apply (Hin t partitions2); [left|exact Hpm].
Qed.
Lemma retries_for_each_partition fuel partitions :
  Forall (fun pm : Z * PartitionMetadata => leader pm.2 = (-1)%Z)
         partitions ->
  forall x,
    later_than s x ->
    exists y,
      load_partitions (_load_metadata_for_topics (S fuel) [t]) bs1 t
                      partitions x = (Ok tt, y) /\
      later_than s y /\
      sleeps (history y) = (sleeps (history x) + length partitions)%nat /\
      (forall u, u ≠ t ->
                 topic_partitions y !! u = topic_partitions x !! u) /\
      (partitions ≠ [] ->
       topic_partitions y !! t = Some partitions2.*1 /\
       forall p m, (p, m) ∈ partitions2 ->
                   topics_to_brokers y !! (t, p) = bs2 !! leader m).
Proof.
  intros Habsent.
  induction Habsent as [|[p m] partitions Hl Hrest IH]; intros x Hlater.
  - exists x. split; [reflexivity|]. split; [exact Hlater|].
    split; [simpl; lia|]. split; [auto|]. congruence.
  - simpl in Hl. rewrite load_partitions_absent by exact Hl.
    destruct (retry_settles fuel x Hlater)
      as (y1 & -> & Hlater1 & Hsleeps1 & Hlist1 & Hother1 & Hleaders1).
    destruct (IH y1 Hlater1) as (y & Hrun & Hlatery & Hsleeps & Hother & Ht).
    exists y. split; [exact Hrun|]. split; [exact Hlatery|].
    split; [rewrite Hsleeps, Hsleeps1; simpl; lia|].
    split; [intros u Hu; rewrite Hother, Hother1 by exact Hu; reflexivity|].
    intros _. destruct partitions as [|pm partitions].
    + simpl in Hrun. inversion Hrun; subst y. auto.
    + apply Ht. discriminate.
Qed.

(** X6: with two units of fuel the refresh returns: it sleeps and asks again
    once for each partition of [t], a later lookup of a partition of [t]
    finds the leader of the second response in the cache, and the other
    topics of the first response have been processed. *)
Theorem refresh_retries_absent_leader fuel topics :
  exists s',
    _load_metadata_for_topics (S (S fuel)) topics s = (Ok tt, s') /\
    sleeps (history s') = (sleeps (history s) + length partitions1)%nat /\
    (forall p m,
       (p, m) ∈ partitions2 ->
       exists b, bs2 !! leader m = Some b /\
                 forall fuel',
                   _get_leader_for_partition fuel' t p s' = (Ok b, s')) /\
    (forall u partitions,
       (u, partitions) ∈ before ++ after ->
       topic_partitions s' !! u = Some partitions.*1) /\
    (forall u partitions p m,
       (u, partitions) ∈ after -> (p, m) ∈ partitions ->
       topics_to_brokers s' !! (u, p) = bs1 !! leader m).
Proof.
  (* the topics of the first response are distinct *)
  pose proof topics1 as Hnodup.
  rewrite fmap_app, fmap_cons in Hnodup. simpl in Hnodup.
  apply NoDup_app in Hnodup as (Hnd_before & Hdisjoint & Hnd_rest).
  apply NoDup_cons in Hnd_rest as [Ht_after Hnd_after].
  assert (Ht_before : t ∉ before.*1).
  { intros Hin. apply (Hdisjoint t Hin). left. }
  (* the first request is answered by the first response *)
  rewrite load_unfold. cbv zeta.
  destruct (unaware_first_answers
              (set_ID_GEN (fun n => (n + 1)%Z) s) (ID_GEN s)
              (encode_metadata_request (client_id s) (ID_GEN s) topics)
              response1 pools) as (c & Hsend).
  { intros conn. apply first_answer. }
  change (conns s) with (conns (set_ID_GEN (fun n => (n + 1)%Z) s)).
  rewrite Hsend, decode1. simpl fst. simpl snd.
  set (x1 := set_topics_to_brokers _ _).
  (* the topics before t are committed *)
  rewrite (load_topics_commits _ _ _ _ assigned_before).
  destruct (commit_topics_spec bs1 before assigned_before Hnd_before x1)
    as ((Hc2 & _ & Hh2 & _ & _) & Hout2 & Hin2).
  set (x2 := commit_topics bs1 before x1) in *.
  (* t is retried for each of its partitions *)
  rewrite load_topics_cons by exact some_partition.
  set (x3 := set_topic_partitions (delete t) x2).
  assert (Hlater3 : later_than s x3).
  { split; [simpl; rewrite Hc2; reflexivity|].
    eexists. split; [|simpl; rewrite Hh2; reflexivity]. discriminate. }
  destruct (retries_for_each_partition fuel partitions1 no_leader x3 Hlater3)
    as (y & -> & _ & Hsleeps & Hother & Ht).
  destruct (Ht some_partition) as [_ Hleaders].
  (* the topics after t are committed *)
  rewrite (load_topics_commits_all _ _ _ assigned_after).
  destruct (commit_topics_spec bs1 after assigned_after Hnd_after y)
    as ((_ & _ & Hh4 & _ & _) & Hout4 & Hin4).
  set (s' := commit_topics bs1 after y) in *.
  exists s'. split; [reflexivity|].
  split; [|split; [|split]].
  - rewrite Hh4, Hsleeps. simpl. rewrite Hh2. simpl. rewrite sleeps_app.
    unfold sleeps at 2. simpl. lia.
  - intros p m Hpm.
    destruct settled2 as (_ & _ & Hall). simpl in Hall.
    apply Forall_cons in Hall as [(_ & _ & Hassigned) _]. simpl in Hassigned.
    unfold assigned in Hassigned. rewrite Forall_forall in Hassigned.
    destruct (Hassigned (p, m) Hpm) as [_ [b Hb]]. simpl in Hb.
    exists b. split; [exact Hb|]. intros fuel'. apply get_leader_hit.
    destruct (Hout4 t Ht_after) as [_ E]. rewrite E, (Hleaders p m Hpm).
    exact Hb.
  - intros u partitions Hu. apply elem_of_app in Hu as [Hu|Hu].
    + assert (Hu1 : u ∈ before.*1)
        by (apply list_elem_of_fmap; exists (u, partitions); auto).
      assert (Hne : u ≠ t) by (intros ->; contradiction).
      destruct (Hout4 u) as [E _].
      { intros Hin. apply (Hdisjoint u Hu1). right. exact Hin. }
      rewrite E, Hother by exact Hne. simpl.
      rewrite lookup_delete_ne by congruence.
      apply (Hin2 u partitions Hu).
    + apply (Hin4 u partitions Hu).
  - intros u partitions p m Hu Hpm.
    apply (proj2 (Hin4 u partitions Hu) p m Hpm).
Qed.
End retry_once.

(** *** The check of the responses in the facade *)

Lemma check_loop_spec mk_exn acc ks :
  forall rs out,
    gen_list acc ks = Ok rs ->
    check_loop mk_exn false acc ks out = Ok (out ++ rs) /\
    (Forall (fun r => error r = 0%Z) rs ->
     check_loop mk_exn true acc ks out = Ok (out ++ rs)) /\
    (forall rs1 resp rs2,
       rs = rs1 ++ resp :: rs2 ->
       Forall (fun r => error r = 0%Z) rs1 -> error resp ≠ 0%Z ->
       check_loop mk_exn true acc ks out
       = Raise (mk_exn (default UnknownException
                                (ERROR_CODE_MAPPING !! error resp)) resp)).
Proof.
  induction ks as [|k ks IH]; intros rs out Hrs; simpl in Hrs.
  - inversion Hrs; subst rs. simpl. rewrite app_nil_r.
    split; [reflexivity|]. split; [reflexivity|].
    intros [|? ?] resp rs2 E; discriminate.
  - destruct (acc !! k) as [r|] eqn:Ek; [|discriminate].
    destruct (gen_list acc ks) as [rs'| |] eqn:Erest; inversion Hrs; subst rs.
    destruct (IH rs' (out ++ [r]) eq_refl) as (Hlenient & Hclean & Hfirst).
    rewrite <- app_assoc in Hlenient, Hclean. simpl in Hlenient, Hclean.
    simpl. rewrite Ek. simpl.
    split; [exact Hlenient|]. split.
    + intros Hall. apply Forall_cons in Hall as [Hr Hall].
      rewrite bool_decide_false by (intros Hne; contradiction).
      apply Hclean, Hall.
    + intros [|r1 rs1] resp rs2 E Hzero Hne; simpl in E; inversion E; subst.
      * rewrite bool_decide_true by exact Hne. reflexivity.
      * apply Forall_cons in Hzero as [Hr Hzero].
        rewrite bool_decide_false by (intros Hne'; contradiction).
        eapply Hfirst; eauto.
Qed.

(** In lenient mode the facade returns the responses as they come; in
    strict mode the first response with an error code raises the class
    that the table gives for the code, [UnknownException] by default. *)
Lemma check_responses_spec mk_exn resps rs s :
  list_of resps = Ok rs ->
  check_responses mk_exn false resps s = (Ok rs, s) /\
  (Forall (fun r => error r = 0%Z) rs ->
   check_responses mk_exn true resps s = (Ok rs, s)) /\
  (forall rs1 resp rs2,
     rs = rs1 ++ resp :: rs2 ->
     Forall (fun r => error r = 0%Z) rs1 -> error resp ≠ 0%Z ->
     check_responses mk_exn true resps s
     = (Raise (mk_exn (default UnknownException
                               (ERROR_CODE_MAPPING !! error resp)) resp), s)).
Proof.
  intros Hrs. unfold check_responses. destruct resps as [acc ks|].
  - destruct (check_loop_spec mk_exn acc ks rs [] Hrs)
      as (Hlenient & Hclean & Hfirst).
    simpl in Hlenient, Hclean. split; [rewrite Hlenient; reflexivity|]. split.
    + intros Hall. rewrite (Hclean Hall). reflexivity.
    + intros rs1 resp rs2 E Hzero Hne.
      rewrite (Hfirst rs1 resp rs2 E Hzero Hne). reflexivity.
  - simpl in Hrs. inversion Hrs; subst rs.
    split; [reflexivity|]. split; [reflexivity|].
    intros [|? ?] resp rs2 E; discriminate.
Qed.

(** *** The registry of pools *)

(** X1: the pool handed out for a broker is stored under the address of the
    broker and handed out again, without any change of state, for every
    broker with this address; the pools stored before stay as they are,
    and the cache is not touched. *)
Theorem get_conn_reuses_pool (broker : BrokerMetadata) (s : State) :
  exists conn s1,
    _get_conn_for_broker broker s = (Ok conn, s1) /\
    assoc_lookup (host broker, port broker) (conns s1) = Some conn /\
    (forall broker',
       host broker' = host broker -> port broker' = port broker ->
       _get_conn_for_broker broker' s1 = (Ok conn, s1)) /\
    (forall k c, assoc_lookup k (conns s) = Some c ->
                 assoc_lookup k (conns s1) = Some c) /\
    same_cache s s1 /\ history s1 = history s.
Proof.
  unfold _get_conn_for_broker.
  destruct (assoc_lookup (host broker, port broker) (conns s)) as [c|] eqn:E.
  - exists c, s. split; [reflexivity|]. split; [exact E|].
    split; [|repeat split; auto].
    intros broker' -> ->. rewrite E. reflexivity.
  - eexists _, _. split; [reflexivity|]. simpl.
    assert (Hnew : forall conn,
              assoc_lookup (host broker, port broker)
                (assoc_add (host broker, port broker) conn (conns s))
              = Some conn).
    { intros conn. rewrite assoc_lookup_add, E.
      rewrite decide_True by reflexivity. reflexivity. }
    split; [apply Hnew|]. split; [|split; [|repeat split]].
    + intros broker' Hh Hp. unfold _get_conn_for_broker. simpl.
      rewrite Hh, Hp, Hnew. reflexivity.
    + intros k c Hk. rewrite assoc_lookup_add, Hk. reflexivity.
Qed.

Lemma elem_of_dict_values {K V} (d : list (K * V)) (v : V) :
  v ∈ (dict_items d).*2 <-> v ∈ d.*2.
Proof. rewrite (dict_items_perm K V d). reflexivity. Qed.

Lemma id_within_weaken lo hi lo' hi' evs :
  (lo' <= lo)%Z -> (hi <= hi')%Z ->
  Forall (id_within lo hi) evs -> Forall (id_within lo' hi') evs.
Proof.
  intros Hlo Hhi Hall. eapply Forall_impl; [exact Hall|].
  intros ev Hev i Hi. specialize (Hev i Hi). lia.
Qed.

Lemma refreshes_weaken {A} (P Q : exn -> Prop) (m : M A) :
  (forall e, P e -> Q e) -> refreshes P m -> refreshes Q m.
Proof.
  intros HPQ Hm s r s' Hrun.
  destruct (Hm s r s' Hrun) as (Hc & Hcid & Hid & Hr & Hevs).
  repeat (split; [assumption|]). split; [|exact Hevs].
  intros e He. apply HPQ, Hr, He.
Qed.

Lemma refreshes_nothing {A} (P : exn -> Prop) (m : M A) :
  (forall s, exists r, m s = (r, s) /\ forall e, r = Raise e -> P e) ->
  refreshes P m.
Proof.
  intros Hm s r s' Hrun. destruct (Hm s) as (r0 & E & Hr).
  rewrite E in Hrun. inversion Hrun; subst.
  split; [reflexivity|]. split; [reflexivity|]. split; [lia|].
  split; [exact Hr|]. exists []. rewrite app_nil_r.
  repeat split; constructor.
Qed.

Lemma refreshes_ret {A} (P : exn -> Prop) (a : A) : refreshes P (mret a).
Proof.
  apply refreshes_nothing. intros s. eexists. split; [reflexivity|].
  intros e He. discriminate.
Qed.

Lemma refreshes_bind {A B} (P : exn -> Prop) (m : M A) (k : A -> M B) :
  refreshes P m -> (forall a, refreshes P (k a)) -> refreshes P (m ≫= k).
Proof.
  intros Hm Hk s r s' Hrun. unfold_M.
  destruct (m s) as [r1 s1] eqn:E1.
  destruct (Hm _ _ _ E1)
    as (Hc1 & Hcid1 & Hid1 & Hr1 & evs1 & Hh1 & Hev1 & Hids1).
  destruct r1 as [a| |].
  - destruct (Hk a _ _ _ Hrun)
      as (Hc2 & Hcid2 & Hid2 & Hr2 & evs2 & Hh2 & Hev2 & Hids2).
    split; [congruence|]. split; [congruence|]. split; [lia|].
    split; [exact Hr2|]. exists (evs1 ++ evs2).
    split; [rewrite Hh2, Hh1, app_assoc; reflexivity|]. split.
    + apply Forall_app. split; [exact Hev1|].
      rewrite <- Hc1, <- Hcid1. exact Hev2.
    + apply Forall_app. split.
      * eapply id_within_weaken; [| |exact Hids1]; lia.
      * eapply id_within_weaken; [| |exact Hids2]; lia.
  - inversion Hrun; subst.
    repeat (split; [assumption|]). split; [|eauto].
    intros e' He. inversion He; subst. apply Hr1. reflexivity.
  - inversion Hrun; subst.
    repeat (split; [assumption|]). split; [|eauto].
    intros e' He. discriminate.
Qed.

Lemma refreshes_silent (P : exn -> Prop) (f : State -> State) :
  (forall s, conns (f s) = conns s /\ history (f s) = history s /\
             ID_GEN (f s) = ID_GEN s /\ client_id (f s) = client_id s) ->
  refreshes P (modify f).
Proof.
  intros Hf s r s' Hrun. unfold modify in Hrun. inversion Hrun; subst.
  destruct (Hf s) as (Hc & Hh & Hid & Hcid).
  split; [exact Hc|]. split; [exact Hcid|]. split; [lia|].
  split; [intros e He; discriminate|].
  exists []. rewrite app_nil_r. split; [exact Hh|]. split; constructor.
Qed.

Lemma refreshes_sleep (P : exn -> Prop) : refreshes P (sleep 1).
Proof.
  intros s r s' Hrun. unfold sleep, modify in Hrun. inversion Hrun; subst.
  split; [reflexivity|]. split; [reflexivity|]. split; [simpl; lia|].
  split; [intros e He; discriminate|].
  exists [EvSleep 1]. split; [reflexivity|].
  split; (constructor; [|constructor]); [reflexivity|].
  intros i Hi. discriminate.
Qed.

Lemma load_partitions_refreshes retry bs topic partitions :
  refreshes refresh_exn retry ->
  refreshes refresh_exn (load_partitions retry bs topic partitions).
Proof.
  intros Hretry.
  induction partitions as [|[partition meta] partitions IH].
  - apply refreshes_ret.
  - simpl. apply refreshes_bind; [|intros _; exact IH].
    destruct (decide (leader meta = (-1)%Z)).
    + apply refreshes_bind; [apply refreshes_sleep|intros _; exact Hretry].
    + destruct (bs !! leader meta).
      * apply refreshes_bind; [|intros _]; apply refreshes_silent;
          intros s; repeat split; reflexivity.
      * apply refreshes_nothing. intros s. eexists. split; [reflexivity|].
        intros e He. inversion He; subst. right. eexists. reflexivity.
Qed.

Lemma load_topics_refreshes retry bs topics :
  (forall topic, refreshes refresh_exn (retry topic)) ->
  refreshes refresh_exn (load_topics retry bs topics).
Proof.
  intros Hretry. induction topics as [|[topic partitions] topics IH].
  - apply refreshes_ret.
  - simpl. apply refreshes_bind; [|intros _].
    + apply refreshes_silent. intros s; repeat split; reflexivity.
    + destruct partitions as [|pm partitions].
      * apply refreshes_bind; [apply refreshes_sleep|intros _; apply Hretry].
      * apply refreshes_bind; [|intros _; exact IH].
        apply load_partitions_refreshes, Hretry.
Qed.

Lemma failed_attempts_refresh cid cs0 cs es request_id topics :
  (forall x, x ∈ cs -> x ∈ cs0) ->
  Forall (refresh_event cid cs0)
         (failed_attempts cs es request_id
            (encode_metadata_request cid request_id topics)).
Proof.
  unfold failed_attempts. revert es.
  induction cs as [|x cs IH]; intros [|e0 es] Hin; simpl; constructor.
  - split; [apply Hin; left|]. eexists. reflexivity.
  - apply IH. intros y Hy. apply Hin. right. exact Hy.
Qed.

Lemma failed_attempts_ids cs es request_id request lo hi :
  (lo <= request_id < hi)%Z ->
  Forall (id_within lo hi) (failed_attempts cs es request_id request).
Proof.
  intros Hid. unfold failed_attempts. revert es.
  induction cs as [|x cs IH]; intros [|e0 es]; simpl; constructor.
  - intros i Hi. inversion Hi; subst. exact Hid.
  - apply IH.
Qed.

Lemma load_refreshes fuel :
  forall topics,
    refreshes refresh_exn (_load_metadata_for_topics fuel topics).
Proof.
  induction fuel as [|fuel IH]; intros topics.
  - apply refreshes_nothing. intros s. eexists. split; [reflexivity|].
    intros e He. discriminate.
  - intros s r s' Hrun. rewrite load_unfold in Hrun. cbv zeta in Hrun.
    destruct (unaware_loop _ _ _ _) as [[response|] s0] eqn:Eu.
    + apply unaware_loop_some in Eu
        as (failed & es & c & rest & Hpools & Hlen & Hh & _ & Hc & Hid
            & Hcid & _).
      apply load_topics_refreshes in Hrun
        as (Hc' & Hcid' & Hid' & Hr & evs & Hh' & Hev & Hids);
        [|intros topic; apply IH].
      simpl in Hc', Hcid', Hid', Hh', Hev, Hids, Hc, Hh, Hid, Hcid.
      split; [congruence|]. split; [congruence|]. split; [lia|].
      split; [exact Hr|].
      eexists. split; [rewrite Hh', Hh, <- !app_assoc; reflexivity|].
      assert (Hin : forall x, x ∈ failed ++ c :: rest -> x ∈ (conns s).*2).
      { intros x Hx. rewrite <- Hpools in Hx.
        apply (elem_of_dict_values (conns s)). exact Hx. }
      split.
      * apply Forall_app. split.
        -- apply failed_attempts_refresh. intros x Hx. apply Hin.
           apply elem_of_app. left. exact Hx.
        -- constructor; [|rewrite <- Hc, <- Hcid; exact Hev].
           split; [|eexists; reflexivity].
           apply Hin. apply elem_of_app. right. left.
      * apply Forall_app. split; [apply failed_attempts_ids; lia|].
        constructor.
        -- intros i Hi. inversion Hi; subst. lia.
        -- eapply id_within_weaken; [| |exact Hids]; lia.
    + inversion Hrun; subst.
      apply unaware_loop_none in Eu
        as (es & Hlen & Hh & _ & Hc & Hid & Hcid).
      simpl in Hc, Hh, Hid, Hcid.
      split; [congruence|]. split; [congruence|]. split; [lia|].
      split; [intros e He; inversion He; left; reflexivity|].
      eexists. split; [exact Hh|]. split.
      * apply failed_attempts_refresh. intros x. apply elem_of_dict_values.
      * apply failed_attempts_ids. lia.
Qed.

(** X5: a metadata refresh, however often it retries, leaves the registry of
    pools as it is and talks to pools of the registry only: everything it
    does is a metadata request to one of them or a sleep of one second.
    What it raises is the exception for a cluster of which no pool
    answers, or the key error for a leader missing from the broker map. *)
Theorem refresh_uses_registry_only
    (fuel : nat) (topics : list string) (s s' : State) (r : Res unit) :
  _load_metadata_for_topics fuel topics s = (r, s') ->
  conns s' = conns s /\
  history s' = history s ++ events_since s s' /\
  Forall (refresh_event (client_id s) (conns s).*2) (events_since s s') /\
  forall e, r = Raise e -> refresh_exn e.
Proof.
  intros Hrun. destruct (load_refreshes fuel topics s r s' Hrun)
    as (Hc & _ & _ & Hr & evs & Hh & Hev & _).
  rewrite (events_since_app s s' evs Hh). auto.
Qed.

(** *** Grouping the payloads by leader *)

Lemma defaultdict_append_join {K V} `{EqDecision K} (k : K) (x : V) d :
  mjoin (defaultdict_append k x d).*2 ≡ₚ mjoin d.*2 ++ [x].
Proof.
  induction d as [|[k' xs] d IH]; simpl.
  - reflexivity.
  - destruct (decide (k = k')); simpl.
    + rewrite <- !app_assoc. apply Permutation_app_head.
      apply Permutation_app_comm.
    + rewrite IH, app_assoc. reflexivity.
Qed.

Lemma defaultdict_append_keys {K V} `{EqDecision K} (k : K) (x : V) d :
  (defaultdict_append k x d).*1 = d.*1 \/
  ((k ∉ d.*1) /\ (defaultdict_append k x d).*1 = d.*1 ++ [k]).
Proof.
  induction d as [|[k' xs] d IH].
  - right. split; [apply not_elem_of_nil|reflexivity].
  - unfold defaultdict_append. fold (@defaultdict_append K V _).
    destruct (decide (k = k')); [left; reflexivity|].
    rewrite !fmap_cons.
    destruct IH as [E|[Hk E]]; rewrite E; [left; reflexivity|].
    right. split; [|reflexivity]. apply not_elem_of_cons. auto.
Qed.

Lemma defaultdict_append_Forall {K V} `{EqDecision K}
    (P Q : K * list V -> Prop) (k : K) (x : V) d :
  (forall xs, P (k, xs) -> Q (k, xs ++ [x])) ->
  (forall g, P g -> Q g) -> Q (k, [x]) ->
  Forall P d -> Forall Q (defaultdict_append k x d).
Proof.
  intros Hhit Hother Hnew.
  induction 1 as [|[k' xs] d Hg Hd IH]; simpl.
  - repeat constructor. exact Hnew.
  - destruct (decide (k = k')) as [<-|].
    + constructor; [apply Hhit, Hg|]. eapply Forall_impl; eauto.
    + constructor; [apply Hother, Hg|exact IH].
Qed.

Lemma group_loop_partitions fuel payloads :
  forall done keys0 groups0 s keys groups s1,
    group_loop fuel payloads keys0 groups0 s = (Ok (keys, groups), s1) ->
    mjoin groups0.*2 ≡ₚ done -> NoDup groups0.*1 ->
    Forall (fun g : BrokerMetadata * list Payload =>
              g.2 `sublist_of` done) groups0 ->
    mjoin groups.*2 ≡ₚ done ++ payloads /\ NoDup groups.*1 /\
    Forall (fun g : BrokerMetadata * list Payload =>
              g.2 `sublist_of` done ++ payloads) groups.
Proof.
  induction payloads as [|p payloads IH];
    intros done keys0 groups0 s keys groups s1 Hrun Hjoin Hnodup Hsub;
    simpl in Hrun; unfold_M.
  - inversion Hrun; subst. rewrite app_nil_r. auto.
  - destruct (_get_leader_for_partition fuel (payload_topic p)
                (payload_partition p) s) as [[b| |] s0]; try discriminate.
    apply (IH (done ++ [p])) in Hrun.
    + rewrite <- !app_assoc in Hrun. exact Hrun.
    + rewrite defaultdict_append_join, Hjoin. reflexivity.
    + destruct (defaultdict_append_keys b p groups0) as [->|[Hb ->]];
        [exact Hnodup|].
      apply NoDup_app. split; [exact Hnodup|]. split; [|apply NoDup_singleton].
      intros x Hx Hx'. apply list_elem_of_singleton in Hx'. subst x.
      contradiction.
    + revert Hsub. apply defaultdict_append_Forall; simpl.
      * intros xs Hxs. apply sublist_app; [exact Hxs|reflexivity].
      * intros g Hg. apply sublist_inserts_r. exact Hg.
      * apply sublist_inserts_l. reflexivity.
Qed.

(** X9: grouping loses and invents nothing: the keys are those of the
    payloads in input order, the groups hold the payloads, each once,
    every broker has one group, no group is empty, and inside a group the
    payloads keep their input order. *)
Theorem group_request_partitions
    (fuel : nat) (payloads : list Payload) (s s1 : State)
    (keys : list (string * Z))
    (groups : list (BrokerMetadata * list Payload)) :
  _group_request fuel payloads s = (Ok (keys, groups), s1) ->
  keys = payload_key <$> payloads /\
  mjoin groups.*2 ≡ₚ payloads /\
  NoDup groups.*1 /\
  Forall (fun g : BrokerMetadata * list Payload =>
            g.2 ≠ [] /\ g.2 `sublist_of` payloads) groups.
Proof.
  intros Hrun. unfold _group_request in Hrun.
  destruct (group_loop_spec _ _ _ _ _ _ _ _ Hrun) as [Hkeys Hne];
    [constructor|].
  destruct (group_loop_partitions _ _ [] _ _ _ _ _ _ Hrun)
    as (Hjoin & Hnodup & Hsub); [reflexivity|constructor|constructor|].
  simpl in *. split; [exact Hkeys|]. split; [exact Hjoin|].
  split; [exact Hnodup|].
  rewrite Forall_forall in *. intros g Hg. split; [apply Hne|apply Hsub]; auto.
Qed.

Lemma group_loop_warm fuel payloads s :
  (forall p, p ∈ payloads -> is_Some (topics_to_brokers s !! payload_key p)) ->
  forall keys0 groups0,
    Forall (fun g : BrokerMetadata * list Payload =>
              Forall (fun p => topics_to_brokers s !! payload_key p
                               = Some g.1) g.2) groups0 ->
    exists groups,
      group_loop fuel payloads keys0 groups0 s
      = (Ok (keys0 ++ (payload_key <$> payloads), groups), s) /\
      Forall (fun g : BrokerMetadata * list Payload =>
                Forall (fun p => topics_to_brokers s !! payload_key p
                                 = Some g.1) g.2) groups.
Proof.
  induction payloads as [|p payloads IH]; intros Hwarm keys0 groups0 Hinv.
  - exists groups0. simpl. rewrite app_nil_r. split; [reflexivity|exact Hinv].
  - destruct (Hwarm p) as [b Hb]; [left|].
    simpl. unfold_M.
    rewrite (get_leader_hit fuel _ _ s b Hb).
    destruct (IH (fun q Hq => Hwarm q (list_elem_of_further _ _ _ Hq))
                 (keys0 ++ [payload_key p])
                 (defaultdict_append b p groups0))
      as (groups & Hrun & Hinv').
    + revert Hinv. apply defaultdict_append_Forall; simpl.
      * intros xs Hxs. apply Forall_app. split; [exact Hxs|].
        repeat constructor. exact Hb.
      * auto.
      * repeat constructor. exact Hb.
    + exists groups. unfold payload_key in Hrun at 1. rewrite Hrun.
      rewrite <- app_assoc. split; [reflexivity|exact Hinv'].
Qed.

(** X10: with every key in the leader map the grouping makes no discovery
    request and changes nothing, whatever the fuel, and each payload is in
    the group of the leader cached for its key. *)
Theorem grouping_with_warm_cache
    (fuel : nat) (payloads : list Payload) (s : State) :
  (forall p, p ∈ payloads -> is_Some (topics_to_brokers s !! payload_key p)) ->
  exists groups,
    _group_request fuel payloads s
    = (Ok (payload_key <$> payloads, groups), s) /\
    forall b ps p,
      (b, ps) ∈ groups -> p ∈ ps ->
      topics_to_brokers s !! payload_key p = Some b.
Proof.
  intros Hwarm.
  destruct (group_loop_warm fuel payloads s Hwarm [] [])
    as (groups & Hrun & Hinv); [constructor|].
  exists groups. split; [exact Hrun|].
  intros b ps p Hg Hp. rewrite Forall_forall in Hinv.
  specialize (Hinv (b, ps) Hg). rewrite Forall_forall in Hinv.
  apply (Hinv p Hp).
Qed.

(** *** The leader lookup *)

(** X2: a leader that was looked up is looked up again without any discovery
    request and without any change of state, with the same answer. *)
Theorem leader_lookup_is_cached
    (fuel : nat) (topic : string) (partition : Z) (s s' : State)
    (b : BrokerMetadata) :
  _get_leader_for_partition fuel topic partition s = (Ok b, s') ->
  forall fuel',
    _get_leader_for_partition fuel' topic partition s' = (Ok b, s').
Proof.
  intros Hrun fuel'. apply get_leader_hit.
  unfold _get_leader_for_partition, TopicAndPartition in Hrun.
  destruct (decide (is_Some _)) as [Hs|Hs].
  - destruct (topics_to_brokers s !! (topic, partition)) eqn:E;
      inversion Hrun; subst. exact E.
  - destruct (_load_metadata_for_topics fuel [topic] s) as [[[]| |] s0];
      try discriminate.
    destruct (topics_to_brokers s0 !! (topic, partition)) eqn:E;
      inversion Hrun; subst. exact E.
Qed.

(** X3: a partition of a topic that the cluster never reports has no leader:
    the lookup never returns one, and when the refresh for the topic
    returns, the lookup raises "Partition does not exist". *)
Theorem lookup_of_unknown_partition
    (fuel : nat) (topic : string) (partition : Z) (s s' : State)
    (r : Res BrokerMetadata) :
  (forall h conn request_id request response,
     conn_request h conn request_id request = inl response ->
     topic ∉ (decode_metadata_response response).2.*1) ->
  topics_to_brokers s !! (topic, partition) = None ->
  _get_leader_for_partition fuel topic partition s = (r, s') ->
  (forall b, r ≠ Ok b) /\
  (fst (_load_metadata_for_topics fuel [topic] s) = Ok tt ->
   r = Raise (PartitionDoesNotExist (topic, partition))).
Proof.
  intros Hnever Hmiss Hrun.
  unfold _get_leader_for_partition, TopicAndPartition in Hrun.
  rewrite Hmiss in Hrun.
  rewrite decide_False in Hrun by (intros [? ?]; discriminate).
  destruct (_load_metadata_for_topics fuel [topic] s) as [r0 s0] eqn:Hload.
  destruct (load_frames topic Hnever fuel [topic] s r0 s0 Hload)
    as (_ & _ & Hclear).
  destruct r0 as [[]| |]; simpl.
  - rewrite (Hclear eq_refl partition) in Hrun. inversion Hrun; subst.
    split; [discriminate|reflexivity].
  - inversion Hrun; subst. split; discriminate.
  - inversion Hrun; subst. split; discriminate.
Qed.


(** *** The calls of a broker-aware send *)

Lemma get_leader_refreshes fuel topic partition :
  refreshes
    (fun e => refresh_exn e \/
              e = PartitionDoesNotExist (TopicAndPartition topic partition))
    (_get_leader_for_partition fuel topic partition).
Proof.
  intros s r s' Hrun. unfold _get_leader_for_partition in Hrun.
  cbv zeta in Hrun. destruct (decide (is_Some _)) as [[b Hb]|Hmiss].
  - rewrite Hb in Hrun. inversion Hrun; subst.
    split; [reflexivity|]. split; [reflexivity|]. split; [lia|].
    split; [intros e He; discriminate|].
    exists []. rewrite app_nil_r. repeat split; constructor.
  - destruct (_load_metadata_for_topics fuel [topic] s) as [r0 s0] eqn:Hload.
    destruct (load_refreshes _ _ _ _ _ Hload)
      as (Hc & Hcid & Hid & Hr & Hevs).
    assert (Hs : s' = s0 /\
                 forall e, r = Raise e ->
                   r0 = Raise e \/
                   e = PartitionDoesNotExist (TopicAndPartition topic
                                                                partition)).
    { destruct r0 as [[]|e0|]; [destruct (topics_to_brokers s0 !! _)| |];
        inversion Hrun; subst; (split; [reflexivity|]);
        intros e' He; inversion He; subst; auto. }
    destruct Hs as [-> Hraise].
    repeat (split; [assumption|]). split; [|exact Hevs].
    intros e He. destruct (Hraise e He) as [-> | ->]; [left|right]; auto.
Qed.

Lemma group_loop_refreshes fuel payloads :
  forall keys0 groups0,
    refreshes (grouping_exn payloads)
              (group_loop fuel payloads keys0 groups0).
Proof.
  induction payloads as [|p payloads IH]; intros keys0 groups0; simpl.
  - apply refreshes_ret.
  - apply refreshes_bind.
    + eapply refreshes_weaken; [|apply get_leader_refreshes].
      intros e [He | ->]; [left; exact He|].
      right. exists p. split; [left|reflexivity].
    + intros leader_. eapply refreshes_weaken; [|apply IH].
      intros e [He | (q & Hq & ->)]; [left; exact He|].
      right. exists q. split; [right; exact Hq|reflexivity].
Qed.

Lemma registry_grows_get_conn broker s conn s1 :
  _get_conn_for_broker broker s = (Ok conn, s1) -> registry_grows s s1.
Proof.
  unfold _get_conn_for_broker, registry_grows.
  destruct (assoc_lookup (host broker, port broker) (conns s)) eqn:E;
    intros Hrun; inversion Hrun; subst; [auto|].
  intros address c Hc. simpl. rewrite assoc_lookup_add, Hc. reflexivity.
Qed.

Lemma push_or_request_event decoder_fn conn request_id request s res s' :
  push_or_request decoder_fn conn request_id request s = (res, s') ->
  conns s' = conns s /\ client_id s' = client_id s /\
  ID_GEN s' = ID_GEN s /\
  exists ev,
    history s' = history s ++ [ev] /\
    event_id ev = Some request_id /\
    is_push ev = match decoder_fn with None => true | Some _ => false end.
Proof.
  unfold push_or_request, pool_push, pool_request.
  destruct decoder_fn as [decode|].
  - destruct (conn_request _ _ _ _); intros Hrun; inversion Hrun; subst;
      simpl; repeat split; eexists; repeat split.
  - destruct (conn_push _ _ _ _); intros Hrun; inversion Hrun; subst;
      simpl; repeat split; eexists; repeat split.
Qed.

(** The groups are sent one after the other, each by one call under the
    next correlation id. *)
Lemma dispatch_calls encoder_fn decoder_fn groups :
  forall acc failed s r s',
    dispatch encoder_fn decoder_fn groups acc failed s = (r, s') ->
    registry_grows s s' /\ client_id s' = client_id s /\
    exists evs,
      history s' = history s ++ evs /\
      omap event_id evs = seqZ (ID_GEN s) (Z.of_nat (length evs)) /\
      ID_GEN s' = (ID_GEN s + Z.of_nat (length evs))%Z /\
      Forall (fun ev => is_push ev =
                match decoder_fn with None => true | Some _ => false end)
             evs /\
      match r with
      | Ok (acc', _) =>
          length evs = length groups /\ (decoder_fn = None -> acc' = acc)
      | Raise e =>
          (length evs <= length groups)%nat /\
          exists te, e = Propagated te /\ te ≠ ConnectionError
      | OutOfFuel => False
      end.
Proof.
  induction groups as [|[broker payloads] groups IH];
    intros acc failed s r s' Hrun; simpl in Hrun; unfold_M.
  - inversion Hrun; subst. split; [intros ? ? Hc; exact Hc|].
    split; [reflexivity|]. exists []. rewrite app_nil_r. simpl.
    split; [reflexivity|]. split; [reflexivity|]. split; [lia|].
    split; [constructor|]. auto.
  - destruct (get_conn_spec broker s)
      as (s1 & Hget & _ & Hcid1 & Hh1 & Hid1 & _).
    pose proof (registry_grows_get_conn _ _ _ _ Hget) as Hgrow1.
    rewrite Hget in Hrun. unfold _next_id in Hrun. simpl in Hrun.
    destruct (push_or_request _ _ _ _ _) as [res s2] eqn:Ecall.
    apply push_or_request_event in Ecall
      as (Hc2 & Hcid2 & Hid2 & ev & Hh2 & Hev & Hpush).
    simpl in Hc2, Hcid2, Hid2, Hh2.
    assert (Hstep : forall acc1 failed1 s3,
      conns s3 = conns s2 -> client_id s3 = client_id s2 ->
      ID_GEN s3 = ID_GEN s2 -> history s3 = history s2 ->
      dispatch encoder_fn decoder_fn groups acc1 failed1 s3 = (r, s') ->
      registry_grows s s' /\ client_id s' = client_id s /\
      exists evs,
        history s' = history s ++ evs /\
        omap event_id evs = seqZ (ID_GEN s) (Z.of_nat (length evs)) /\
        ID_GEN s' = (ID_GEN s + Z.of_nat (length evs))%Z /\
        Forall (fun ev => is_push ev =
                  match decoder_fn with None => true | Some _ => false end)
               evs /\
        match r with
        | Ok (acc', _) =>
            length evs = length ((broker, payloads) :: groups) /\
            (decoder_fn = None -> acc' = acc1)
        | Raise e =>
            (length evs <= length ((broker, payloads) :: groups))%nat /\
            exists te, e = Propagated te /\ te ≠ ConnectionError
        | OutOfFuel => False
        end).
    { intros acc1 failed1 s3 Hc3 Hcid3 Hid3 Hh3 Hrest.
      apply IH in Hrest
        as (Hgrow & Hcid & evs & Hh & Hids & Hid & Hpushes & Hr).
      split.
      { intros address c Hc. apply Hgrow. rewrite Hc3, Hc2.
        apply Hgrow1, Hc. }
      split; [congruence|]. exists (ev :: evs).
      split; [rewrite Hh, Hh3, Hh2, Hh1, <- app_assoc; reflexivity|].
      split.
      { change (omap event_id (ev :: evs))
          with (match event_id ev with
                | Some i => i :: omap event_id evs
                | None => omap event_id evs
                end).
        rewrite Hev, Hids, Hid3, Hid2. simpl ID_GEN. rewrite Hid1.
        rewrite (seqZ_cons (ID_GEN s)) by (simpl; lia).
        f_equal. f_equal; simpl length; lia. }
      split; [rewrite Hid, Hid3, Hid2; simpl; lia|].
      split; [constructor; assumption|].
      destruct r as [[acc' failed']| |]; simpl; [| |exact Hr].
      - destruct Hr as [-> Hacc]. auto.
      - destruct Hr as [Hle Hte]. split; [lia|exact Hte]. }
    destruct res as [response|[|]].
    + destruct decoder_fn as [decode|]; [destruct response|].
      * eapply Hstep in Hrun as (? & ? & evs & ? & ? & ? & ? & Hr);
          try reflexivity.
        split; [assumption|]. split; [assumption|]. exists evs.
        repeat (split; [assumption|]).
        destruct r as [[acc' failed']| |]; [|exact Hr..].
        destruct Hr as [? _]. split; [assumption|]. discriminate.
      * eapply Hstep in Hrun as (? & ? & evs & ? & ? & ? & ? & Hr);
          try reflexivity.
        split; [assumption|]. split; [assumption|]. exists evs.
        repeat (split; [assumption|]).
        destruct r as [[acc' failed']| |]; [|exact Hr..].
        destruct Hr as [? _]. split; [assumption|]. discriminate.
      * eapply Hstep in Hrun; try reflexivity. exact Hrun.
    + eapply Hstep in Hrun as (? & ? & evs & ? & ? & ? & ? & Hr);
        try reflexivity.
      split; [assumption|]. split; [assumption|]. exists evs.
      repeat (split; [assumption|]). exact Hr.
    + inversion Hrun; subst.
      split.
      { intros address c Hc. rewrite Hc2. apply Hgrow1, Hc. }
      split; [congruence|]. exists [ev].
      split; [rewrite Hh2, Hh1; reflexivity|].
      split; [simpl; rewrite Hev; simpl; rewrite Hid1; reflexivity|].
      split; [rewrite Hid2; simpl; lia|].
      split; [repeat constructor; assumption|].
      split; [simpl; lia|]. eexists. split; [reflexivity|discriminate].
Qed.

Lemma group_request_refreshes fuel payloads :
  refreshes (grouping_exn payloads) (_group_request fuel payloads).
Proof. apply group_loop_refreshes. Qed.

(** A send whose grouping does not return stops there. *)
Lemma send_grouping_stops fuel payloads encoder_fn decoder_fn s r s' :
  _send_broker_aware_request fuel payloads encoder_fn decoder_fn s
    = (r, s') ->
  (forall keys groups s1,
     _group_request fuel payloads s ≠ (Ok (keys, groups), s1)) ->
  exists r1, _group_request fuel payloads s = (r1, s') /\
    match r1 with
    | Ok _ => False
    | Raise e => r = Raise e
    | OutOfFuel => r = OutOfFuel
    end.
Proof.
  rewrite send_unfold. intros Hrun Hstops.
  destruct (_group_request fuel payloads s) as [[[keys groups]|e|] s1].
  - exfalso. eapply Hstops. reflexivity.
  - inversion Hrun; subst. eexists. split; reflexivity.
  - inversion Hrun; subst. eexists. split; reflexivity.
Qed.

(** The calls of a send whose grouping returned. *)
Lemma send_after_grouping fuel payloads encoder_fn decoder_fn s keys groups
    s1 r s' :
  _group_request fuel payloads s = (Ok (keys, groups), s1) ->
  _send_broker_aware_request fuel payloads encoder_fn decoder_fn s
    = (r, s') ->
  registry_grows s1 s' /\ client_id s' = client_id s1 /\
  exists evs,
    history s' = history s1 ++ evs /\
    omap event_id evs = seqZ (ID_GEN s1) (Z.of_nat (length evs)) /\
    ID_GEN s' = (ID_GEN s1 + Z.of_nat (length evs))%Z /\
    Forall (fun ev => is_push ev =
              match decoder_fn with None => true | Some _ => false end)
           evs /\
    match r with
    | Ok resps => decoder_fn = None -> resps = EmptyTuple
    | Raise e =>
        (exists failed_payloads,
           e = FailedPayloadsException failed_payloads) \/
        (exists te, e = Propagated te /\ te ≠ ConnectionError)
    | OutOfFuel => False
    end.
Proof.
  intros Hgroup. rewrite send_unfold, Hgroup.
  destruct (dispatch _ _ _ _ _ s1) as [r2 s2] eqn:Hdispatch.
  apply dispatch_calls in Hdispatch
    as (Hgrow & Hcid & evs & Hh & Hids & Hid & Hpush & Hr).
  intros Hrun.
  assert (Hs : s' = s2)
    by (destruct r2 as [[acc [|p failed]]| |]; inversion Hrun; reflexivity).
  subst s2. split; [exact Hgrow|]. split; [exact Hcid|]. exists evs.
  repeat (split; [assumption|]).
  destruct r2 as [[acc [|p failed]]|e|]; inversion Hrun; subst.
  - intros Hnone. destruct Hr as [_ Hacc].
    rewrite decide_True by (apply Hacc, Hnone). reflexivity.
  - left. eexists. reflexivity.
  - right. apply Hr.
  - exact Hr.
Qed.

Lemma ids_below_app lo hi h evs :
  ids_below lo h -> (lo <= hi)%Z -> Forall (id_within lo hi) evs ->
  ids_below hi (h ++ evs).
Proof.
  intros Hh Hle Hevs. apply Forall_app. split.
  - eapply Forall_impl; [exact Hh|]. intros ev Hev i Hi.
    specialize (Hev i Hi). lia.
  - eapply Forall_impl; [exact Hevs|]. intros ev Hev i Hi.
    specialize (Hev i Hi). lia.
Qed.

Lemma consecutive_ids_within lo evs :
  omap event_id evs = seqZ lo (Z.of_nat (length evs)) ->
  Forall (id_within lo (lo + Z.of_nat (length evs))) evs.
Proof.
  intros Hids. apply Forall_forall. intros ev Hin i Hi.
  assert (Hi' : i ∈ omap event_id evs).
  { apply list_elem_of_omap. exists ev. auto. }
  rewrite Hids in Hi'. apply elem_of_seqZ in Hi'. lia.
Qed.

(** X11: the calls that a broker-aware send makes after the grouping are
    the calls of the first leader groups, in the order of the groups, one
    call for each, and all the groups get their call unless the send
    raises what a pool raised.  Each call carries a correlation id of its
    own, under which its request is encoded: the ids are the consecutive
    values of the counter, which ends behind the last of them; when every
    earlier call of the history has an id below the counter, so has
    every call after the send, and each id of the send is larger than
    every id used before it. *)
Theorem send_uses_fresh_ids
    (fuel : nat) (payloads : list Payload)
    (encoder_fn : string -> Z -> list Payload -> bytes)
    (decoder_fn : option (bytes -> list Response))
    (s s' : State) (r : Res Responses) :
  _send_broker_aware_request fuel payloads encoder_fn decoder_fn s
    = (r, s') ->
  ids_below (ID_GEN s) (history s) ->
  ids_below (ID_GEN s') (history s') /\
  forall keys groups s1,
    _group_request fuel payloads s = (Ok (keys, groups), s1) ->
    let evs := events_since s1 s' in
    history s' = history s1 ++ evs /\
    ids_below (ID_GEN s1) (history s1) /\
    omap event_id evs = seqZ (ID_GEN s1) (Z.of_nat (length evs)) /\
    ID_GEN s' = (ID_GEN s1 + Z.of_nat (length evs))%Z /\
    Forall2 (sent_to encoder_fn decoder_fn s1)
            (take (length evs) (dict_items groups)) evs /\
    ((forall te, r ≠ Raise (Propagated te)) ->
     length evs = length (dict_items groups)).
Proof.
  intros Hrun Hbelow.
  destruct (_group_request fuel payloads s) as [r1 s1] eqn:Hgroup.
  destruct (group_request_refreshes _ _ _ _ _ Hgroup)
    as (_ & _ & Hid1 & _ & evs1 & Hh1 & _ & Hids1).
  assert (Hbelow1 : ids_below (ID_GEN s1) (history s1)).
  { rewrite Hh1. eapply ids_below_app; eauto. }
  destruct r1 as [[keys groups]|e|].
  - destruct (send_after_grouping _ _ _ _ _ _ _ _ _ _ Hgroup Hrun)
      as (_ & _ & evs & Hh & Hids & Hid & _).
    pose proof (send_prefix _ _ _ _ _ _ _ _ _ _ Hgroup Hrun) as Hprefix.
    cbv zeta in Hprefix. rewrite (events_since_app s1 s' evs Hh) in Hprefix.
    destruct Hprefix as (_ & Hcalls & Hstop).
    split.
    + rewrite Hh, Hid. eapply ids_below_app; [exact Hbelow1|lia|].
      apply consecutive_ids_within, Hids.
    + intros keys' groups' s1' E. inversion E; subst. cbv zeta.
      rewrite (events_since_app s1' s' evs Hh).
      repeat (split; [assumption|]). intros Hcaught.
      destruct r as [resps|e|]; try exact Hstop.
      destruct e; try exact Hstop. exfalso. eapply Hcaught. reflexivity.
  - apply send_grouping_stops in Hrun as (r1 & E & _); [|congruence].
    rewrite Hgroup in E. inversion E; subst.
    split; [exact Hbelow1|]. intros ? ? ? ?. discriminate.
  - apply send_grouping_stops in Hrun as (r1 & E & _); [|congruence].
    rewrite Hgroup in E. inversion E; subst.
    split; [exact Hbelow1|]. intros ? ? ? ?. discriminate.
Qed.

(** X12: what a broker-aware send raises.  An exception of the grouping - one
    of a refresh, or the one for a payload whose partition does not
    exist - is raised before anything is sent: the registry is as before
    and the client did nothing but refresh.  After the grouping the send
    raises the exception for failed payloads, or lets through what a
    pool raised other than a connection error; a connection error never
    leaves the send, and nothing else is raised. *)
Theorem send_failure_kinds
    (fuel : nat) (payloads : list Payload)
    (encoder_fn : string -> Z -> list Payload -> bytes)
    (decoder_fn : option (bytes -> list Response))
    (s s' : State) (e : exn) :
  _send_broker_aware_request fuel payloads encoder_fn decoder_fn s
    = (Raise e, s') ->
  (grouping_exn payloads e /\
   _group_request fuel payloads s = (Raise e, s') /\
   conns s' = conns s /\
   Forall (refresh_event (client_id s) (conns s).*2) (events_since s s')) \/
  (exists keys groups s1,
     _group_request fuel payloads s = (Ok (keys, groups), s1) /\
     ((exists failed_payloads,
         e = FailedPayloadsException failed_payloads) \/
      (exists te, e = Propagated te /\ te ≠ ConnectionError))).
Proof.
  intros Hrun.
  destruct (_group_request fuel payloads s) as [r1 s1] eqn:Hgroup.
  destruct r1 as [[keys groups]|e1|].
  - right. exists keys, groups, s1. split; [reflexivity|].
    destruct (send_after_grouping _ _ _ _ _ _ _ _ _ _ Hgroup Hrun)
      as (_ & _ & evs & _ & _ & _ & _ & Hr).
    exact Hr.
  - left. apply send_grouping_stops in Hrun as (r1 & E & Hr); [|congruence].
    rewrite Hgroup in E. inversion E; subst. inversion Hr; subst.
    destruct (group_request_refreshes _ _ _ _ _ Hgroup)
      as (Hc & _ & _ & Hraises & evs & Hh & Hevs & _).
    split; [apply Hraises; reflexivity|]. split; [reflexivity|].
    split; [exact Hc|]. rewrite (events_since_app s s' evs Hh). exact Hevs.
  - apply send_grouping_stops in Hrun as (r1 & E & Hr); [|congruence].
    rewrite Hgroup in E. inversion E; subst. discriminate.
Qed.

(** *** The functions of the public API *)

Lemma check_loop_lenient mk_exn acc ks :
  forall out,
    check_loop mk_exn false acc ks out =
      match gen_list acc ks with
      | Ok rs => Ok (out ++ rs)
      | Raise e => Raise e
      | OutOfFuel => OutOfFuel
      end.
Proof.
  induction ks as [|k ks IH]; intros out; simpl.
  - rewrite app_nil_r. reflexivity.
  - destruct (acc !! k) as [resp|]; [|reflexivity]. simpl. rewrite IH.
    destruct (gen_list acc ks); try reflexivity.
    rewrite <- app_assoc. reflexivity.
Qed.

Lemma check_responses_lenient mk_exn resps s :
  check_responses mk_exn false resps s = (list_of resps, s).
Proof.
  unfold check_responses. destruct resps as [acc ks|]; [|reflexivity].
  rewrite check_loop_lenient. simpl. destruct (gen_list acc ks); reflexivity.
Qed.

(** Each function of the API is the broker-aware send with its encoder
    and decoder, followed by the check of the responses. *)
Lemma call_unfold a fuel payloads :
  exists mk_exn,
    (forall cls resp, exists message tp,
       mk_exn cls resp = RequestFailed cls message tp (error resp)) /\
    forall fail_on_error,
      call a fuel payloads fail_on_error =
        (_send_broker_aware_request fuel payloads (encoder_of a)
                                    (decoder_of a)
         ≫= check_responses mk_exn fail_on_error).
Proof.
  destruct a; eexists; (split; [|intros fail_on_error; reflexivity]);
    intros cls resp; eexists _, _; reflexivity.
Qed.

Lemma call_send a fuel payloads fail_on_error s r s' :
  call a fuel payloads fail_on_error s = (r, s') ->
  exists mk_exn r0,
    _send_broker_aware_request fuel payloads (encoder_of a) (decoder_of a) s
      = (r0, s') /\
    r = match r0 with
        | Ok resps => (check_responses mk_exn fail_on_error resps s').1
        | Raise e => Raise e
        | OutOfFuel => OutOfFuel
        end.
Proof.
  destruct (call_unfold a fuel payloads) as (mk_exn & _ & Hcall).
  rewrite Hcall. unfold_M. intros Hrun.
  destruct (_send_broker_aware_request _ _ _ _ s) as [r0 s0].
  exists mk_exn, r0. destruct r0 as [resps|e|]; inversion Hrun; subst.
  - unfold check_responses. split; reflexivity.
  - split; reflexivity.
  - split; reflexivity.
Qed.

(** X14: each of the five functions of the API is the broker-aware send with
    its encoder and decoder, then the check of the responses.  What the
    send raises is raised as it is in both modes.  In lenient mode the
    function returns the responses of the send as they are; in strict
    mode it returns the same when every error code is zero, and else
    raises, for the first response with a code, the class that the table
    gives for the code, the class for unknown errors by default.  The
    check changes nothing in the client: in either mode the state is the
    one after the send, all groups sent. *)
Theorem api_is_send_then_check
    (a : api) (fuel : nat) (payloads : list Payload)
    (s s' : State) (r : Res Responses) :
  _send_broker_aware_request fuel payloads (encoder_of a) (decoder_of a) s
    = (r, s') ->
  match r with
  | Ok resps =>
      call a fuel payloads false s = (list_of resps, s') /\
      forall rs,
        list_of resps = Ok rs ->
        (Forall (fun resp => error resp = 0%Z) rs ->
         call a fuel payloads true s = (Ok rs, s')) /\
        (forall rs1 resp rs2,
           rs = rs1 ++ resp :: rs2 ->
           Forall (fun resp => error resp = 0%Z) rs1 ->
           error resp ≠ 0%Z ->
           exists message tp,
             call a fuel payloads true s =
               (Raise (RequestFailed
                         (default UnknownException
                                  (ERROR_CODE_MAPPING !! error resp))
                         message tp (error resp)), s'))
  | Raise e =>
      forall fail_on_error,
        call a fuel payloads fail_on_error s = (Raise e, s')
  | OutOfFuel =>
      forall fail_on_error,
        call a fuel payloads fail_on_error s = (OutOfFuel, s')
  end.
Proof.
  intros Hsend.
  destruct (call_unfold a fuel payloads) as (mk_exn & Hmk & Hcall).
  destruct r as [resps|e|].
  - split.
    + rewrite Hcall. unfold_M. rewrite Hsend.
      apply check_responses_lenient.
    + intros rs Hrs.
      destruct (check_responses_spec mk_exn resps rs s' Hrs)
        as (_ & Hclean & Hfirst).
      split.
      * intros Hzero. rewrite Hcall. unfold_M. rewrite Hsend.
        apply Hclean, Hzero.
      * intros rs1 resp rs2 E Hzero Hcode.
        destruct (Hmk (default UnknownException
                               (ERROR_CODE_MAPPING !! error resp)) resp)
          as (message & tp & Hexn).
        exists message, tp. rewrite Hcall. unfold_M. rewrite Hsend.
        rewrite <- Hexn. eapply Hfirst; eauto.
  - intros fail_on_error. rewrite Hcall. unfold_M. rewrite Hsend.
    reflexivity.
  - intros fail_on_error. rewrite Hcall. unfold_M. rewrite Hsend.
    reflexivity.
Qed.

Lemma no_push_in_refresh cid cs evs :
  Forall (refresh_event cid cs) evs ->
  Forall (fun ev => is_push ev = false) evs.
Proof.
  intros Hall. eapply Forall_impl; [exact Hall|].
  intros [| |] Hev; simpl in *; [reflexivity|contradiction|reflexivity].
Qed.

(** X13: the client pushes, that is sends without waiting for a response, in
    one case only: a produce request with acks = 0.  Such a request
    pushes every group, reads no response and returns the empty list in
    either mode; every other call of the API, and every refresh, waits
    for the response of each request it sends. *)
Theorem pushes_only_without_acks
    (a : api) (fuel : nat) (payloads : list Payload) (fail_on_error : bool)
    (s s' : State) (r : Res (list Response)) :
  call a fuel payloads fail_on_error s = (r, s') ->
  (Exists (fun ev => is_push ev = true) (events_since s s') ->
   exists timeout, a = Produce 0 timeout) /\
  forall timeout,
    a = Produce 0 timeout ->
    (forall rs, r = Ok rs -> rs = []) /\
    forall keys groups s1,
      _group_request fuel payloads s = (Ok (keys, groups), s1) ->
      Forall (fun ev => is_push ev = true) (events_since s1 s').
Proof.
  intros Hcall.
  apply call_send in Hcall as (mk_exn & r0 & Hsend & Hr).
  destruct (_group_request fuel payloads s) as [r1 s1] eqn:Hgroup.
  destruct (group_request_refreshes _ _ _ _ _ Hgroup)
    as (_ & _ & _ & _ & evs1 & Hh1 & Hevs1 & _).
  apply no_push_in_refresh in Hevs1.
  destruct r1 as [[keys groups]|e1|].
  - destruct (send_after_grouping _ _ _ _ _ _ _ _ _ _ Hgroup Hsend)
      as (_ & _ & evs & Hh & _ & _ & Hpush & Hr0).
    split.
    + rewrite (events_since_app s s' (evs1 ++ evs))
        by (rewrite Hh, Hh1, app_assoc; reflexivity).
      intros Hex. apply Exists_app in Hex as [Hex|Hex].
      * apply Exists_exists in Hex as (ev & Hin & Hev).
        rewrite Forall_forall in Hevs1. rewrite (Hevs1 ev Hin) in Hev.
        discriminate.
      * apply Exists_exists in Hex as (ev & Hin & Hev).
        rewrite Forall_forall in Hpush. rewrite (Hpush ev Hin) in Hev.
        destruct a as [acks timeout| | | |]; simpl in Hev;
          try discriminate.
        destruct (decide (acks = 0%Z)) as [->|]; [|discriminate].
        exists timeout. reflexivity.
    + intros timeout ->. simpl in Hpush, Hr0. split.
      * intros rs Hrs. rewrite Hr in Hrs.
        destruct r0 as [resps|e|]; try discriminate.
        rewrite (Hr0 eq_refl) in Hrs. simpl in Hrs. inversion Hrs.
        reflexivity.
      * intros keys' groups' s1' E. inversion E; subst.
        rewrite (events_since_app s1' s' evs Hh). exact Hpush.
  - apply send_grouping_stops in Hsend as (r1 & E & Hr1); [|congruence].
    rewrite Hgroup in E. inversion E; subst. split.
    + rewrite (events_since_app s s' evs1 Hh1). intros Hex.
      apply Exists_exists in Hex as (ev & Hin & Hev).
      rewrite Forall_forall in Hevs1. rewrite (Hevs1 ev Hin) in Hev.
      discriminate.
    + intros timeout ->. split; [|intros ? ? ? ?; discriminate].
      intros rs Hrs. subst. discriminate.
  - apply send_grouping_stops in Hsend as (r1 & E & Hr1); [|congruence].
    rewrite Hgroup in E. inversion E; subst. split.
    + rewrite (events_since_app s s' evs1 Hh1). intros Hex.
      apply Exists_exists in Hex as (ev & Hin & Hev).
      rewrite Forall_forall in Hevs1. rewrite (Hevs1 ev Hin) in Hev.
      discriminate.
    + intros timeout ->. split; [|intros ? ? ? ?; discriminate].
      intros rs Hrs. subst. discriminate.
Qed.

(** *** A cluster that does not assign *)

Lemma sleeps_failed_attempts cs es request_id request :
  sleeps (failed_attempts cs es request_id request) = 0%nat.
Proof.
  unfold failed_attempts. revert es.
  induction cs as [|c cs IH]; intros [|e0 es]; try reflexivity.
  apply IH.
Qed.

(** The refresh sleeps and retries for the first topic of the response,
    and stops with the retry unless the retry returns. *)
Lemma load_topics_unassigned retry bs topics s r s' :
  starts_unassigned topics ->
  load_topics retry bs topics s = (r, s') ->
  exists topic s0 r0 s1,
    history s0 = history s ++ [EvSleep 1] /\
    retry topic s0 = (r0, s1) /\
    (r0 ≠ Ok tt -> r = r0 /\ s' = s1).
Proof.
  destruct topics as [|[topic [|[partition meta] partitions]] topics];
    simpl; [contradiction| |]; intros Hstarts Hrun; unfold_M;
    simpl in Hrun.
  - match type of Hrun with
    | retry topic ?x = _ => exists topic, x, r, s'
    end.
    split; [reflexivity|]. split; [exact Hrun|]. auto.
  - rewrite decide_True in Hrun by exact Hstarts.
    unfold sleep, modify in Hrun. simpl in Hrun.
    match type of Hrun with
    | context [retry topic ?x] =>
        destruct (retry topic x) as [r0 s1] eqn:Hretry;
        exists topic, x, r0, s1
    end.
    split; [reflexivity|]. split; [exact Hretry|].
    intros Hne. destruct r0 as [[]|e|]; [congruence| |];
      inversion Hrun; auto.
Qed.

Section never_assigned.
Hypothesis always_unassigned :
  forall h conn request_id request response,
    conn_request h conn request_id request = inl response ->
    starts_unassigned (decode_metadata_response response).2.

(** X7: while every metadata response of the cluster starts with a topic
    that has no partitions, or whose first partition has no leader, a
    refresh does not return: at every depth of the recursion it sleeps
    one second and recurses for that topic, so that it runs out of every
    bound on the depth after as many sleeps, unless at some depth no
    pool answers and the exception for that ends it. *)
Theorem refresh_of_unassigned_never_returns (fuel : nat) :
  forall (topics : list string) (s s' : State) (r : Res unit),
    _load_metadata_for_topics fuel topics s = (r, s') ->
    (r = OutOfFuel /\
     sleeps (history s') = (sleeps (history s) + fuel)%nat) \/
    r = Raise AllServersFailed.
Proof.
  induction fuel as [|fuel IH]; intros topics s s' r Hrun.
  - inversion Hrun; subst. left. split; [reflexivity|lia].
  - rewrite load_unfold in Hrun. cbv zeta in Hrun.
    destruct (unaware_loop _ _ _ _) as [[response|] s0] eqn:Eu.
    + apply unaware_loop_some in Eu
        as (failed & es & c & rest & _ & _ & Hh & _ & _ & _ & _
            & h & Hanswer).
      apply always_unassigned in Hanswer.
      apply (load_topics_unassigned _ _ _ _ _ _ Hanswer) in Hrun
        as (topic & s1 & r1 & s2 & Hh1 & Hretry & Hstops).
      simpl in Hh, Hh1.
      assert (Hsleeps : sleeps (history s1) = S (sleeps (history s))).
      { rewrite Hh1, Hh, !sleeps_app, sleeps_failed_attempts.
        unfold sleeps. simpl. lia. }
      destruct (IH _ _ _ _ Hretry) as [[-> Hs]| ->].
      * destruct Hstops as [-> ->]; [discriminate|].
        left. split; [reflexivity|]. lia.
      * destruct Hstops as [-> ->]; [discriminate|].
        right. reflexivity.
    + inversion Hrun; subst. right. reflexivity.
Qed.
End never_assigned.

(** *** A refresh that needs no retry *)

(** X4: when the first pool asked answers with a response in which every
    topic has partitions and every partition a leader of the broker map
    of the response, the refresh returns after this one request, under
    the next correlation id and without any sleep.  The broker map is
    then the one of the response; each topic of the response has its
    partitions listed in the order of the response, and the lookup of
    each of them returns the broker that the response names, without
    any further request; no other topic has a leader in the cache. *)
Theorem refresh_caches_assigned_response
    (fuel : nat) (requested : list string) (s : State) (response : bytes)
    (bs : gmap Z BrokerMetadata)
    (topics : list (string * list (Z * PartitionMetadata))) :
  conns s ≠ [] ->
  (forall conn,
     conn_request (history s) conn (ID_GEN s)
       (encode_metadata_request (client_id s) (ID_GEN s) requested)
     = inl response) ->
  decode_metadata_response response = (bs, topics) ->
  NoDup topics.*1 ->
  all_assigned bs topics ->
  exists s' conn,
    _load_metadata_for_topics (S fuel) requested s = (Ok tt, s') /\
    history s' =
      history s ++
      [EvRequest conn (ID_GEN s)
         (encode_metadata_request (client_id s) (ID_GEN s) requested)
         (inl response)] /\
    ID_GEN s' = (ID_GEN s + 1)%Z /\
    brokers s' = bs /\
    (forall u partitions,
       (u, partitions) ∈ topics ->
       topic_partitions s' !! u = Some partitions.*1 /\
       forall p m,
         (p, m) ∈ partitions ->
         exists b,
           bs !! leader m = Some b /\
           forall fuel', _get_leader_for_partition fuel' u p s' = (Ok b, s')) /\
    (forall u p,
       u ∉ topics.*1 ->
       topics_to_brokers s' !! (u, p) = None /\
       topic_partitions s' !! u = topic_partitions s !! u).
Proof.
  intros Hpools Hanswer Hdecode Hnodup Hall.
  rewrite load_unfold. cbv zeta.
  destruct (unaware_first_answers
              (set_ID_GEN (fun n => (n + 1)%Z) s) (ID_GEN s)
              (encode_metadata_request (client_id s) (ID_GEN s) requested)
              response Hpools) as (c & Hsend).
  { intros conn. apply Hanswer. }
  change (conns s) with (conns (set_ID_GEN (fun n => (n + 1)%Z) s)).
  rewrite Hsend, Hdecode. simpl fst. simpl snd.
  rewrite (load_topics_commits_all _ _ _ Hall).
  eexists _, c. split; [reflexivity|].
  match goal with |- context [commit_topics _ _ ?x2] =>
    pose proof (commit_topics_spec bs topics Hall Hnodup x2) as Hspec
  end.
  cbv zeta in Hspec.
  match type of Hspec with same_session _ ?y0 /\ _ => set (y := y0) in * end.
  destruct Hspec as ((_ & _ & Hhist & Hbrokers & Hid) & Hother & Hin).
  simpl in Hhist, Hbrokers, Hid.
  split; [exact Hhist|]. split; [exact Hid|]. split; [exact Hbrokers|].
  split.
  - intros u partitions Hu. destruct (Hin u partitions Hu) as [Hlist Hleaders].
    split; [exact Hlist|]. intros p m Hp.
    unfold all_assigned in Hall. rewrite Forall_forall in Hall.
    destruct (Hall _ Hu) as (_ & _ & Hassigned). simpl in Hassigned.
    unfold assigned in Hassigned. rewrite Forall_forall in Hassigned.
    destruct (Hassigned _ Hp) as [_ [b Hb]]. simpl in Hb.
    exists b. split; [exact Hb|]. intros fuel'.
    apply get_leader_hit. rewrite (Hleaders p m Hp). exact Hb.
  - intros u p Hu. destruct (Hother u Hu) as [Hlist Hleaders].
    split; [rewrite Hleaders; apply lookup_empty|exact Hlist].
Qed.

(** *** A response that names an unknown leader *)

Lemma load_partitions_unknown_leader retry bs topic partitions p m rest :
  assigned bs partitions ->
  leader m ≠ (-1)%Z -> bs !! leader m = None ->
  forall s,
    load_partitions retry bs topic (partitions ++ (p, m) :: rest) s
    = (Raise (KeyError_brokers (leader m)),
       foldl (commit_partition bs topic) s partitions).
Proof.
  intros Hassigned Hl Hm.
  induction Hassigned as [|[partition meta] partitions [Hl' [b Hb]] _ IH];
    intros s; simpl.
  - unfold_M. rewrite decide_False by exact Hl. rewrite Hm. reflexivity.
  - simpl in Hl', Hb. unfold_M. rewrite decide_False by exact Hl'.
    rewrite Hb. simpl. rewrite IH. unfold commit_partition. simpl.
    rewrite Hb. reflexivity.
Qed.

(** X8: when the response names, for a partition of the topic [t], a leader
    that is not in its broker map, the refresh raises the key error for
    this leader.  The cache is not rolled back: the broker map is the one
    of the response, the topics that the response lists before [t] are
    cached with their leaders, and no other topic but [t] has a leader in
    the cache any more, whatever the cache held before. *)
Theorem refresh_with_unknown_leader
    (fuel : nat) (requested : list string) (s : State) (response : bytes)
    (bs : gmap Z BrokerMetadata) (t : string)
    (before after : list (string * list (Z * PartitionMetadata)))
    (partitions rest : list (Z * PartitionMetadata))
    (p : Z) (m : PartitionMetadata) :
  conns s ≠ [] ->
  (forall conn,
     conn_request (history s) conn (ID_GEN s)
       (encode_metadata_request (client_id s) (ID_GEN s) requested)
     = inl response) ->
  decode_metadata_response response
  = (bs, before ++ (t, partitions ++ (p, m) :: rest) :: after) ->
  NoDup (before ++ (t, partitions ++ (p, m) :: rest) :: after).*1 ->
  all_assigned bs before ->
  assigned bs partitions ->
  leader m ≠ (-1)%Z ->
  bs !! leader m = None ->
  exists s',
    _load_metadata_for_topics (S fuel) requested s
    = (Raise (KeyError_brokers (leader m)), s') /\
    brokers s' = bs /\
    (forall u listed q mq,
       (u, listed) ∈ before -> (q, mq) ∈ listed ->
       topics_to_brokers s' !! (u, q) = bs !! leader mq) /\
    (forall u q,
       u ∉ before.*1 -> u ≠ t -> topics_to_brokers s' !! (u, q) = None).
Proof.
  intros Hpools Hanswer Hdecode Hnodup Hall Hassigned Hl Hm.
  rewrite fmap_app, fmap_cons in Hnodup. simpl in Hnodup.
  apply NoDup_app in Hnodup as (Hnd_before & Hdisjoint & _).
  assert (Ht_before : t ∉ before.*1).
  { intros Hin. apply (Hdisjoint t Hin). left. }
  rewrite load_unfold. cbv zeta.
  destruct (unaware_first_answers
              (set_ID_GEN (fun n => (n + 1)%Z) s) (ID_GEN s)
              (encode_metadata_request (client_id s) (ID_GEN s) requested)
              response Hpools) as (c & Hsend).
  { intros conn. apply Hanswer. }
  change (conns s) with (conns (set_ID_GEN (fun n => (n + 1)%Z) s)).
  rewrite Hsend, Hdecode. simpl fst. simpl snd.
  rewrite (load_topics_commits _ _ _ _ Hall).
  match goal with |- context [commit_topics _ _ ?x2] =>
    pose proof (commit_topics_spec bs before Hall Hnd_before x2) as Hspec;
    set (x := x2) in *
  end.
  cbv zeta in Hspec.
  destruct Hspec as ((_ & _ & _ & Hbrokers & _) & Hother & Hin).
  assert (Hrun :
    load_topics (fun topic => _load_metadata_for_topics fuel [topic]) bs
      ((t, partitions ++ (p, m) :: rest) :: after) (commit_topics bs before x)
    = (Raise (KeyError_brokers (leader m)),
       foldl (commit_partition bs t)
             (set_topic_partitions (delete t) (commit_topics bs before x))
             partitions)).
  { simpl. unfold_M. simpl.
    destruct (partitions ++ (p, m) :: rest) as [|pm pms] eqn:E.
    - destruct partitions; discriminate.
    - rewrite <- E.
      rewrite (load_partitions_unknown_leader _ _ _ _ _ _ _ Hassigned Hl Hm).
      reflexivity. }
  rewrite Hrun. eexists. split; [reflexivity|].
  split; [|split].
  - destruct (commit_partitions_session bs t partitions
                (set_topic_partitions (delete t) (commit_topics bs before x)))
      as (_ & _ & _ & Hb & _).
    rewrite Hb. exact Hbrokers.
  - intros u listed q mq Hu Hq.
    assert (Hne : u ≠ t).
    { intros ->. apply Ht_before. apply list_elem_of_fmap.
      exists (t, listed). auto. }
    rewrite commit_partitions_leader_other by (left; exact Hne).
    simpl. apply (Hin u listed Hu). exact Hq.
  - intros u q Hu Hne.
    rewrite commit_partitions_leader_other by (left; exact Hne).
    simpl. destruct (Hother u Hu) as [_ Hleaders].
    rewrite Hleaders. apply lookup_empty.
Qed.
End properties.

(** ** The properties on the stub clusters *)

Ltac by_evaluation := vm_compute; reflexivity.
Ltac each_by_evaluation :=
  repeat match goal with |- _ /\ _ => split end; by_evaluation.

Lemma unaware_send_order_and_unreachable_witness :
  let s := new_client "kafka0" 9092 4096 "kafka-python" 50 0 [] in
  @every_pool_fails cluster_down (history s)
    (snd <$> @dict_items insertion_order _ _ (conns s)) (ID_GEN s)
    (@encode_metadata_request stub_codec (client_id s) (ID_GEN s) []) /\
  exists s',
    @_load_metadata_for_topics cluster_down stub_codec insertion_order 1 [] s
      = (Raise AllServersFailed, s') /\
    same_cache s s'.
Proof.
  cbv zeta.
  assert (Hfails :
    @every_pool_fails cluster_down []
      [mkKafkaConnectionPool 50 "kafka0" 9092 4096] 0 "").
  { simpl. exists ConnectionError. split; reflexivity. }
  split; [exact Hfails|].
  exact (proj2 (@unaware_send_order_and_unreachable
                  cluster_down stub_codec insertion_order
                  (new_client "kafka0" 9092 4096 "kafka-python" 50 0 []))
               0%nat [] Hfails).
Defined.

Lemma leader_lookup_hit_or_single_refresh_witness :
  (let s := client_on cluster_up 1 in
   topics_to_brokers s !! ("t", 1%Z) = Some broker1 /\
   @_get_leader_for_partition cluster_up stub_codec insertion_order
     0 "t" 1 s = (Ok broker1, s)) /\
  (let s := new_client "kafka0" 9092 4096 "kafka-python" 50 0 [] in
   let refresh :=
     @_load_metadata_for_topics cluster_up stub_codec insertion_order
       1 ["t"] s in
   topics_to_brokers s !! ("t", 1%Z) = None /\
   refresh = (Ok tt, snd refresh) /\
   topics_to_brokers (snd refresh) !! ("t", 1%Z) = Some broker1 /\
   @_get_leader_for_partition cluster_up stub_codec insertion_order
     1 "t" 1 s = (Ok broker1, snd refresh)).
Proof.
  cbv zeta. split.
  - assert (Hhit : topics_to_brokers (client_on cluster_up 1) !! ("t", 1%Z)
                   = Some broker1) by by_evaluation.
    split; [exact Hhit|].
    exact (proj1 (@leader_lookup_hit_or_single_refresh
                    cluster_up stub_codec insertion_order 0 "t" 1%Z
                    (client_on cluster_up 1)) broker1 Hhit).
  - set (s := new_client "kafka0" 9092 4096 "kafka-python" 50 0 []).
    set (refresh := @_load_metadata_for_topics cluster_up stub_codec
                      insertion_order 1 ["t"] s).
    assert (Hmiss : topics_to_brokers s !! ("t", 1%Z) = None)
      by by_evaluation.
    assert (Hrefresh : refresh = (Ok tt, snd refresh)) by by_evaluation.
    assert (Hthen : topics_to_brokers (snd refresh) !! ("t", 1%Z)
                    = Some broker1) by by_evaluation.
    split; [exact Hmiss|]. split; [exact Hrefresh|]. split; [exact Hthen|].
    rewrite (proj2 (@leader_lookup_hit_or_single_refresh
                      cluster_up stub_codec insertion_order 1 "t" 1%Z s)
                   Hmiss (Ok tt) (snd refresh) Hrefresh).
    rewrite Hthen. reflexivity.
Defined.

Lemma aware_send_in_input_order_witness :
  let payloads := [payload_t0; payload_t1; payload_t0'] in
  let sending := sending_on cluster_up payloads in
  let resps := GenExpr (accumulate ∅ [response_a; response_b])
                       (payload_key <$> payloads) in
  let rs := [response_a; response_b; response_a] in
  sending = (Ok resps, snd sending) /\
  list_of resps = Ok rs /\
  resps ≠ EmptyTuple /\
  length rs = length payloads.
Proof.
  cbv zeta.
  set (payloads := [payload_t0; payload_t1; payload_t0']).
  set (resps := GenExpr (accumulate ∅ [response_a; response_b])
                        (payload_key <$> payloads)).
  assert (Hsend : sending_on cluster_up payloads
                  = (Ok resps, snd (sending_on cluster_up payloads)))
    by by_evaluation.
  assert (Hlist : list_of resps = Ok [response_a; response_b; response_a])
    by by_evaluation.
  assert (Hgen : resps ≠ EmptyTuple) by discriminate.
  split; [exact Hsend|]. split; [exact Hlist|]. split; [exact Hgen|].
  exact (proj1 (@aware_send_in_input_order
                  cluster_up stub_codec insertion_order 1 payloads
                  stub_encoder stub_decoder (client_on cluster_up 1)
                  (snd (sending_on cluster_up payloads)) resps
                  [response_a; response_b; response_a]
                  Hsend Hlist Hgen)).
Defined.

(** C1, as stated, fails: a send with a decoder and without transport
    failure whose broker answers without any response returns the empty
    tuple, for an input of one payload. *)
Lemma aware_send_nothing_decoded :
  let sending := sending_on silent [payload_t0] in
  sending = (Ok EmptyTuple, snd sending) /\
  Forall (fun ev => event_result_failed ev = false)
         (events_since (client_on silent 1) (snd sending)) /\
  list_of EmptyTuple = Ok [] /\
  length ([] : list Response) ≠ length [payload_t0].
Proof.
  cbv zeta. split; [by_evaluation|].
  split; [vm_compute; repeat constructor|].
  split; [reflexivity|discriminate].
Qed.

(** C1: the payloads of a key that occurs twice need not be in one
    group.  The leader of t is looked up in the cache for the first
    payload; the refresh for partition 1 moves t to broker 2, where the
    third payload, for the key of the first, is sent. *)
Example duplicate_keys_in_two_groups :
  let payloads := [payload_t0; payload_t1; payload_t0'] in
  payload_key payload_t0 = payload_key payload_t0' /\
  grouping_on moving payloads
  = (Ok (payload_key <$> payloads,
         [(broker1, [payload_t0]); (broker2, [payload_t1; payload_t0'])]),
     snd (grouping_on moving payloads)).
Proof.
  cbv zeta. split; [reflexivity|by_evaluation].
Qed.

Lemma aware_send_missing_or_empty_witness :
  (let grouping := grouping_on silent [payload_t0] in
   let sending := sending_on silent [payload_t0] in
   grouping = (Ok ([("t", 0%Z)], [(broker1, [payload_t0])]), snd grouping) /\
   sending = (Ok EmptyTuple, snd sending) /\
   decoded (Some stub_decoder) (events_since (snd grouping) (snd sending))
     = [] /\
   list_of EmptyTuple = Ok []) /\
  (let payloads := [payload_t0; payload_t1] in
   let grouping := grouping_on partial payloads in
   let resps := GenExpr (accumulate ∅ [response_a])
                        (payload_key <$> payloads) in
   let sending := sending_on partial payloads in
   let responses :=
     decoded (Some stub_decoder) (events_since (snd grouping) (snd sending)) in
   grouping = (Ok (payload_key <$> payloads, [(broker1, payloads)]),
               snd grouping) /\
   sending = (Ok resps, snd sending) /\
   responses = [response_a] /\
   (payload_key payload_t1 ∉ resp_key <$> responses) /\
   exists k, list_of resps = Raise (KeyError_acc k) /\
             k ∈ payload_key <$> payloads /\
             k ∉ resp_key <$> responses).
Proof.
  split; cbv zeta.
  - assert (Hgroup : grouping_on silent [payload_t0]
                     = (Ok ([("t", 0%Z)], [(broker1, [payload_t0])]),
                        snd (grouping_on silent [payload_t0])))
      by by_evaluation.
    assert (Hsend : sending_on silent [payload_t0]
                    = (Ok EmptyTuple, snd (sending_on silent [payload_t0])))
      by by_evaluation.
    assert (Hnone : decoded (Some stub_decoder)
                      (events_since (snd (grouping_on silent [payload_t0]))
                                    (snd (sending_on silent [payload_t0])))
                    = []) by by_evaluation.
    split; [exact Hgroup|]. split; [exact Hsend|]. split; [exact Hnone|].
    exact (proj2 (proj1 (proj2 (@aware_send_missing_or_empty
                                  silent stub_codec insertion_order
                                  1 [payload_t0] stub_encoder stub_decoder
                                  (client_on silent 1) _ _ _ _ _
                                  Hgroup Hsend))
                        Hnone)).
  - set (payloads := [payload_t0; payload_t1]).
    set (resps := GenExpr (accumulate ∅ [response_a])
                          (payload_key <$> payloads)).
    assert (Hgroup : grouping_on partial payloads
                     = (Ok (payload_key <$> payloads, [(broker1, payloads)]),
                        snd (grouping_on partial payloads)))
      by by_evaluation.
    assert (Hsend : sending_on partial payloads
                    = (Ok resps, snd (sending_on partial payloads)))
      by by_evaluation.
    set (responses := decoded (Some stub_decoder)
                        (events_since (snd (grouping_on partial payloads))
                                      (snd (sending_on partial payloads)))).
    assert (Hsome : responses = [response_a]) by by_evaluation.
    assert (Hmiss : payload_key payload_t1 ∉ resp_key <$> responses).
    { rewrite Hsome. intros Hin. apply list_elem_of_singleton in Hin.
      discriminate. }
    split; [exact Hgroup|]. split; [exact Hsend|]. split; [exact Hsome|].
    split; [exact Hmiss|].
    apply (proj2 (proj2 (@aware_send_missing_or_empty
                           partial stub_codec insertion_order
                           1 payloads stub_encoder stub_decoder
                           (client_on partial 1) _ _ _ _ _
                           Hgroup Hsend))).
    + fold responses. rewrite Hsome. discriminate.
    + exists payload_t1. split; [right; left|exact Hmiss].
Defined.

Lemma partial_failure_is_exact_witness :
  (let payloads := [payload_t0; payload_u0; payload_t0'] in
   let groups :=
     [(broker1, [payload_t0; payload_t0']); (broker2, [payload_u0])] in
   let grouping := grouping_on half_down payloads in
   let sending := sending_on half_down payloads in
   let evs := events_since (snd grouping) (snd sending) in
   grouping = (Ok (payload_key <$> payloads, groups), snd grouping) /\
   Exists (fun ev => event_result_failed ev = true) evs /\
   Forall (fun ev => event_propagated ev = false) evs /\
   sending = (Raise (FailedPayloadsException [payload_u0]), snd sending) /\
   exists fp,
     fst sending = Raise (FailedPayloadsException fp) /\
     forall p,
       p ∈ fp <->
       exists i g ev,
         groups !! i = Some g /\ evs !! i = Some ev /\
         event_result_failed ev = true /\ p ∈ g.2) /\
  (let payloads := [payload_t0; payload_u0] in
   let groups := [(broker1, [payload_t0]); (broker2, [payload_u0])] in
   let grouping := grouping_on breaking payloads in
   let sending := sending_on breaking payloads in
   let evs := events_since (snd grouping) (snd sending) in
   grouping = (Ok (payload_key <$> payloads, groups), snd grouping) /\
   Exists (fun ev => event_result_failed ev = true) evs /\
   Exists (fun ev => event_propagated ev = true) evs /\
   exists te, fst sending = Raise (Propagated te) /\ te ≠ ConnectionError).
Proof.
  cbv zeta. split.
  - set (payloads := [payload_t0; payload_u0; payload_t0']).
    set (groups :=
           [(broker1, [payload_t0; payload_t0']); (broker2, [payload_u0])]).
    assert (Hgroup : grouping_on half_down payloads
                     = (Ok (payload_key <$> payloads, groups),
                        snd (grouping_on half_down payloads)))
      by by_evaluation.
    assert (Hsend : sending_on half_down payloads
                    = (fst (sending_on half_down payloads),
                       snd (sending_on half_down payloads)))
      by (destruct (sending_on half_down payloads); reflexivity).
    assert (Hcaught :
              Forall (fun ev => event_propagated ev = false)
                     (events_since (snd (grouping_on half_down payloads))
                                   (snd (sending_on half_down payloads))))
      by (vm_compute; repeat constructor).
    assert (Hfailed :
              Exists (fun ev => event_result_failed ev = true)
                     (events_since (snd (grouping_on half_down payloads))
                                   (snd (sending_on half_down payloads))))
      by (vm_compute; apply Exists_cons_tl, Exists_cons_hd; reflexivity).
    split; [exact Hgroup|]. split; [exact Hfailed|].
    split; [exact Hcaught|]. split; [by_evaluation|].
    destruct (proj1 (@partial_failure_is_exact
                       half_down stub_codec insertion_order
                       1 payloads stub_encoder (Some stub_decoder)
                       (client_on half_down 1) _ _ _ _ _
                       Hgroup Hsend Hfailed) Hcaught)
      as (_ & fp & Hraise & _ & Hexact).
    exists fp. split; [exact Hraise|exact Hexact].
  - set (payloads := [payload_t0; payload_u0]).
    set (groups := [(broker1, [payload_t0]); (broker2, [payload_u0])]).
    assert (Hgroup : grouping_on breaking payloads
                     = (Ok (payload_key <$> payloads, groups),
                        snd (grouping_on breaking payloads)))
      by by_evaluation.
    assert (Hsend : sending_on breaking payloads
                    = (fst (sending_on breaking payloads),
                       snd (sending_on breaking payloads)))
      by (destruct (sending_on breaking payloads); reflexivity).
    assert (Hfailed :
              Exists (fun ev => event_result_failed ev = true)
                     (events_since (snd (grouping_on breaking payloads))
                                   (snd (sending_on breaking payloads))))
      by (vm_compute; apply Exists_cons_hd; reflexivity).
    assert (Hraised :
              Exists (fun ev => event_propagated ev = true)
                     (events_since (snd (grouping_on breaking payloads))
                                   (snd (sending_on breaking payloads))))
      by (vm_compute; apply Exists_cons_tl, Exists_cons_hd; reflexivity).
    split; [exact Hgroup|]. split; [exact Hfailed|].
    split; [exact Hraised|].
    exact (proj2 (@partial_failure_is_exact
                    breaking stub_codec insertion_order
                    1 payloads stub_encoder (Some stub_decoder)
                    (client_on breaking 1) _ _ _ _ _
                    Hgroup Hsend Hfailed) Hraised).
Defined.

(** C2, as stated, fails: the call of the group of broker 1 raises a
    connection error and the call of the group of broker 2 an error of
    another kind; the send raises the latter, and no exception for the
    failed payloads of broker 1. *)
Lemma partial_failure_lost_to_other_error :
  let payloads := [payload_t0; payload_u0] in
  let grouping := grouping_on breaking payloads in
  let sending := sending_on breaking payloads in
  let evs := events_since (snd grouping) (snd sending) in
  grouping
  = (Ok (payload_key <$> payloads,
         [(broker1, [payload_t0]); (broker2, [payload_u0])]),
     snd grouping) /\
  event_host <$> evs = ["kafka1"; "kafka2"] /\
  event_result_failed <$> evs = [true; false] /\
  event_propagated <$> evs = [false; true] /\
  sending = (Raise (Propagated OtherTransportError), snd sending) /\
  forall fp, fst sending ≠ Raise (FailedPayloadsException fp).
Proof.
  cbv zeta.
  assert (Hsend :
    sending_on breaking [payload_t0; payload_u0]
    = (Raise (Propagated OtherTransportError),
       snd (sending_on breaking [payload_t0; payload_u0])))
    by by_evaluation.
  split; [by_evaluation|]. split; [by_evaluation|].
  split; [by_evaluation|]. split; [by_evaluation|].
  split; [exact Hsend|]. intros fp. rewrite Hsend. discriminate.
Qed.

Lemma transport_failure_does_not_abort_witness :
  (let payloads := [payload_u0; payload_t0] in
   let groups := [(broker2, [payload_u0]); (broker1, [payload_t0])] in
   let grouping := grouping_on half_down payloads in
   let sending := sending_on half_down payloads in
   let evs := events_since (snd grouping) (snd sending) in
   grouping = (Ok (payload_key <$> payloads, groups), snd grouping) /\
   Forall (fun ev => event_propagated ev = false) evs /\
   (event_result_failed <$> evs) = [true; false] /\
   replies evs = ["t0"] /\
   Forall2 (sent_to stub_encoder (Some stub_decoder) (snd grouping))
           groups evs /\
   topics_to_brokers (client_on half_down 1) !! ("t", 0%Z) = Some broker1 /\
   topics_to_brokers (snd sending) = ∅) /\
  (let payloads := [payload_t0; payload_u0] in
   let groups := [(broker1, [payload_t0]); (broker2, [payload_u0])] in
   let grouping := grouping_on aborting payloads in
   let sending := sending_on aborting payloads in
   let evs := events_since (snd grouping) (snd sending) in
   grouping = (Ok (payload_key <$> payloads, groups), snd grouping) /\
   Exists (fun ev => event_propagated ev = true) evs /\
   length evs = 1%nat /\
   exists te sent ev,
     fst sending = Raise (Propagated te) /\ te ≠ ConnectionError /\
     evs = sent ++ [ev] /\ event_propagated ev = true /\
     Forall (fun ev => event_propagated ev = false) sent /\
     Forall2 (sent_to stub_encoder (Some stub_decoder) (snd grouping))
             (take (length evs) groups) evs /\
     (length evs <= length groups)%nat).
Proof.
  cbv zeta. split.
  - set (payloads := [payload_u0; payload_t0]).
    set (groups := [(broker2, [payload_u0]); (broker1, [payload_t0])]).
    assert (Hgroup : grouping_on half_down payloads
                     = (Ok (payload_key <$> payloads, groups),
                        snd (grouping_on half_down payloads)))
      by by_evaluation.
    assert (Hsend : sending_on half_down payloads
                    = (fst (sending_on half_down payloads),
                       snd (sending_on half_down payloads)))
      by (destruct (sending_on half_down payloads); reflexivity).
    set (evs := events_since (snd (grouping_on half_down payloads))
                             (snd (sending_on half_down payloads))).
    assert (Hcaught : Forall (fun ev => event_propagated ev = false) evs)
      by (vm_compute; repeat constructor).
    assert (Hresults : (event_result_failed <$> evs) = [true; false])
      by by_evaluation.
    destruct (proj1 (@transport_failure_does_not_abort
                       half_down stub_codec insertion_order
                       1 payloads stub_encoder (Some stub_decoder)
                       (client_on half_down 1) _ _ _ _ _ Hgroup Hsend)
                    Hcaught)
      as (Hsent & Hinvalidated).
    split; [exact Hgroup|]. split; [exact Hcaught|].
    split; [exact Hresults|].
    split; [by_evaluation|]. split; [exact Hsent|]. split; [by_evaluation|].
    destruct (evs !! 0%nat) as [ev|] eqn:Hev;
      [|vm_compute in Hev; discriminate].
    refine (proj1 (Hinvalidated 0%nat (broker2, [payload_u0]) ev
                     eq_refl Hev _)).
    vm_compute in Hev. inversion Hev. reflexivity.
  - set (payloads := [payload_t0; payload_u0]).
    set (groups := [(broker1, [payload_t0]); (broker2, [payload_u0])]).
    assert (Hgroup : grouping_on aborting payloads
                     = (Ok (payload_key <$> payloads, groups),
                        snd (grouping_on aborting payloads)))
      by by_evaluation.
    assert (Hsend : sending_on aborting payloads
                    = (fst (sending_on aborting payloads),
                       snd (sending_on aborting payloads)))
      by (destruct (sending_on aborting payloads); reflexivity).
    set (evs := events_since (snd (grouping_on aborting payloads))
                             (snd (sending_on aborting payloads))).
    assert (Hraised : Exists (fun ev => event_propagated ev = true) evs)
      by (vm_compute; apply Exists_cons_hd; reflexivity).
    split; [exact Hgroup|]. split; [exact Hraised|].
    split; [by_evaluation|].
    exact (proj2 (@transport_failure_does_not_abort
                    aborting stub_codec insertion_order
                    1 payloads stub_encoder (Some stub_decoder)
                    (client_on aborting 1) _ _ _ _ _ Hgroup Hsend)
                 Hraised).
Defined.

(** C4, as stated, fails: the call of the group of broker 1 raises an
    error that is not a connection error.  The send raises it at once:
    the group of broker 2, which would answer, is not sent, no payload
    is recorded as failed, and the leader map is as before. *)
Lemma other_failure_aborts_dispatch :
  let payloads := [payload_t0; payload_u0] in
  let grouping := grouping_on aborting payloads in
  let sending := sending_on aborting payloads in
  let evs := events_since (snd grouping) (snd sending) in
  grouping
  = (Ok (payload_key <$> payloads,
         [(broker1, [payload_t0]); (broker2, [payload_u0])]),
     snd grouping) /\
  event_host <$> evs = ["kafka1"] /\
  event_propagated <$> evs = [true] /\
  sending = (Raise (Propagated OtherTransportError), snd sending) /\
  topics_to_brokers (snd sending) = topics_to_brokers (snd grouping) /\
  topics_to_brokers (snd sending) !! ("u", 0%Z) = Some broker2.
Proof.
  cbv zeta. each_by_evaluation.
Qed.

Lemma refresh_frame_witness :
  let s := client_on narrowing 1 in
  let refresh :=
    @_load_metadata_for_topics narrowing stub_codec insertion_order 1 ["t"]
      s in
  refresh = (Ok tt, snd refresh) /\
  replies (events_since s (snd refresh)) = ["t only"] /\
  Forall (fun response =>
            "u" ∉ (@decode_metadata_response stub_codec response).2.*1)
         (replies (events_since s (snd refresh))) /\
  topic_partitions s !! "u" = Some [0%Z] /\
  topic_partitions (snd refresh) !! "u" = topic_partitions s !! "u" /\
  forall partition, topics_to_brokers (snd refresh) !! ("u", partition) = None.
Proof.
  cbv zeta.
  set (s := client_on narrowing 1).
  set (refresh := @_load_metadata_for_topics narrowing stub_codec
                    insertion_order 1 ["t"] s).
  assert (Hrun : refresh = (Ok tt, snd refresh)) by by_evaluation.
  assert (Hreplies : replies (events_since s (snd refresh)) = ["t only"])
    by by_evaluation.
  assert (Hunreported :
    Forall (fun response =>
              "u" ∉ (@decode_metadata_response stub_codec response).2.*1)
           (replies (events_since s (snd refresh)))).
  { rewrite Hreplies. constructor; [|constructor].
    vm_compute. intros Hin. apply list_elem_of_singleton in Hin.
    discriminate. }
  destruct (@refresh_frame narrowing stub_codec insertion_order
              1 ["t"] s (snd refresh) (Ok tt) "u" Hrun Hunreported)
    as [Hlist Hleaders].
  split; [exact Hrun|]. split; [exact Hreplies|].
  split; [exact Hunreported|]. split; [by_evaluation|].
  split; [exact Hlist|]. exact (Hleaders eq_refl).
Defined.

(** C5, as stated, fails: a refresh for t, answered for t alone, drops the
    cached leader of u, a topic neither requested nor reported. *)
Lemma refresh_drops_other_leaders :
  let s := client_on narrowing 1 in
  let refresh :=
    @_load_metadata_for_topics narrowing stub_codec insertion_order 1 ["t"]
      s in
  topics_to_brokers s !! ("u", 0%Z) = Some broker2 /\
  refresh = (Ok tt, snd refresh) /\
  replies (events_since s (snd refresh)) = ["t only"] /\
  ("u" ∉ (@decode_metadata_response stub_codec "t only").2.*1) /\
  topics_to_brokers (snd refresh) !! ("u", 0%Z) = None /\
  topic_partitions (snd refresh) !! "u" = Some [0%Z].
Proof.
  cbv zeta. split; [by_evaluation|]. split; [by_evaluation|].
  split; [by_evaluation|]. split; [|split; by_evaluation].
  vm_compute. intros Hin. apply list_elem_of_singleton in Hin. discriminate.
Qed.

(** C6, at the failing input: the first response reports t without
    partitions and then u, led by broker 1.  The refresh waits once and
    asks again for t, and then leaves the loop: u, a topic of the first
    response with an assigned leader, is never processed. *)
Lemma refresh_skips_topics_after_unassigned :
  let s' := client_on creating 2 in
  @stub_client creating 2 = (Ok tt, s') /\
  (@decode_metadata_response stub_codec "t empty, u on 1").2
    = [("t", []); ("u", [led_by "u" 0 1])] /\
  replies (history s') = ["t empty, u on 1"; "t only"] /\
  filter (fun ev => negb (is_call ev)) (history s') = [EvSleep 1] /\
  topics_to_brokers s' !! ("t", 0%Z) = Some broker1 /\
  topics_to_brokers s' !! ("u", 0%Z) = None /\
  topic_partitions s' !! "u" = None.
Proof.
  cbv zeta. each_by_evaluation.
Qed.

(** The stub of the spec: t has no leader in the first response and is on
    broker 1 in the second.  The refresh waits once and asks again, and a
    leader lookup then finds broker 1 in the cache. *)
Example refresh_retries_until_assigned :
  let s' := client_on assigning 2 in
  @stub_client assigning 2 = (Ok tt, s') /\
  filter (fun ev => negb (is_call ev)) (history s') = [EvSleep 1] /\
  replies (history s') = ["t unassigned"; "t on 1"] /\
  @_get_leader_for_partition assigning stub_codec insertion_order
    0 "t" 0 s' = (Ok broker1, s').
Proof.
  cbv zeta. each_by_evaluation.
Qed.

(** C8, at the failing input: in strict mode a response with error code 3
    makes [send_produce_request] raise the mapped class with the topic
    and partition and the code, while [send_offset_request] raises it
    with the code alone. *)
Lemma offset_failure_carries_no_partition :
  let s := client_on refusing 1 in
  fst (@send_produce_request refusing stub_codec insertion_order 1
         [payload_t0] 1 1000 true s)
  = Raise (RequestFailed (MappedException "UnknownTopicOrPartitionError")
             "ProduceRequest for %s failed with errorcode=%d"
             (Some ("t", 0%Z)) 3) /\
  fst (@send_offset_request refusing stub_codec insertion_order 1
         [payload_t0] true s)
  = Raise (RequestFailed (MappedException "UnknownTopicOrPartitionError")
             "OffsetRequest failed with errorcode=%s" None 3).
Proof.
  cbv zeta. each_by_evaluation.
Qed.

(** C9, at the failing input: partition 0 of t has no leader in the first
    response, which knows broker 1 only; the second response knows broker
    2 only.  After the retry the loop goes on with partition 1 of the
    first response, so that the constructed client maps (t, 1) to broker
    1 while its broker map holds broker 2 alone, and lists partition 1
    twice. *)
Lemma construction_breaks_invariant :
  let s' := client_on electing 2 in
  @stub_client electing 2 = (Ok tt, s') /\
  topics_to_brokers s' !! ("t", 1%Z) = Some broker1 /\
  brokers s' !! nodeId broker1 = None /\
  topic_partitions s' !! "t" = Some [0; 1; 1]%Z /\
  ~ cluster_view_invariant s'.
Proof.
  cbv zeta.
  assert (Hleader : topics_to_brokers (client_on electing 2) !! ("t", 1%Z)
                    = Some broker1) by by_evaluation.
  assert (Hbroker : brokers (client_on electing 2) !! nodeId broker1 = None)
    by by_evaluation.
  split; [by_evaluation|]. split; [exact Hleader|]. split; [exact Hbroker|].
  split; [by_evaluation|].
  intros Hinv. destruct (Hinv "t" 1%Z broker1 Hleader) as (_ & Hknown & _).
  rewrite Hbroker in Hknown. discriminate.
Qed.

(** The invariant on a cluster that always reports t on broker 1. *)
Example steady_cluster_keeps_invariant :
  cluster_view_invariant (client_on steady 1).
Proof.
  assert (Hsettled : forall h conn request_id request response,
            @conn_request steady h conn request_id request = inl response ->
            settled (@decode_metadata_response stub_codec response)).
  { intros h conn request_id request response Hanswer.
    simpl in Hanswer. inversion Hanswer; subst response.
    assert (Hdecode :
      @decode_metadata_response stub_codec "t only"
      = ({[ 1%Z := broker1; 2%Z := broker2 ]}, [("t", [led_by "t" 0 1])]))
      by (vm_compute; reflexivity).
    rewrite Hdecode. split; [|split]; simpl.
    - intros i b Hb.
      apply lookup_insert_Some in Hb as [[<- <-]|[_ Hb]]; [reflexivity|].
      apply lookup_singleton_Some in Hb as [<- <-]. reflexivity.
    - repeat constructor. intros Hin. inversion Hin.
    - repeat constructor; try discriminate.
      + simpl. intros Hin. inversion Hin.
      + simpl. exists broker1. reflexivity. }
  apply (proj1 (@settled_cluster_keeps_invariant
                  steady stub_codec insertion_order Hsettled)
               1%nat "kafka0" 9092%Z 4096%Z "kafka-python" 50%Z 0%Z []
               (fst (@stub_client steady 1))).
  unfold client_on, stub_client.
  destruct (@__init__ steady stub_codec insertion_order 1 "kafka0" 9092 4096
              "kafka-python" 50 0 []); reflexivity.
Defined.

(** The stub of the spec, answering in the same way whenever it is asked
    again: the construction returns after one sleep, and the lookups of
    both partitions of t find broker 1. *)
Example once_unassigned_is_retried :
  exists s',
    @stub_client once_unassigned 2 = (Ok tt, s') /\
    sleeps (history s') = 1%nat /\
    forall fuel p,
      p = 0%Z \/ p = 1%Z ->
      @_get_leader_for_partition once_unassigned stub_codec insertion_order
        fuel "t" p s' = (Ok broker1, s').
Proof.
  destruct (@refresh_retries_absent_leader
              once_unassigned stub_codec insertion_order
              (new_client "kafka0" 9092 4096 "kafka-python" 50 0 [])
              "t unassigned" "t on 1" "t"
              {[ 1%Z := broker1 ]} {[ 1%Z := broker1 ]} [] []
              [led_by "t" 0 (-1)] [led_by "t" 0 1; led_by "t" 1 1])
    with (fuel := 0%nat) (topics := @nil string)
    as (s' & Hrun & Hsleeps & Hleaders & _).
  - discriminate.
  - reflexivity.
  - intros [|ev evs] conn request_id request Hne; [congruence|].
    reflexivity.
  - reflexivity.
  - reflexivity.
  - vm_compute. repeat constructor. intros Hin. inversion Hin.
  - constructor.
  - constructor.
  - discriminate.
  - repeat constructor.
  - split; [|split].
    + intros i b Hb. simpl in Hb.
      apply lookup_singleton_Some in Hb as [<- <-]. reflexivity.
    + vm_compute. repeat constructor. intros Hin. inversion Hin.
    + repeat constructor; try discriminate.
      * vm_compute. intros Hin. apply list_elem_of_singleton in Hin.
        discriminate.
      * vm_compute. intros Hin. inversion Hin.
      * eexists. apply lookup_singleton_eq.
      * eexists. apply lookup_singleton_eq.
  - exists s'. split; [exact Hrun|]. split; [exact Hsleeps|].
    intros fuel p [-> | ->].
    + destruct (Hleaders 0%Z (led_by "t" 0 1).2) as (b & Hb & Hget);
        [left|].
      simpl in Hb. rewrite lookup_singleton_eq in Hb. inversion Hb; subst b.
      apply Hget.
    + destruct (Hleaders 1%Z (led_by "t" 1 1).2) as (b & Hb & Hget);
        [right; left|].
      simpl in Hb. rewrite lookup_singleton_eq in Hb. inversion Hb; subst b.
      apply Hget.
Defined.

(** ** Further properties on the stub clusters *)

(** A refresh with one retry: two requests to the bootstrap pool and a
    sleep. *)
Lemma refresh_uses_registry_only_witness :
  let s := new_client "kafka0" 9092 4096 "kafka-python" 50 0 [] in
  let refresh :=
    @_load_metadata_for_topics assigning stub_codec insertion_order 2 [] s in
  refresh = (Ok tt, snd refresh) /\
  length (events_since s (snd refresh)) = 3%nat /\
  conns (snd refresh) = conns s /\
  history (snd refresh) = history s ++ events_since s (snd refresh) /\
  Forall (@refresh_event stub_codec (client_id s) (conns s).*2)
         (events_since s (snd refresh)) /\
  forall e, Ok tt = Raise e -> refresh_exn e.
Proof.
  cbv zeta.
  set (s := new_client "kafka0" 9092 4096 "kafka-python" 50 0 []).
  set (refresh := @_load_metadata_for_topics assigning stub_codec
                    insertion_order 2 [] s).
  assert (Hrun : refresh = (Ok tt, snd refresh)) by by_evaluation.
  split; [exact Hrun|]. split; [by_evaluation|].
  exact (@refresh_uses_registry_only assigning stub_codec insertion_order
           2 [] s (snd refresh) (Ok tt) Hrun).
Defined.

(** Three payloads for two brokers: the two payloads for partition 0 of
    t share the group of broker 1. *)
Lemma group_request_partitions_witness :
  let payloads := [payload_t0; payload_u0; payload_t0'] in
  let groups := [(broker1, [payload_t0; payload_t0']);
                 (broker2, [payload_u0])] in
  grouping_on narrowing payloads
  = (Ok ([("t", 0%Z); ("u", 0%Z); ("t", 0%Z)], groups),
     snd (grouping_on narrowing payloads)) /\
  [("t", 0%Z); ("u", 0%Z); ("t", 0%Z)] = payload_key <$> payloads /\
  mjoin groups.*2 ≡ₚ payloads /\
  NoDup groups.*1 /\
  Forall (fun g : BrokerMetadata * list Payload =>
            g.2 ≠ [] /\ g.2 `sublist_of` payloads) groups.
Proof.
  cbv zeta.
  assert (Hrun :
    grouping_on narrowing [payload_t0; payload_u0; payload_t0']
    = (Ok ([("t", 0%Z); ("u", 0%Z); ("t", 0%Z)],
           [(broker1, [payload_t0; payload_t0']); (broker2, [payload_u0])]),
       snd (grouping_on narrowing [payload_t0; payload_u0; payload_t0'])))
    by by_evaluation.
  split; [exact Hrun|].
  exact (@group_request_partitions narrowing stub_codec insertion_order
           1 [payload_t0; payload_u0; payload_t0'] (client_on narrowing 1)
           _ _ _ Hrun).
Defined.

(** With both leaders in the cache the grouping asks nothing. *)
Lemma grouping_with_warm_cache_witness :
  let s := client_on narrowing 1 in
  let payloads := [payload_t0; payload_u0] in
  Forall (fun p => is_Some (topics_to_brokers s !! payload_key p))
         payloads /\
  exists groups,
    @_group_request narrowing stub_codec insertion_order 0 payloads s
    = (Ok (payload_key <$> payloads, groups), s) /\
    forall b ps p,
      (b, ps) ∈ groups -> p ∈ ps ->
      topics_to_brokers s !! payload_key p = Some b.
Proof.
  cbv zeta.
  assert (Ht : topics_to_brokers (client_on narrowing 1)
               !! payload_key payload_t0 = Some broker1) by by_evaluation.
  assert (Hu : topics_to_brokers (client_on narrowing 1)
               !! payload_key payload_u0 = Some broker2) by by_evaluation.
  assert (Hwarm :
    Forall (fun p => is_Some (topics_to_brokers (client_on narrowing 1)
                              !! payload_key p))
           [payload_t0; payload_u0]).
  { constructor; [rewrite Ht; eexists; reflexivity|].
    constructor; [rewrite Hu; eexists; reflexivity|]. constructor. }
  split; [exact Hwarm|].
  exact (@grouping_with_warm_cache narrowing stub_codec insertion_order
           0 [payload_t0; payload_u0] (client_on narrowing 1)
           (proj1 (Forall_forall _ _) Hwarm)).
Defined.

(** The lookup that refreshed finds the leader in the cache afterwards. *)
Lemma leader_lookup_is_cached_witness :
  let s := new_client "kafka0" 9092 4096 "kafka-python" 50 0 [] in
  let lookup :=
    @_get_leader_for_partition cluster_up stub_codec insertion_order
      1 "t" 0 s in
  lookup = (Ok broker1, snd lookup) /\
  forall fuel',
    @_get_leader_for_partition cluster_up stub_codec insertion_order
      fuel' "t" 0 (snd lookup) = (Ok broker1, snd lookup).
Proof.
  cbv zeta.
  set (s := new_client "kafka0" 9092 4096 "kafka-python" 50 0 []).
  set (lookup := @_get_leader_for_partition cluster_up stub_codec
                   insertion_order 1 "t" 0 s).
  assert (Hrun : lookup = (Ok broker1, snd lookup)) by by_evaluation.
  split; [exact Hrun|].
  exact (@leader_lookup_is_cached cluster_up stub_codec insertion_order
           1 "t" 0%Z s (snd lookup) broker1 Hrun).
Defined.

(** The steady cluster never reports u: its lookup raises. *)
Lemma lookup_of_unknown_partition_witness :
  let s := new_client "kafka0" 9092 4096 "kafka-python" 50 0 [] in
  let lookup :=
    @_get_leader_for_partition steady stub_codec insertion_order
      1 "u" 0 s in
  (forall h conn request_id request response,
     @conn_request steady h conn request_id request = inl response ->
     "u" ∉ (@decode_metadata_response stub_codec response).2.*1) /\
  topics_to_brokers s !! ("u", 0%Z) = None /\
  (forall b, fst lookup ≠ Ok b) /\
  fst lookup = Raise (PartitionDoesNotExist ("u", 0%Z)).
Proof.
  cbv zeta.
  set (s := new_client "kafka0" 9092 4096 "kafka-python" 50 0 []).
  set (lookup := @_get_leader_for_partition steady stub_codec
                   insertion_order 1 "u" 0 s).
  assert (Hnever : forall h conn request_id request response,
     @conn_request steady h conn request_id request = inl response ->
     "u" ∉ (@decode_metadata_response stub_codec response).2.*1).
  { intros h conn request_id request response Hanswer.
    simpl in Hanswer. inversion Hanswer; subst response.
    vm_compute. intros Hin. apply list_elem_of_singleton in Hin.
    discriminate. }
  assert (Hmiss : topics_to_brokers s !! ("u", 0%Z) = None)
    by by_evaluation.
  assert (Hrun : lookup = (fst lookup, snd lookup))
    by apply surjective_pairing.
  assert (Hrefresh :
    fst (@_load_metadata_for_topics steady stub_codec insertion_order
           1 ["u"] s) = Ok tt) by by_evaluation.
  destruct (@lookup_of_unknown_partition steady stub_codec insertion_order
              1 "u" 0%Z s (snd lookup) (fst lookup) Hnever Hmiss Hrun)
    as [Hnot Hraises].
  split; [exact Hnever|]. split; [exact Hmiss|]. split; [exact Hnot|].
  exact (Hraises Hrefresh).
Defined.

(** A send to two brokers after the request of the construction: the
    calls, one for each group, carry the ids 1 and 2, and the counter
    ends at 3. *)
Lemma send_uses_fresh_ids_witness :
  let s := client_on half_down 1 in
  let payloads := [payload_t0; payload_u0] in
  let groups := [(broker1, [payload_t0]); (broker2, [payload_u0])] in
  let s1 := snd (grouping_on half_down payloads) in
  let s' := snd (sending_on half_down payloads) in
  let evs := events_since s1 s' in
  ids_below (ID_GEN s) (history s) /\
  omap event_id evs = [1%Z; 2%Z] /\
  ids_below (ID_GEN s') (history s') /\
  history s' = history s1 ++ evs /\
  ids_below (ID_GEN s1) (history s1) /\
  omap event_id evs = seqZ (ID_GEN s1) (Z.of_nat (length evs)) /\
  ID_GEN s' = (ID_GEN s1 + Z.of_nat (length evs))%Z /\
  Forall2 (sent_to stub_encoder (Some stub_decoder) s1)
          (take (length evs) groups) evs /\
  length evs = length groups.
Proof.
  cbv zeta.
  set (payloads := [payload_t0; payload_u0]).
  assert (Hbelow : ids_below (ID_GEN (client_on half_down 1))
                             (history (client_on half_down 1))).
  { vm_compute. repeat constructor. intros i Hi. inversion Hi.
    reflexivity. }
  assert (Hgroup :
    grouping_on half_down payloads
    = (Ok ([("t", 0%Z); ("u", 0%Z)],
           [(broker1, [payload_t0]); (broker2, [payload_u0])]),
       snd (grouping_on half_down payloads))) by by_evaluation.
  assert (Hsend :
    sending_on half_down payloads
    = (Raise (FailedPayloadsException [payload_u0]),
       snd (sending_on half_down payloads))) by by_evaluation.
  destruct (@send_uses_fresh_ids half_down stub_codec insertion_order
              1 payloads stub_encoder (Some stub_decoder)
              (client_on half_down 1) (snd (sending_on half_down payloads))
              _ Hsend Hbelow) as [Hafter Hids].
  destruct (Hids _ _ _ Hgroup) as (Hh & Hbelow1 & Hseq & Hid & Hcalls & Hall).
  split; [exact Hbelow|]. split; [by_evaluation|].
  split; [exact Hafter|]. split; [exact Hh|]. split; [exact Hbelow1|].
  split; [exact Hseq|]. split; [exact Hid|]. split; [exact Hcalls|].
  apply Hall. intros te. discriminate.
Defined.

(** A payload for a topic that the cluster does not know: the send
    raises in the grouping, after the refresh for the topic. *)
Lemma send_failure_kinds_witness :
  let s := client_on cluster_up 1 in
  let e := PartitionDoesNotExist ("u", 0%Z) in
  let s' := snd (sending_on cluster_up [payload_u0]) in
  sending_on cluster_up [payload_u0] = (Raise e, s') /\
  ((grouping_exn [payload_u0] e /\
    @_group_request cluster_up stub_codec insertion_order 1 [payload_u0] s
    = (Raise e, s') /\
    conns s' = conns s /\
    Forall (@refresh_event stub_codec (client_id s) (conns s).*2)
           (events_since s s')) \/
   (exists keys groups s1,
      @_group_request cluster_up stub_codec insertion_order 1 [payload_u0] s
      = (Ok (keys, groups), s1) /\
      ((exists failed_payloads,
          e = FailedPayloadsException failed_payloads) \/
       (exists te, e = Propagated te /\ te ≠ ConnectionError)))).
Proof.
  cbv zeta.
  assert (Hsend :
    sending_on cluster_up [payload_u0]
    = (Raise (PartitionDoesNotExist ("u", 0%Z)),
       snd (sending_on cluster_up [payload_u0]))) by by_evaluation.
  split; [exact Hsend|].
  exact (@send_failure_kinds cluster_up stub_codec insertion_order
           1 [payload_u0] stub_encoder (Some stub_decoder)
           (client_on cluster_up 1) (snd (sending_on cluster_up [payload_u0]))
           _ Hsend).
Defined.

(** A fetch answered with the error code 3: returned in lenient mode,
    raised as the mapped class in strict mode. *)
Lemma api_is_send_then_check_witness :
  let s := client_on refusing 1 in
  let a := Fetch 100 4096 in
  let resp := mkResponse "t" 0 3 "" in
  let send :=
    @_send_broker_aware_request refusing stub_codec insertion_order
      1 [payload_t0] (@encoder_of stub_codec a) (@decoder_of stub_codec a)
      s in
  send = (Ok (GenExpr {[ ("t", 0%Z) := resp ]} [("t", 0%Z)]), snd send) /\
  @call refusing stub_codec insertion_order a 1 [payload_t0] false s
  = (Ok [resp], snd send) /\
  exists message tp,
    @call refusing stub_codec insertion_order a 1 [payload_t0] true s
    = (Raise (RequestFailed (MappedException "UnknownTopicOrPartitionError")
                            message tp 3), snd send).
Proof.
  cbv zeta.
  set (s := client_on refusing 1).
  set (a := Fetch 100 4096).
  set (resp := mkResponse "t" 0 3 "").
  set (send := @_send_broker_aware_request refusing stub_codec
                 insertion_order 1 [payload_t0] (@encoder_of stub_codec a)
                 (@decoder_of stub_codec a) s).
  assert (Hsend :
    send = (Ok (GenExpr {[ ("t", 0%Z) := resp ]} [("t", 0%Z)]), snd send))
    by by_evaluation.
  destruct (@api_is_send_then_check refusing stub_codec insertion_order
              a 1 [payload_t0] s (snd send) _ Hsend) as [Hlenient Hstrict].
  split; [exact Hsend|]. split; [exact Hlenient|].
  destruct (Hstrict [resp] eq_refl) as [_ Hfirst].
  apply (Hfirst [] resp [] eq_refl); [constructor|discriminate].
Defined.

(** A produce request with acks = 0 for two partitions of one broker:
    one push, and the empty list in strict mode. *)
Lemma pushes_only_without_acks_witness :
  let s := client_on cluster_up 1 in
  let payloads := [payload_t0; payload_t1] in
  let run :=
    @call cluster_up stub_codec insertion_order (Produce 0 1000) 1 payloads
      true s in
  run = (Ok [], snd run) /\
  filter (fun ev => is_push ev) (events_since s (snd run))
  = events_since s (snd run) /\
  length (events_since s (snd run)) = 1%nat /\
  (Exists (fun ev => is_push ev = true) (events_since s (snd run)) ->
   exists timeout, Produce 0 1000 = Produce 0 timeout) /\
  forall timeout,
    Produce 0 1000 = Produce 0 timeout ->
    (forall rs : list Response, Ok [] = Ok rs -> rs = []) /\
    forall keys groups s1,
      @_group_request cluster_up stub_codec insertion_order 1 payloads s
      = (Ok (keys, groups), s1) ->
      Forall (fun ev => is_push ev = true) (events_since s1 (snd run)).
Proof.
  cbv zeta.
  set (s := client_on cluster_up 1).
  set (payloads := [payload_t0; payload_t1]).
  set (run := @call cluster_up stub_codec insertion_order (Produce 0 1000)
                1 payloads true s).
  assert (Hrun : run = (Ok [], snd run)) by by_evaluation.
  split; [exact Hrun|]. split; [by_evaluation|]. split; [by_evaluation|].
  exact (@pushes_only_without_acks cluster_up stub_codec insertion_order
           (Produce 0 1000) 1 payloads true s (snd run) (Ok []) Hrun).
Defined.

(** The cluster on which t never gets a leader: three units of fuel,
    three sleeps. *)
Lemma refresh_of_unassigned_never_returns_witness :
  let s := new_client "kafka0" 9092 4096 "kafka-python" 50 0 [] in
  let refresh :=
    @_load_metadata_for_topics unassigned stub_codec insertion_order
      3 [] s in
  (forall h conn request_id request response,
     @conn_request unassigned h conn request_id request = inl response ->
     starts_unassigned (@decode_metadata_response stub_codec response).2) /\
  refresh = (OutOfFuel, snd refresh) /\
  ((OutOfFuel = @OutOfFuel unit /\
    sleeps (history (snd refresh)) = (sleeps (history s) + 3)%nat) \/
   @OutOfFuel unit = Raise AllServersFailed).
Proof.
  cbv zeta.
  set (s := new_client "kafka0" 9092 4096 "kafka-python" 50 0 []).
  set (refresh := @_load_metadata_for_topics unassigned stub_codec
                    insertion_order 3 [] s).
  assert (Hunassigned : forall h conn request_id request response,
     @conn_request unassigned h conn request_id request = inl response ->
     starts_unassigned (@decode_metadata_response stub_codec response).2).
  { intros h conn request_id request response Hanswer.
    simpl in Hanswer. inversion Hanswer; subst response.
    vm_compute. reflexivity. }
  assert (Hrun : refresh = (OutOfFuel, snd refresh)) by by_evaluation.
  split; [exact Hunassigned|]. split; [exact Hrun|].
  exact (@refresh_of_unassigned_never_returns unassigned stub_codec
           insertion_order Hunassigned 3 [] s (snd refresh) OutOfFuel Hrun).
Defined.

(** The construction on the cluster that reports t on broker 1: one
    request, both partitions of t cached. *)
Lemma refresh_caches_assigned_response_witness :
  let s := new_client "kafka0" 9092 4096 "kafka-python" 50 0 [] in
  let bs : gmap Z BrokerMetadata := {[ 1%Z := broker1 ]} in
  let topics := [("t", [led_by "t" 0 1; led_by "t" 1 1])] in
  conns s ≠ [] /\
  (forall conn,
     @conn_request cluster_up (history s) conn (ID_GEN s)
       (@encode_metadata_request stub_codec (client_id s) (ID_GEN s) [])
     = inl "t on 1") /\
  @decode_metadata_response stub_codec "t on 1" = (bs, topics) /\
  NoDup topics.*1 /\
  all_assigned bs topics /\
  exists s' conn,
    @_load_metadata_for_topics cluster_up stub_codec insertion_order
      1 [] s = (Ok tt, s') /\
    history s' =
      history s ++
      [EvRequest conn (ID_GEN s)
         (@encode_metadata_request stub_codec (client_id s) (ID_GEN s) [])
         (inl "t on 1")] /\
    ID_GEN s' = (ID_GEN s + 1)%Z /\
    brokers s' = bs /\
    (forall u partitions,
       (u, partitions) ∈ topics ->
       topic_partitions s' !! u = Some partitions.*1 /\
       forall p m,
         (p, m) ∈ partitions ->
         exists b,
           bs !! leader m = Some b /\
           forall fuel',
             @_get_leader_for_partition cluster_up stub_codec
               insertion_order fuel' u p s' = (Ok b, s')) /\
    (forall u p,
       u ∉ topics.*1 ->
       topics_to_brokers s' !! (u, p) = None /\
       topic_partitions s' !! u = topic_partitions s !! u).
Proof.
  cbv zeta.
  set (s := new_client "kafka0" 9092 4096 "kafka-python" 50 0 []).
  assert (Hpools : conns s ≠ []) by discriminate.
  assert (Hanswer : forall conn,
     @conn_request cluster_up (history s) conn (ID_GEN s)
       (@encode_metadata_request stub_codec (client_id s) (ID_GEN s) [])
     = inl "t on 1") by (intros conn; reflexivity).
  assert (Hdecode :
    @decode_metadata_response stub_codec "t on 1"
    = ({[ 1%Z := broker1 ]}, [("t", [led_by "t" 0 1; led_by "t" 1 1])]))
    by by_evaluation.
  assert (Hnodup : NoDup [("t", [led_by "t" 0 1; led_by "t" 1 1])].*1).
  { vm_compute. repeat constructor. intros Hin. inversion Hin. }
  assert (Hall : all_assigned ({[ 1%Z := broker1 ]} : gmap Z BrokerMetadata)
                              [("t", [led_by "t" 0 1; led_by "t" 1 1])]).
  { repeat constructor; try discriminate.
    - vm_compute. intros Hin. apply list_elem_of_singleton in Hin.
      discriminate.
    - vm_compute. intros Hin. inversion Hin.
    - eexists. apply lookup_singleton_eq.
    - eexists. apply lookup_singleton_eq. }
  split; [exact Hpools|]. split; [exact Hanswer|]. split; [exact Hdecode|].
  split; [exact Hnodup|]. split; [exact Hall|].
  exact (@refresh_caches_assigned_response cluster_up stub_codec
           insertion_order 0 [] s "t on 1" _ _
           Hpools Hanswer Hdecode Hnodup Hall).
Defined.

(** The response lists u, then t with broker 7 for its partition 1, then
    v, and knows broker 1 only: the refresh raises for 7, with u cached
    and v not. *)
Lemma refresh_with_unknown_leader_witness :
  let s := new_client "kafka0" 9092 4096 "kafka-python" 50 0 [] in
  let bs : gmap Z BrokerMetadata := {[ 1%Z := broker1 ]} in
  let refresh :=
    @_load_metadata_for_topics losing lost_leader_codec insertion_order
      1 [] s in
  refresh = (Raise (KeyError_brokers 7), snd refresh) /\
  topics_to_brokers (snd refresh) !! ("u", 0%Z) = Some broker1 /\
  topics_to_brokers (snd refresh) !! ("v", 0%Z) = None /\
  exists s',
    refresh = (Raise (KeyError_brokers 7), s') /\
    brokers s' = bs /\
    (forall u listed q mq,
       (u, listed) ∈ [("u", [led_by "u" 0 1])] -> (q, mq) ∈ listed ->
       topics_to_brokers s' !! (u, q) = bs !! leader mq) /\
    (forall u q,
       u ∉ [("u", [led_by "u" 0 1])].*1 -> u ≠ "t" ->
       topics_to_brokers s' !! (u, q) = None).
Proof.
  cbv zeta.
  set (s := new_client "kafka0" 9092 4096 "kafka-python" 50 0 []).
  set (refresh := @_load_metadata_for_topics losing lost_leader_codec
                    insertion_order 1 [] s).
  assert (Hpools : conns s ≠ []) by discriminate.
  assert (Hanswer : forall conn,
     @conn_request losing (history s) conn (ID_GEN s)
       (@encode_metadata_request lost_leader_codec (client_id s)
          (ID_GEN s) [])
     = inl "t lost") by (intros conn; reflexivity).
  assert (Hdecode :
    @decode_metadata_response lost_leader_codec "t lost"
    = ({[ 1%Z := broker1 ]},
       [("u", [led_by "u" 0 1])]
       ++ ("t", [led_by "t" 0 1] ++ led_by "t" 1 7 :: [])
       :: [("v", [led_by "v" 0 1])])) by by_evaluation.
  assert (Hnodup :
    NoDup ([("u", [led_by "u" 0 1])]
           ++ ("t", [led_by "t" 0 1] ++ led_by "t" 1 7 :: [])
           :: [("v", [led_by "v" 0 1])]).*1).
  { vm_compute. repeat constructor.
    - intros Hin. apply elem_of_cons in Hin as [Hin|Hin]; [discriminate|].
      apply list_elem_of_singleton in Hin. discriminate.
    - intros Hin. apply list_elem_of_singleton in Hin. discriminate.
    - intros Hin. inversion Hin. }
  assert (Hall : all_assigned ({[ 1%Z := broker1 ]} : gmap Z BrokerMetadata)
                              [("u", [led_by "u" 0 1])]).
  { repeat constructor; try discriminate.
    - vm_compute. intros Hin. inversion Hin.
    - eexists. apply lookup_singleton_eq. }
  assert (Hassigned :
    assigned ({[ 1%Z := broker1 ]} : gmap Z BrokerMetadata)
             [led_by "t" 0 1]).
  { repeat constructor; try discriminate.
    eexists. apply lookup_singleton_eq. }
  assert (Hleader : leader (led_by "t" 1 7).2 ≠ (-1)%Z) by discriminate.
  assert (Hunknown :
    ({[ 1%Z := broker1 ]} : gmap Z BrokerMetadata)
    !! leader (led_by "t" 1 7).2 = None) by by_evaluation.
  split; [by_evaluation|]. split; [by_evaluation|]. split; [by_evaluation|].
  exact (@refresh_with_unknown_leader losing lost_leader_codec
           insertion_order 0 [] s "t lost" _ "t" _ _ _ _ _ _
           Hpools Hanswer Hdecode Hnodup Hall Hassigned Hleader Hunknown).
Defined.
